(** * Machine Learning for Biomedical Problems: the two example notebooks

    A shallow embedding of the code cells of
    [notebooks/neural_network_example.ipynb] (the scikit-learn multilayer
    perceptron on the breast-cancer table) and of the convolutional-network
    notebook that follows it in the same file (the PyTorch CIFAR-10
    classifier), together with the properties the specification states about
    them.

    The first part of the file holds the definitions, one module per topic;
    the second part holds the lemmas and theorems.  Library objects
    ([StandardScaler], [np.argmax], [torch.max], [nn.Conv2d], ...) are
    modelled after their documented contract, under the names the notebooks
    use.  The pixels of the image tensors are [float32] numbers, with the
    rounding of every operation written out; the other real-valued data is
    modelled with exact arithmetic ([R] where a square root is needed, [Q]
    elsewhere). *)

From Stdlib Require Import Reals QArith Qabs Qround ZArith NArith Psatz Lia.
From Stdlib Require Import List String Strings.Byte.
From stdpp Require Import gmap strings list.
Import ListNotations.

(* ================================================================== *)
(** * Part I: definitions *)
(* ================================================================== *)

(** ** Tensor shapes and the [Net] class of the CNN notebook *)

Module Torch.
Local Open Scope N_scope.

(** [tensor.size()]: the extent of every dimension. *)
Definition shape := list N.

(** [tensor.numel()]: the number of elements. *)
Definition numel (s : shape) : N := fold_right N.mul 1 s.

(** [torch.nn.Conv2d(in_channels, out_channels, kernel_size, stride=1,
    padding=0, dilation=1, groups=1, bias=True)]. *)
Record Conv2d := mkConv2d {
  in_channels : N;
  out_channels : N;
  kernel_size : N;
  stride : N;
  padding : N;
  dilation : N;
  conv_bias : bool
}.

(** The call [nn.Conv2d(i, o, k)]: every other argument keeps its default. *)
Definition nn_Conv2d (i o k : N) : Conv2d :=
  mkConv2d i o k 1 0 1 true.

(** [torch.nn.MaxPool2d(kernel_size, stride)], padding 0, dilation 1,
    [ceil_mode=False]. *)
Record MaxPool2d := mkMaxPool2d {
  pool_kernel : N;
  pool_stride : N
}.

Definition nn_MaxPool2d (k s : N) : MaxPool2d := mkMaxPool2d k s.

(** [torch.nn.Linear(in_features, out_features, bias=True)]. *)
Record Linear := mkLinear {
  in_features : N;
  out_features : N;
  lin_bias : bool
}.

Definition nn_Linear (i o : N) : Linear := mkLinear i o true.

(** Output extent of a sliding window along one spatial axis:
    [floor((h + 2*pad - dil*(k-1) - 1) / stride) + 1]; the layer raises when
    the window does not fit or when the stride is zero. *)
Definition window_out (h k s pad dil : N) : option N :=
  let span := dil * (k - 1) + 1 in
  if (k =? 0) || (s =? 0) || (h + 2 * pad <? span) then None
  else Some ((h + 2 * pad - span) / s + 1).

(** Shape of [conv(x)] for a batch [x] of shape [B x C x H x W]; anything
    else (wrong rank, wrong channel count) raises. *)
Definition Conv2d_forward (c : Conv2d) (x : shape) : option shape :=
  match x with
  | [b; ch; h; w] =>
      if ch =? in_channels c then
        h' ← window_out h (kernel_size c) (stride c) (padding c) (dilation c);
        w' ← window_out w (kernel_size c) (stride c) (padding c) (dilation c);
        Some [b; out_channels c; h'; w']
      else None
  | _ => None
  end.

(** Shape of [pool(x)]. *)
Definition MaxPool2d_forward (p : MaxPool2d) (x : shape) : option shape :=
  match x with
  | [b; ch; h; w] =>
      h' ← window_out h (pool_kernel p) (pool_stride p) 0 1;
      w' ← window_out w (pool_kernel p) (pool_stride p) 0 1;
      Some [b; ch; h'; w']
  | _ => None
  end.

(** [F.relu] works element by element: the shape is unchanged. *)
Definition relu (x : shape) : shape := x.

(** [x.view(-1, n)]: the tensor is re-read as rows of [n] elements; the
    leading extent is inferred, and the call raises unless the element count
    is a multiple of [n]. *)
Definition view_rows (n : N) (x : shape) : option shape :=
  if (0 <? n) && (numel x mod n =? 0) then Some [numel x / n; n] else None.

(** Shape of [fc(x)]: the last dimension must equal [in_features] and is
    replaced by [out_features]. *)
Definition Linear_forward (l : Linear) (x : shape) : option shape :=
  match rev x with
  | last :: lead =>
      if last =? in_features l then Some (rev lead ++ [out_features l])
      else None
  | [] => None
  end.

(** [class Net(nn.Module)]: the attributes set by [__init__], in the order
    they are assigned. *)
Record Net := mkNet {
  conv1 : Conv2d;
  pool : MaxPool2d;
  conv2 : Conv2d;
  fc1 : Linear;
  fc2 : Linear;
  fc3 : Linear
}.

(** [Net.__init__]. *)
Definition Net_init : Net :=
  {| conv1 := nn_Conv2d 3 6 5;
     pool := nn_MaxPool2d 2 2;
     conv2 := nn_Conv2d 6 16 5;
     fc1 := nn_Linear (16 * 5 * 5) 120;
     fc2 := nn_Linear 120 84;
     fc3 := nn_Linear 84 10 |}.

(** [Net.forward], on shapes. *)
Definition forward (self : Net) (x : shape) : option shape :=
  x ← Conv2d_forward (conv1 self) x;
  x ← MaxPool2d_forward (pool self) (relu x);
  x ← Conv2d_forward (conv2 self) x;
  x ← MaxPool2d_forward (pool self) (relu x);
  x ← view_rows (16 * 5 * 5) x;
  x ← Linear_forward (fc1 self) x;
  x ← Linear_forward (fc2 self) (relu x);
  Linear_forward (fc3 self) (relu x).

(** [net = Net()]. *)
Definition net : Net := Net_init.

(** A registered parameter tensor: its name, its size and its
    [requires_grad] flag (true for every freshly built layer). *)
Record TorchParameter := mkParameter {
  pname : string;
  psize : shape;
  requires_grad : bool
}.

Definition Conv2d_parameters (prefix : string) (c : Conv2d) : list TorchParameter :=
  mkParameter (prefix ++ ".weight")
    [out_channels c; in_channels c; kernel_size c; kernel_size c] true
  :: (if conv_bias c
      then [mkParameter (prefix ++ ".bias") [out_channels c] true]
      else []).

Definition Linear_parameters (prefix : string) (l : Linear) : list TorchParameter :=
  mkParameter (prefix ++ ".weight") [out_features l; in_features l] true
  :: (if lin_bias l
      then [mkParameter (prefix ++ ".bias") [out_features l] true]
      else []).

(** [net.named_parameters()]: the parameters of the sub-modules in
    registration order; the pooling layer has none. *)
Definition named_parameters (self : Net) : list TorchParameter :=
  Conv2d_parameters "conv1" (conv1 self)
  ++ Conv2d_parameters "conv2" (conv2 self)
  ++ Linear_parameters "fc1" (fc1 self)
  ++ Linear_parameters "fc2" (fc2 self)
  ++ Linear_parameters "fc3" (fc3 self).

(** [sum(p.numel() for p in net.parameters() if p.requires_grad)]. *)
Definition trainable_parameter_count (self : Net) : N :=
  fold_right N.add 0
    (map (fun p => numel (psize p))
         (filter (fun p => requires_grad p = true) (named_parameters self))).

(** The expression typed by hand in the notebook. *)
Definition hand_written_count : N :=
  6*3*5*5 + 6 + 16*6*5*5 + 16 + 120*400 + 120 + 84*120 + 84 + 10*84 + 10.

End Torch.

(** ** Picking the predicted class: [np.argmax] and [torch.max] *)

Module Predict.
Local Open Scope Q_scope.

(** The scan behind [np.argmax] on a one-dimensional array: [best_i] is the
    index of the largest value [best] met so far, [i] the index of the head
    of [a].  A later element replaces the best one only when it is strictly
    larger, so the first occurrence of the maximum is kept. *)
Fixpoint argmax_scan (best_i : nat) (best : Q) (i : nat) (a : list Q) : nat :=
  match a with
  | [] => best_i
  | x :: rest =>
      if Qle_bool x best then argmax_scan best_i best (S i) rest
      else argmax_scan i x (S i) rest
  end.

(** [np.argmax(a)]; an empty array raises. *)
Definition argmax (a : list Q) : option nat :=
  match a with
  | [] => None
  | x :: rest => Some (argmax_scan 0 x 1 rest)
  end.

(** The four values handed to [format] for one printed line of the table
    [P1  P2  Pc  Label]. *)
Record line := mkLine { P1 : Q; P2 : Q; Pc : nat; Label : nat }.

(** One iteration of the printing loop: [x_predict[i,0]], [x_predict[i,1]],
    [np.argmax(x_predict[i,:])] and [y_test[i]]; an index out of range
    raises. *)
Definition print_row (x_predict : list (list Q)) (y_test : list nat) (i : nat)
  : option line :=
  row ← x_predict !! i;
  p1 ← row !! 0%nat;
  p2 ← row !! 1%nat;
  pc ← argmax row;
  label ← y_test !! i;
  Some (mkLine p1 p2 pc label).

(** [for i in range(10): print(...)]. *)
Definition print_loop (x_predict : list (list Q)) (y_test : list nat)
  : option (list line) :=
  mapM (print_row x_predict y_test) (seq 0 10).

(** [torch.max(outputs, 1)]: for every row of a two-dimensional tensor, the
    largest value and its index. *)
Definition torch_max_1 (outputs : list (list Q)) : option (list Q * list nat) :=
  r ← mapM (fun row => k ← argmax row; v ← row !! k; Some (v, k)) outputs;
  Some (r.*1, r.*2).

(** The tuple [classes] of the CNN notebook. *)
Definition classes : list string :=
  ["plane"; "car"; "bird"; "cat"; "deer"; "dog"; "frog"; "horse"; "ship";
   "truck"]%string.

(** [_, predicted = torch.max(outputs, 1)] followed by
    [classes[predicted[j]] for j in range(4)]: the names printed after
    [Predict:]. *)
Definition predicted_names (outputs : list (list Q)) : option (list string) :=
  '(_, predicted) ← torch_max_1 outputs;
  mapM (fun j => k ← predicted !! j; classes !! k) (seq 0 4).

(** A table of ten probability rows with their labels, and a batch of four
    score rows, used as running example. *)
Definition sample_probabilities : list (list Q) := replicate 10 [1#3; 2#3].
Definition sample_labels : list nat := replicate 10 1%nat.
Definition sample_outputs : list (list Q) :=
  replicate 4 (replicate 9 0 ++ [1]).

End Predict.

(** ** Single-precision arithmetic *)

Module Float32.
Local Open Scope Q_scope.

(** [2 ^ e]. *)
Definition pow2 (e : Z) : Q := Qpower 2 e.

(** [floor (log2 q)], for [q > 0]. *)
Definition ilog2 (q : Q) : Z :=
  let k := (Z.log2 (Qnum q) - Z.log2 (Z.pos (Qden q)))%Z in
  if Qle_bool (pow2 k) q then k else (k - 1)%Z.

(** The nearest integer, the even one of the two when [q] is half-way. *)
Definition rne (q : Q) : Z :=
  let f := Qfloor q in
  match Qcompare (q - inject_Z f) (1 # 2) with
  | Lt => f
  | Gt => (f + 1)%Z
  | Eq => if Z.even f then f else (f + 1)%Z
  end.

(** A [binary32] number: a finite value, or [None] for an infinity or a
    NaN. *)
Definition float32 := option Q.

(** Rounding to [binary32], to nearest, ties to even: 24 significant bits,
    multiples of [2 ^ -149] near zero, overflow to infinity from
    [2 ^ 128] on. *)
Definition round (q : Q) : float32 :=
  if Qeq_bool q 0 then Some 0
  else
    let e := Z.max (ilog2 (Qabs q) - 23) (-149) in
    let r := inject_Z (rne (q / pow2 e)) * pow2 e in
    if Qle_bool (pow2 128) (Qabs r) then None else Some (Qred r).

(** [a + y], [a - y] and [a / y] for a finite [y]; a value that is not
    finite stays so, and dividing by zero leaves the finite numbers. *)
Definition fadd (a : float32) (y : Q) : float32 := x ← a; round (x + y).

Definition fsub (a : float32) (y : Q) : float32 := x ← a; round (x - y).

Definition fdiv (a : float32) (y : Q) : float32 :=
  x ← a; if Qeq_bool y 0 then None else round (x / y).

(** [a == 0]. *)
Definition is_zero (a : float32) : bool :=
  match a with
  | Some x => Qeq_bool x 0
  | None => false
  end.

(** An 8-bit value read as a float (exact). *)
Definition of_byte (b : byte) : float32 :=
  Some (inject_Z (Z.of_N (Byte.to_N b))).

End Float32.

(** ** Normalising and displaying images *)

Module Vision.
Import Float32.
Local Open Scope Q_scope.

(** An 8-bit image [H x W x C], as the dataset stores it, read through its
    indexing function. *)
Record image8 := mkImage8 {
  size8 : nat * nat * nat;
  pixel : nat -> nat -> nat -> byte
}.

(** A [float32] image tensor [C x H x W], read through its indexing
    function. *)
Record tensor3 := mkTensor3 {
  dims : nat * nat * nat;
  item : nat -> nat -> nat -> float32
}.

(** [transforms.ToTensor()] on one pixel: the 8-bit level divided by
    255. *)
Definition to_tensor_pixel (b : byte) : float32 := fdiv (of_byte b) 255.

(** [transforms.ToTensor()]: channels first, levels scaled to [[0, 1]]. *)
Definition ToTensor (img : image8) : tensor3 :=
  let '(h, w, c) := size8 img in
  {| dims := (c, h, w);
     item := fun k i j => to_tensor_pixel (pixel img i j k) |}.

(** One pixel of [tensor.sub_(mean).div_(std)], for the [float32] mean [m]
    and standard deviation [s] of its channel ([None]: the constant given
    is too large for a [float32]; [s] is not zero). *)
Definition normalize_pixel (m s : float32) (x : float32) : float32 :=
  match m, s with
  | Some m, Some s => fdiv (fsub x m) s
  | None, Some _ => None
  | Some m, None => match fsub x m with Some _ => Some 0 | None => None end
  | None, None => None
  end.

(** The constants of channel [c]: a single constant serves every
    channel. *)
Definition channel_constant (l : list Q) (c : nat) : float32 :=
  match l with
  | [v] => round v
  | _ => v ← l !! c; round v
  end.

(** [transforms.Normalize(mean, std)]: channel [c] becomes
    [(t - mean[c]) / std[c]].  The call raises when a standard deviation
    is zero as a [float32], and when [mean] or [std] has neither one entry
    nor one entry per channel of the tensor. *)
Definition Normalize (mean std : list Q) (t : tensor3) : option tensor3 :=
  let '(c, h, w) := dims t in
  let fits (l : list Q) := (length l =? c)%nat || (length l =? 1)%nat in
  if existsb (fun v => is_zero (round v)) std then None
  else if fits mean && fits std then
    Some {| dims := dims t;
            item := fun k i j =>
              normalize_pixel (channel_constant mean k)
                              (channel_constant std k) (item t k i j) |}
  else None.

(** [transform]: [ToTensor()] followed by
    [Normalize((0.5, 0.5, 0.5), (0.5, 0.5, 0.5))]. *)
Definition transform (img : image8) : option tensor3 :=
  Normalize [1 # 2; 1 # 2; 1 # 2] [1 # 2; 1 # 2; 1 # 2] (ToTensor img).

(** [img / 2 + 0.5], on one pixel. *)
Definition unnormalize_pixel (x : float32) : float32 :=
  fadd (fdiv x 2) (1 # 2).

(** [np.transpose(npimg, (1, 2, 0))]: axis order [H x W x C]. *)
Definition transpose_120 (t : tensor3) : tensor3 :=
  let '(c, h, w) := dims t in
  {| dims := (h, w, c); item := fun i j k => item t k i j |}.

(** [imshow(img)]: the array handed to [plt.imshow]. *)
Definition imshow (img : tensor3) : tensor3 :=
  let img := {| dims := dims img;
                item := fun c h w => unnormalize_pixel (item img c h w) |} in
  transpose_120 img.

(** The distance between two values, when both are finite. *)
Definition apart (a b : float32) : option Q :=
  x ← a; y ← b; Some (Qabs (x - y)).

(** An image of a single pixel, the same level in its three channels. *)
Definition one_pixel (b : byte) : image8 :=
  mkImage8 (1, 1, 3)%nat (fun _ _ _ => b).

End Vision.

(** ** The scaling cell of the tabular notebook: [StandardScaler] *)

Module Sklearn.
Local Open Scope R_scope.

(** A two-dimensional array: rows are samples, columns are features. *)
Definition array2 := list (list R).

(** [X[:, j]]. *)
Definition column (j : nat) (X : array2) : list R :=
  map (fun row => nth j row 0) X.

(** [X.shape[1]]. *)
Definition n_features (X : array2) : nat :=
  match X with
  | [] => 0%nat
  | row :: _ => length row
  end.

Definition Rsum (l : list R) : R := fold_right Rplus 0 l.

(** [np.mean] of a feature column. *)
Definition mean (l : list R) : R := Rsum l / INR (length l).

(** [np.var] of a feature column (population variance). *)
Definition var (l : list R) : R :=
  mean (map (fun x => (x - mean l) ^ 2) l).

(** The standard deviation [sigma] of the formula of the notebook. *)
Definition std (l : list R) : R := sqrt (var l).

(** A feature of zero spread is scaled by 1 instead of 0. *)
Definition handle_zeros_in_scale (s : R) : R :=
  if Req_dec_T s 0 then 1 else s.

(** The estimator object: [mean_] and [scale_] exist once [fit] has run. *)
Inductive StandardScaler :=
| Unfitted
| Fitted (mean_ scale_ : list R).

(** The statistics [fit] learns from an array: per-feature mean and
    standard deviation. *)
Definition fit_statistics (X : array2) : StandardScaler :=
  Fitted (map (fun j => mean (column j X)) (seq 0 (n_features X)))
         (map (fun j => handle_zeros_in_scale (std (column j X)))
              (seq 0 (n_features X))).

(** [(X - mean_) / scale_], feature by feature:
    [x' = (x - mu) / sigma]. *)
Definition standardize (mean_ scale_ : list R) (X : array2) : array2 :=
  map (imap (fun j x => (x - nth j mean_ 0) / nth j scale_ 1)) X.

(** Exceptions the cell can meet. *)
Inductive exn := NameError | NotFittedError | ValueError.

(** Calls received by the scaler object, oldest first. *)
Inductive call := CallFit (X : array2) | CallTransform (X : array2).

(** The part of the kernel namespace the cell reads and writes, with the
    record of the calls made on the scaler. *)
Record kernel := mkKernel {
  scaler : option StandardScaler;
  X_train : array2;
  X_test : array2;
  calls : list call
}.

(** Outcome of running code in the kernel: a value, or an exception; the
    namespace survives both. *)
Inductive result (A : Type) :=
| Ok (a : A) (k : kernel)
| Raised (e : exn) (k : kernel).
Arguments Ok {A} a k.
Arguments Raised {A} e k.

(** The namespace a run leaves behind. *)
Definition kernel_of {A} (r : result A) : kernel :=
  match r with
  | Ok _ k => k
  | Raised _ k => k
  end.

Definition is_transform (c : call) : bool :=
  match c with
  | CallTransform _ => true
  | CallFit _ => false
  end.

Definition M (A : Type) := kernel -> result A.

Definition ret {A} (a : A) : M A := fun k => Ok a k.

Definition bind {A B} (m : M A) (f : A -> M B) : M B :=
  fun k => match m k with
           | Ok a k' => f a k'
           | Raised e k' => Raised e k'
           end.

Definition raise {A} (e : exn) : M A := fun k => Raised e k.

Notation "'do' x <- m ; f" := (bind m (fun x => f))
  (at level 10, x name, m at level 100, f at level 200).

Definition get_X_train : M array2 := fun k => Ok (X_train k) k.
Definition get_X_test : M array2 := fun k => Ok (X_test k) k.

Definition set_X_train (X : array2) : M unit :=
  fun k => Ok tt (mkKernel (scaler k) X (X_test k) (calls k)).

Definition set_X_test (X : array2) : M unit :=
  fun k => Ok tt (mkKernel (scaler k) (X_train k) X (calls k)).

Definition set_scaler (s : StandardScaler) : M unit :=
  fun k => Ok tt (mkKernel (Some s) (X_train k) (X_test k) (calls k)).

Definition get_scaler : M StandardScaler :=
  fun k => match scaler k with
           | Some s => Ok s k
           | None => Raised NameError k
           end.

Definition record_call (c : call) : M unit :=
  fun k => Ok tt (mkKernel (scaler k) (X_train k) (X_test k) (calls k ++ [c])).

(** Input validation shared by [fit] and [transform]: at least one sample
    and one feature, and [d] features in every row. *)
Definition check_array (d : nat) (X : array2) : bool :=
  negb (Nat.eqb (length X) 0)
  && negb (Nat.eqb d 0)
  && forallb (fun row => Nat.eqb (length row) d) X.

(** [scaler.fit(X)]: the scaler object is updated in place. *)
Definition scaler_fit (X : array2) : M unit :=
  do _ <- get_scaler;
  do _ <- record_call (CallFit X);
  if check_array (n_features X) X then set_scaler (fit_statistics X)
  else raise ValueError.

(** [scaler.transform(X)]: uses the stored statistics, whatever [X] is. *)
Definition scaler_transform (X : array2) : M array2 :=
  do s <- get_scaler;
  do _ <- record_call (CallTransform X);
  match s with
  | Unfitted => raise NotFittedError
  | Fitted mean_ scale_ =>
      if check_array (length mean_) X then ret (standardize mean_ scale_ X)
      else raise ValueError
  end.

(** The cell
<<
    scaler = StandardScaler()
    scaler.fit(X_train)
    X_train = scaler.transform(X_train)
    X_test = scaler.transform(X_test)
>> *)
Definition scaling_cell : M unit :=
  do _ <- set_scaler Unfitted;
  do X <- get_X_train;
  do _ <- scaler_fit X;
  do X <- get_X_train;
  do X' <- scaler_transform X;
  do _ <- set_X_train X';
  do X <- get_X_test;
  do X' <- scaler_transform X;
  set_X_test X'.

(** The namespace when the cell starts: the two splits returned by
    [train_test_split], no scaler yet, no call made. *)
Definition before_scaling (Xtr Xte : array2) : kernel :=
  mkKernel None Xtr Xte [].

(** Two small splits of one feature, used as running example. *)
Definition toy_train : array2 := [[0]; [2]].
Definition toy_test : array2 := [[5]; [9]].

End Sklearn.

(** ** The test loader and the class-by-class evaluation cell *)

Module Evaluate.
Import Predict.
Local Open Scope Q_scope.

(** The batch sampler behind a [DataLoader] that does not shuffle: samples
    are appended to [batch] in order, a batch is emitted as soon as it holds
    [batch_size] samples, and what is left at the end is emitted too unless
    [drop_last] is set. *)
Fixpoint batch_sampler {A} (batch_size : nat) (drop_last : bool)
         (batch : list A) (samples : list A) : list (list A) :=
  match samples with
  | [] =>
      if (0 <? length batch)%nat && negb drop_last then [batch] else []
  | x :: rest =>
      let batch := batch ++ [x] in
      if (length batch =? batch_size)%nat
      then batch :: batch_sampler batch_size drop_last [] rest
      else batch_sampler batch_size drop_last batch rest
  end.

(** [testloader = DataLoader(testset, batch_size=4, shuffle=False,
    num_workers=2)], seen as the sequence of batches it yields. *)
Definition testloader {A} (testset : list A) : list (list A) :=
  batch_sampler 4 false [] testset.

(** The two lists of the cell: [class_correct] and [class_total]. *)
Record counters := mkCounters {
  class_correct : list Q;
  class_total : list Q
}.

(** [list(0. for i in range(10))], twice. *)
Definition counters_init : counters :=
  mkCounters (replicate 10 0) (replicate 10 0).

(** A one-dimensional boolean tensor after [.squeeze()]: a batch of one
    sample collapses to a zero-dimensional tensor. *)
Inductive squeezed :=
| Scalar0 (b : bool)
| Vector1 (v : list bool).

Definition squeeze (v : list bool) : squeezed :=
  match v with
  | [b] => Scalar0 b
  | _ => Vector1 v
  end.

(** [c[i]]: indexing a zero-dimensional tensor raises, like an index out of
    range. *)
Definition squeezed_item (c : squeezed) (i : nat) : option bool :=
  match c with
  | Scalar0 _ => None
  | Vector1 v => v !! i
  end.

(** [l[i] += x] on a Python list. *)
Definition add_at (l : list Q) (i : nat) (x : Q) : option (list Q) :=
  v ← l !! i;
  Some (<[i := v + x]> l).

(** A loop whose body may raise. *)
Fixpoint for_each {S A} (body : S -> A -> option S) (s : S) (l : list A)
  : option S :=
  match l with
  | [] => Some s
  | a :: rest => s' ← body s a; for_each body s' rest
  end.

(** The body of [for i in range(4)]:
<<
    label = labels[i]
    class_correct[label] += c[i].item()
    class_total[label] += 1
>> *)
Definition sample_step (labels : list nat) (c : squeezed)
           (st : counters) (i : nat) : option counters :=
  label ← labels !! i;
  ci ← squeezed_item c i;
  cc ← add_at (class_correct st) label (if ci : bool then 1 else 0);
  ct ← add_at (class_total st) label 1;
  Some (mkCounters cc ct).

(** What the counters say once the labels satisfying [seen] have been
    counted: ten entries each, a positive total for every class seen, and a
    total still equal to the initial [0.] for every other class. *)
Definition counted (seen : nat -> Prop) (st : counters) : Prop :=
  length (class_correct st) = 10%nat
  /\ length (class_total st) = 10%nat
  /\ forall i q, class_total st !! i = Some q ->
                 0 <= q /\ (seen i -> 0 < q) /\ (~ seen i -> q = 0).

Section WithNet.

(** Images are opaque; [net] gives the row of scores of one image, so that
    [net(images)] is [map net images]. *)
Context {image : Type} (net : image -> list Q).

(** The body of [for data in testloader]. *)
Definition batch_step (st : counters) (data : list (image * nat))
  : option counters :=
  let images := data.*1 in
  let labels := data.*2 in
  let outputs := map net images in
  '(_, predicted) ← torch_max_1 outputs;
  let c := squeeze (zip_with Nat.eqb predicted labels) in
  for_each (sample_step labels c) st (seq 0 4).

(** The counting loop over the whole test loader. *)
Definition class_loop (batches : list (list (image * nat)))
  : option counters :=
  for_each batch_step counters_init batches.

End WithNet.

(** ['%2d' % x] keeps the integer part of [x]. *)
Definition int_part (x : Q) : Z :=
  Z.quot (Qnum x) (Z.pos (Qden x)).

(** One line of the final report:
    [100 * class_correct[i] / class_total[i]]; dividing by a zero total
    raises. *)
Definition accuracy_line (st : counters) (i : nat) : option (string * Z) :=
  name ← classes !! i;
  cc ← class_correct st !! i;
  ct ← class_total st !! i;
  if Qeq_bool ct 0 then None
  else Some (name, int_part (100 * cc / ct)).

(** [for i in range(10): print(...)]. *)
Definition accuracy_report (st : counters) : option (list (string * Z)) :=
  mapM (accuracy_line st) (seq 0 10).

(** A test set of twenty samples, two of every class, and a network that
    answers every image with the same ten scores, used as running
    example. *)
Definition sample_net (img : nat) : list Q := replicate 10 0.
Definition sample_testset : list (nat * nat) :=
  map (fun i => (i, i mod 10)%nat) (seq 0 20).

End Evaluate.

(** ** The two notebooks as programs: cells, statements, library calls *)

Module Notebook.
Local Open Scope string_scope.

(** A literal keyword argument. *)
Inductive literal :=
| Int (n : Z)
| Bool (b : bool)
| Str (s : string)
| Other (text : string).

(** A call as written in the source: the dotted name of the callee, the
    positional arguments (source text) and the keyword arguments. *)
Record call := mkCall {
  callee : string;
  args : list string;
  kwargs : list (string * literal)
}.

(** What an expression does, in evaluation order: it makes calls, and a
    generator expression or comprehension evaluates [iter] once and [elt]
    once per item. *)
#[warnings="-register-all"] Inductive op :=
| Invoke (c : call)
| Comp (iter : list op) (elt : list op).

(** Statements of a code cell.  [Try] and [Await] are part of the language;
    whether a notebook uses them is a property of its text. *)
#[warnings="-register-all"] Inductive stmt :=
| Import (module : string)
| Magic (line : string)
| Assign (target : string) (value : list op)
| Expr (value : list op)
| Return (value : list op)
| If (test : list op) (body orelse : list stmt)
| For (target : string) (iter : list op) (body : list stmt)
| With (item : list op) (body : list stmt)
| Try (body handler : list stmt)
| Await (value : list op)
| FunctionDef (name : string) (body : list stmt)
| ClassDef (name : string) (body : list stmt).

Definition cell := list stmt.
Definition notebook := list cell.

Definition fn (f : string) (a : list string) : op := Invoke (mkCall f a []).
Definition fnk (f : string) (a : list string) (k : list (string * literal))
  : op := Invoke (mkCall f a k).

(** *** How the kernel runs a cell *)

(** What a library call does when it is made: it returns, it returns after
    issuing a warning, or it raises. *)
Inductive outcome :=
| Returns
| Warns (category : string)
| Raises (exception : string).

Record event := Called { who : call; how : outcome }.

(** The observable world: the paths of the files that exist, and the
    history of the calls made (a failure of one of the cell's own
    operations is recorded too, as a raising call with no name). *)
Record world := mkWorld {
  fs : gset string;
  events : list event
}.

(** The libraries and the run-time values, as far as the text of the
    notebooks can tell: the outcome of a call, the number of items an
    iterable yields, the truth value of a test, whether one of the cell's
    own operations (an indexing, a division, an unpacking, a name lookup)
    fails at this point, and the files left by a call whose effect is not
    known; each may depend on everything that happened before. *)
Record library := mkLibrary {
  respond : call -> list event -> outcome;
  trips : list event -> nat;
  truth : list event -> bool;
  fault : list event -> option string;
  leaves : call -> list event -> gset string
}.

Inductive result :=
| Normal (w : world)
| Raised (exception : string) (w : world).

Definition world_of (r : result) : world :=
  match r with
  | Normal w => w
  | Raised _ w => w
  end.

Definition kwarg (name : string) (c : call) : option literal :=
  snd <$> List.find (fun kv => String.eqb (fst kv) name) (kwargs c).

(** What a call produces outside the kernel, as its library documents it:
    nothing, text on the console, a drawing on a figure shown inline, or
    the files of a dataset fetched into [root].  Caches that Python or a
    library keeps for itself (byte code, font lists) are not outputs of
    the notebooks and are not counted. *)
Inductive effect :=
| Silent
| Console
| Plot
| Download (root : string).

(** The calls that print. *)
Definition printing_calls : list string :=
  [ "print" ].

(** The calls that draw on a figure: the plotting functions of
    [matplotlib.pyplot], the methods of an axes object, and the notebook's
    own [imshow], whose body is made of them. *)
Definition plotting_calls : list string :=
  [ "ax.contourf"; "ax.grid"; "ax.legend"; "ax.scatter"; "ax.set";
    "ax[idx_img][0].imshow"; "ax[idx_img][idx_filter+1].imshow"; "imshow";
    "plt.imshow"; "plt.plot"; "plt.show"; "plt.subplots"; "plt.tight_layout" ].

(** The calls that compute, build or read without producing anything
    outside the kernel: built-in functions, string formatting, array,
    tensor and estimator methods, constructors, imports, and [pd.read_csv],
    which only reads. *)
Definition silent_calls : list string :=
  [ "import"; "magic";
    "' '.join"; "'Accuracy: {:0.2f}% (+/- {:0.2f})'.format";
    "'ROC Curve (AUC: {:.3f})'.format";
    "'Size of the image batch: {}'.format";
    "'Size of the labels batch: {}'.format";
    "'Total number of trainable parameters: {}'.format"; "'\t'.join";
    "'{:0.2f}\t{:0.2f}\t{:d}\t{:d}\n'.format"; "'{}\t{}'.format";
    "(predicted == labels).squeeze"; "(predicted == labels).sum";
    "(predicted == labels).sum().item"; "F.relu"; "ListedColormap";
    "MLPClassifier"; "Net"; "StandardScaler"; "X_train[:, 0].max";
    "X_train[:, 0].min"; "X_train[:, 1].max"; "X_train[:, 1].min";
    "Z.reshape"; "c[i].item"; "clf.decision_function"; "clf.fit";
    "clf.predict_proba"; "criterion"; "cross_val_score"; "dataiter.next";
    "df.head"; "enumerate"; "hasattr";
    "image_outputs[idx_img,idx_filter,:,:].detach";
    "image_outputs[idx_img,idx_filter,:,:].detach().numpy"; "images.size";
    "images[idx_img,:,:,:].numpy"; "img.numpy"; "iter"; "labels.size";
    "le.fit"; "le.transform"; "list"; "loss.backward"; "loss.item"; "net";
    "net.children"; "net.named_parameters"; "net.parameters";
    "net_intermediate"; "net_intermediate.eval"; "nn.Conv2d";
    "nn.CrossEntropyLoss"; "nn.Linear"; "nn.MaxPool2d"; "nn.Sequential";
    "np.arange"; "np.argmax"; "np.array"; "np.linspace"; "np.meshgrid";
    "np.moveaxis"; "np.random.seed"; "np.transpose"; "np.vstack";
    "optim.SGD"; "optimizer.step"; "optimizer.zero_grad"; "os.path.join";
    "p.numel"; "param.size"; "pd.read_csv";
    "plt.rcParams['axes.prop_cycle'].by_key"; "preprocessing.LabelEncoder";
    "range"; "roc_auc_score"; "roc_curve"; "scaler.fit"; "scaler.transform";
    "scores.mean"; "scores.std"; "self.conv1"; "self.conv2"; "self.fc1";
    "self.fc2"; "self.fc3"; "self.pool"; "sum"; "super";
    "super(...).__init__"; "torch.max"; "torch.no_grad"; "torch.transpose";
    "torch.utils.data.DataLoader"; "torchvision.utils.make_grid";
    "train_test_split"; "transforms.Compose"; "transforms.Normalize";
    "transforms.ToTensor"; "x.view"; "xx.max"; "xx.min"; "xx.ravel";
    "yy.max"; "yy.min"; "yy.ravel" ].

(** The effect of a call, when it is known.  The dataset constructor
    downloads when it is given [download=True] and only reads otherwise;
    every other call is looked up by name, and a call that is in none of
    the lists has no known effect. *)
Definition effect_of (c : call) : option effect :=
  let named (l : list string) := existsb (String.eqb (callee c)) l in
  if String.eqb (callee c) "torchvision.datasets.CIFAR10" then
    match kwarg "download" c, kwarg "root" c with
    | Some (Bool true), Some (Str root) => Some (Download root)
    | Some (Bool true), _ => None
    | Some (Bool false), _ | None, _ => Some Silent
    | Some _, _ => None
    end
  else if named printing_calls then Some Console
  else if named plotting_calls then Some Plot
  else if named silent_calls then Some Silent
  else None.


(** [os.path.join(root, f)]. *)
Definition path_join (root f : string) : string :=
  if String.eqb root EmptyString then f
  else if String.eqb (substring (String.length root - 1) 1 root) "/"
       then root ++ f
       else root ++ "/" ++ f.

(** The files of the CIFAR-10 distribution, relative to the dataset root:
    the downloaded archive and the members extracted from it. *)
Definition cifar10_files : list string :=
  [ "cifar-10-python.tar.gz";
    "cifar-10-batches-py/batches.meta";
    "cifar-10-batches-py/data_batch_1";
    "cifar-10-batches-py/data_batch_2";
    "cifar-10-batches-py/data_batch_3";
    "cifar-10-batches-py/data_batch_4";
    "cifar-10-batches-py/data_batch_5";
    "cifar-10-batches-py/readme.html";
    "cifar-10-batches-py/test_batch" ].

(** The files the constructor looks for before it downloads: the five
    training batches and the test batch. *)
Definition cifar10_batches : list string :=
  [ "cifar-10-batches-py/data_batch_1";
    "cifar-10-batches-py/data_batch_2";
    "cifar-10-batches-py/data_batch_3";
    "cifar-10-batches-py/data_batch_4";
    "cifar-10-batches-py/data_batch_5";
    "cifar-10-batches-py/test_batch" ].

Definition cifar10_paths (root : string) : gset string :=
  list_to_set (path_join root <$> cifar10_files).

(** The dataset is there already: every batch file exists under [root] (a
    file that exists is taken to be intact). *)
Definition cifar10_present (root : string) (files : gset string) : bool :=
  forallb (fun f => bool_decide (path_join root f ∈ files)) cifar10_batches.

(** The files a call leaves behind when it returns.  A download fetches
    the archive and extracts it unless the dataset is there already; a
    call of unknown effect leaves what the library says. *)
Definition writes (L : library) (c : call) (w : world) : gset string :=
  match effect_of c with
  | Some (Download root) =>
      if cifar10_present root (fs w) then ∅ else cifar10_paths root
  | Some _ => ∅
  | None => leaves L c (events w)
  end.

(** The files a call leaves behind when it raises: an interrupted download
    may have left some of its files. *)
Definition leftovers (L : library) (c : call) (w : world) : gset string :=
  match effect_of c with
  | Some (Download root) =>
      if cifar10_present root (fs w) then ∅
      else leaves L c (events w) ∩ cifar10_paths root
  | Some _ => ∅
  | None => leaves L c (events w)
  end.

(** Making a call.  A warning goes through [warnings.warn]: neither
    notebook touches the warning filters, so it is reported and the call
    returns.  An exception leaves the call. *)
Definition perform (L : library) (c : call) (w : world) : result :=
  let o := respond L c (events w) in
  let log := (events w ++ [Called c o])%list in
  match o with
  | Returns | Warns _ => Normal (mkWorld (fs w ∪ writes L c w) log)
  | Raises e => Raised e (mkWorld (fs w ∪ leftovers L c w) log)
  end.


(** The cell's own operations, between two calls: when one of them fails,
    the exception is recorded as raised by a call with no name. *)
Definition own_operation : call := mkCall EmptyString [] [].

Definition check (L : library) (w : world) : result :=
  match fault L (events w) with
  | Some e =>
      Raised e (mkWorld (fs w)
                        (events w ++ [Called own_operation (Raises e)])%list)
  | None => Normal w
  end.

Section Sequencing.
Context {A : Type} (run : A -> world -> result).

(** Run the elements of a list in order; an exception ends the run. *)
Fixpoint seq_all (l : list A) (w : world) : result :=
  match l with
  | [] => Normal w
  | a :: rest =>
      match run a w with
      | Normal w' => seq_all rest w'
      | Raised e w' => Raised e w'
      end
  end.

End Sequencing.

(** Run a loop body [n] times; an exception ends the loop. *)
Fixpoint repeat_body (n : nat) (body : world -> result) (w : world) : result :=
  match n with
  | O => Normal w
  | S n' =>
      match body w with
      | Normal w' => repeat_body n' body w'
      | Raised e w' => Raised e w'
      end
  end.

Definition and_then (r : result) (k : world -> result) : result :=
  match r with
  | Normal w => k w
  | Raised e w => Raised e w
  end.

(** A call is made once the operations that prepare it (its arguments,
    the lookup of its name) have gone through. *)
Fixpoint eval_op (L : library) (o : op) (w : world) : result :=
  match o with
  | Invoke c => and_then (check L w) (perform L c)
  | Comp iter elt =>
      and_then (seq_all (eval_op L) iter w)
        (fun w' => repeat_body (trips L (events w')) (seq_all (eval_op L) elt) w')
  end.

(** The calls of an expression in order, then what the expression does
    with their results. *)
Definition eval (L : library) (os : list op) (w : world) : result :=
  and_then (seq_all (eval_op L) os w) (check L).

Definition import_call (module : string) : call := mkCall "import" [module] [].
Definition magic_call (line : string) : call := mkCall "magic" [line] [].

(** Statement by statement.  A definition only binds a name; a handler runs
    when, and only when, the body of its [try] raised. *)
Fixpoint exec (L : library) (s : stmt) (w : world) : result :=
  match s with
  | Import m => perform L (import_call m) w
  | Magic l => perform L (magic_call l) w
  | Assign _ v | Expr v | Return v | Await v => eval L v w
  | If test body orelse =>
      and_then (eval L test w)
        (fun w' => if truth L (events w')
                   then seq_all (exec L) body w'
                   else seq_all (exec L) orelse w')
  | For _ iter body =>
      and_then (eval L iter w)
        (fun w' => repeat_body (trips L (events w')) (seq_all (exec L) body) w')
  | With item body =>
      and_then (eval L item w) (seq_all (exec L) body)
  | Try body handler =>
      match seq_all (exec L) body w with
      | Normal w' => Normal w'
      | Raised _ w' => seq_all (exec L) handler w'
      end
  | FunctionDef _ _ | ClassDef _ _ => Normal w
  end.

(** Running one cell, and running the cells of a notebook from top to
    bottom (the run stops at the first cell that raises). *)
Definition run_cell (L : library) : cell -> world -> result :=
  seq_all (exec L).

Definition run_notebook (L : library) : notebook -> world -> result :=
  seq_all (run_cell L).

(** *** What can be read off the text *)

Fixpoint op_calls (o : op) : list call :=
  match o with
  | Invoke c => [c]
  | Comp iter elt => (flat_map op_calls iter ++ flat_map op_calls elt)%list
  end.

Definition ops_calls (os : list op) : list call := flat_map op_calls os.

(** Every call a statement contains, bodies of definitions included. *)
Fixpoint stmt_calls (s : stmt) : list call :=
  match s with
  | Import m => [import_call m]
  | Magic l => [magic_call l]
  | Assign _ v | Expr v | Return v | Await v => ops_calls v
  | If test body orelse =>
      (ops_calls test ++ flat_map stmt_calls body
       ++ flat_map stmt_calls orelse)%list
  | For _ iter body => (ops_calls iter ++ flat_map stmt_calls body)%list
  | With item body => (ops_calls item ++ flat_map stmt_calls body)%list
  | Try body handler =>
      (flat_map stmt_calls body ++ flat_map stmt_calls handler)%list
  | FunctionDef _ body | ClassDef _ body => flat_map stmt_calls body
  end.

Definition cell_calls (c : cell) : list call := flat_map stmt_calls c.

(** No [try] anywhere in the statement. *)
Fixpoint handler_free (s : stmt) : bool :=
  match s with
  | Try _ _ => false
  | If _ body orelse => forallb handler_free body && forallb handler_free orelse
  | For _ _ body | With _ body | FunctionDef _ body | ClassDef _ body =>
      forallb handler_free body
  | _ => true
  end.

Definition is_raise (ev : event) : bool :=
  match how ev with
  | Raises _ => true
  | _ => false
  end.

Definition is_warning (ev : event) : bool :=
  match how ev with
  | Warns _ => true
  | _ => false
  end.

(** No exception among the events. *)
Definition quiet (evs : list event) : Prop :=
  Forall (fun ev => is_raise ev = false) evs.

(** A run from [w] lets exceptions through: the history only grows; a run
    that ends normally met no exception; a run that ends with exception [e]
    stopped at the call that raised [e], the first and only one to raise. *)
Definition propagates (w : world) (r : result) : Prop :=
  exists new,
    events (world_of r) = (events w ++ new)%list
    /\ match r with
       | Normal _ => quiet new
       | Raised e _ =>
           exists pre c, new = (pre ++ [Called c (Raises e)])%list /\ quiet pre
       end.

(** A world with no file and no history. *)
Definition empty_world : world := mkWorld ∅ [].

(** Libraries in which every call returns, every iterable yields one item,
    every test holds and no operation of the cell fails. *)
Definition returning : library :=
  mkLibrary (fun _ _ => Returns) (fun _ => 1%nat) (fun _ => true)
            (fun _ => None) (fun _ _ => ∅).

(** The same, except that fitting the classifier reports that the
    optimizer has not converged. *)
Definition not_converging : library :=
  mkLibrary (fun c _ => if String.eqb (callee c) "clf.fit"
                        then Warns "ConvergenceWarning" else Returns)
            (fun _ => 1%nat) (fun _ => true) (fun _ => None) (fun _ _ => ∅).

(** The same, except that reading the table fails. *)
Definition missing_csv : library :=
  mkLibrary (fun c _ => if String.eqb (callee c) "pd.read_csv"
                        then Raises "FileNotFoundError" else Returns)
            (fun _ => 1%nat) (fun _ => true) (fun _ => None) (fun _ _ => ∅).

End Notebook.

(** ** The text of the two notebooks *)

Module Source.
Import Notebook.
Local Open Scope string_scope.

(** *** The tabular notebook (multilayer perceptron, scikit-learn) *)

Definition tabular_imports : cell :=
  [ Import "matplotlib.pyplot";
    Import "matplotlib.colors";
    Import "numpy";
    Import "pandas";
    Import "os";
    Import "sklearn";
    Import "sklearn.preprocessing";
    Import "sklearn.model_selection";
    Import "sklearn.neural_network";
    Import "sklearn.metrics";
    Magic "%matplotlib inline";
    Assign "FIGSIZE" [];
    Assign "FIGDPI" [];
    Assign "NPTS" [];
    Assign "cmap" [fn "plt.rcParams['axes.prop_cycle'].by_key" []];
    Expr [fn "np.random.seed" ["100"]] ].

Definition tabular_load : cell :=
  [ Assign "DATAPATH" [fn "os.path.join" ["'data.csv'"]];
    Assign "df" [fn "pd.read_csv" ["DATAPATH"]];
    Expr [fn "df.head" []] ].

Definition tabular_features : cell :=
  [ Assign "X1" [fn "np.array" ["df.texture_mean"]];
    Assign "X2" [fn "np.array" ["df.radius_mean"]];
    Assign "X" [fn "np.vstack" ["(X1, X2)"]; fn "np.transpose" ["np.vstack(...)"]] ].

Definition tabular_labels : cell :=
  [ Assign "le" [fn "preprocessing.LabelEncoder" []];
    Expr [fn "le.fit" ["['B', 'M']"]];
    Assign "y" [fn "le.transform" ["df.diagnosis"]] ].

Definition tabular_split : cell :=
  [ Assign "X_train, X_test, y_train, y_test"
      [fnk "train_test_split" ["X"; "y"] [("test_size", Other ".3")]] ].

Definition tabular_scale : cell :=
  [ Assign "scaler" [fn "StandardScaler" []];
    Expr [fn "scaler.fit" ["X_train"]];
    Assign "X_train" [fn "scaler.transform" ["X_train"]];
    Assign "X_test" [fn "scaler.transform" ["X_test"]] ].

Definition tabular_classifier : cell :=
  [ Assign "clf"
      [fnk "MLPClassifier" []
           [("solver", Str "sgd"); ("alpha", Other "1e-5");
            ("max_iter", Int 2000); ("hidden_layer_sizes", Other "(4)");
            ("random_state", Int 1)]] ].

Definition tabular_fit : cell :=
  [ Expr [fn "clf.fit" ["X_train"; "y_train"]] ].

Definition tabular_scores : cell :=
  [ Assign "scores"
      [fnk "cross_val_score" ["clf"; "X_train"; "y_train"] [("cv", Int 3)]];
    Expr [fn "scores.mean" []; fn "scores.std" [];
          fn "'Accuracy: {:0.2f}% (+/- {:0.2f})'.format"
             ["scores.mean()"; "scores.std() * 2"];
          fn "print" ["'...'.format(...)"]] ].

Definition tabular_predict : cell :=
  [ Assign "x_predict" [fn "clf.predict_proba" ["X_test"]] ].

Definition tabular_print : cell :=
  [ Expr [fn "print" ["'P1\tP2\tPc\tLabel\n'"]];
    For "i" [fn "range" ["10"]]
      [ Expr [fn "np.argmax" ["x_predict[i,:]"];
              fn "'{:0.2f}\t{:0.2f}\t{:d}\t{:d}\n'.format"
                 ["x_predict[i,0]"; "x_predict[i,1]"; "np.argmax(...)";
                  "y_test[i]"];
              fn "print" ["'...'.format(...)"]] ] ].

Definition tabular_roc : cell :=
  [ Assign "fpr, tpr, thresholds" [fn "roc_curve" ["y_test"; "x_predict[:,1]"]];
    Assign "auc" [fn "roc_auc_score" ["y_test"; "x_predict[:,1]"]] ].

Definition tabular_roc_plot : cell :=
  [ Assign "f, ax" [fnk "plt.subplots" [] [("figsize", Other "(6,6)")]];
    Expr [fnk "plt.plot" ["fpr"; "tpr"]
              [("color", Other "cmap[0]"); ("label", Str "ROC Curve")]];
    Expr [fn "np.linspace" ["0"; "1"]; fn "np.linspace" ["0"; "1"];
          fnk "plt.plot" ["np.linspace(...)"; "np.linspace(...)"]
              [("color", Other "cmap[1]"); ("label", Str "0.5")]];
    Expr [fnk "ax.legend" []
              [("frameon", Bool true); ("loc", Str "upper left")]];
    Expr [fn "'ROC Curve (AUC: {:.3f})'.format" ["auc"];
          fnk "ax.set" []
              [("xlabel", Str "False Positive Rate");
               ("ylabel", Str "True Positive Rate");
               ("title", Other "'...'.format(auc)")]];
    Expr [fnk "ax.grid" [] [("linestyle", Str ":")]];
    Expr [fn "plt.tight_layout" []];
    Expr [fn "plt.show" []] ].

Definition tabular_landscape : cell :=
  [ Assign "h" [];
    Assign "cm" [];
    Assign "cm_bright" [fn "ListedColormap" ["['#FF0000', '#0000FF']"]];
    Assign "x_min, x_max" [fn "X_train[:, 0].min" []; fn "X_train[:, 0].max" []];
    Assign "y_min, y_max" [fn "X_train[:, 1].min" []; fn "X_train[:, 1].max" []];
    Assign "xx, yy"
      [fn "np.arange" ["x_min"; "x_max"; "h"];
       fn "np.arange" ["y_min"; "y_max"; "h"];
       fn "np.meshgrid" ["np.arange(...)"; "np.arange(...)"]];
    If [fn "hasattr" ["clf"; "'decision_function'"]]
       [ Assign "Z" [fn "xx.ravel" []; fn "yy.ravel" [];
                     fn "clf.decision_function" ["np.c_[...]"]] ]
       [ Assign "Z" [fn "xx.ravel" []; fn "yy.ravel" [];
                     fn "clf.predict_proba" ["np.c_[...]"]] ];
    Assign "f, ax" [fnk "plt.subplots" [] [("figsize", Other "FIGSIZE")]];
    Assign "Z" [fn "Z.reshape" ["xx.shape"]];
    Expr [fnk "ax.contourf" ["xx"; "yy"; "Z"]
              [("cmap", Other "cm"); ("alpha", Other ".8")]];
    Expr [fnk "ax.scatter" ["X_train[y_train==0,0]"; "X_train[y_train==0,1]"]
              [("edgecolors", Str "black"); ("s", Int 80);
               ("alpha", Other ".8"); ("label", Str "Benign")]];
    Expr [fnk "ax.scatter" ["X_train[y_train==1,0]"; "X_train[y_train==1,1]"]
              [("edgecolors", Str "black"); ("s", Int 80);
               ("alpha", Other ".8"); ("label", Str "Malignant")]];
    Expr [fnk "ax.legend" []
              [("frameon", Bool true); ("loc", Str "upper left")]];
    Expr [fn "xx.min" []; fn "xx.max" []; fn "yy.min" []; fn "yy.max" [];
          fnk "ax.set" []
              [("xlabel", Str "Texture Mean");
               ("ylabel", Str "Radius Mean");
               ("xlim", Other "(xx.min(), xx.max())");
               ("ylim", Other "(yy.min(), yy.max())");
               ("title", Str "Neural Network Classification Landscape")]];
    Expr [fnk "ax.grid" [] [("linestyle", Str ":")]] ].

(** The code cells of the tabular notebook, top to bottom. *)
Definition tabular : notebook :=
  [ tabular_imports; tabular_load; tabular_features; tabular_labels;
    tabular_split; tabular_scale; tabular_classifier; tabular_fit;
    tabular_scores; tabular_predict; tabular_print; tabular_roc;
    tabular_roc_plot; tabular_landscape ].

(** *** The CNN notebook (CIFAR-10, PyTorch) *)

Definition cnn_imports : cell :=
  [ Import "torch";
    Import "torch.nn";
    Import "torch.nn.functional";
    Import "torch.optim";
    Import "torchvision";
    Import "torchvision.transforms";
    Import "matplotlib.pyplot";
    Import "numpy" ].

Definition cnn_net : cell :=
  [ ClassDef "Net"
      [ FunctionDef "__init__"
          [ Expr [fn "super" ["Net"; "self"]; fn "super(...).__init__" []];
            Assign "self.conv1" [fn "nn.Conv2d" ["3"; "6"; "5"]];
            Assign "self.pool" [fn "nn.MaxPool2d" ["2"; "2"]];
            Assign "self.conv2" [fn "nn.Conv2d" ["6"; "16"; "5"]];
            Assign "self.fc1" [fn "nn.Linear" ["16 * 5 * 5"; "120"]];
            Assign "self.fc2" [fn "nn.Linear" ["120"; "84"]];
            Assign "self.fc3" [fn "nn.Linear" ["84"; "10"]] ];
        FunctionDef "forward"
          [ Assign "x" [fn "self.conv1" ["x"]; fn "F.relu" ["self.conv1(x)"];
                        fn "self.pool" ["F.relu(...)"]];
            Assign "x" [fn "self.conv2" ["x"]; fn "F.relu" ["self.conv2(x)"];
                        fn "self.pool" ["F.relu(...)"]];
            Assign "x" [fn "x.view" ["-1"; "16 * 5 * 5"]];
            Assign "x" [fn "self.fc1" ["x"]; fn "F.relu" ["self.fc1(x)"]];
            Assign "x" [fn "self.fc2" ["x"]; fn "F.relu" ["self.fc2(x)"]];
            Assign "x" [fn "self.fc3" ["x"]];
            Return [] ] ];
    Assign "net" [fn "Net" []] ].

Definition cnn_parameter_sizes : cell :=
  [ Expr [fn "print" ["'Name:\t\tParameters Size:'"]];
    Expr [fn "print" ["'-----\t\t----------------'"]];
    For "name, param" [fn "net.named_parameters" []]
      [ Expr [fn "param.size" []; fn "np.array" ["param.size()"];
              fn "'{}\t{}'.format" ["name"; "np.array(...)"];
              fn "print" ["'...'.format(...)"]] ] ].

Definition cnn_hand_written_sum : cell :=
  [ Expr [] ].

Definition cnn_parameter_count : cell :=
  [ Expr [Comp [fn "net.parameters" []] [fn "p.numel" []];
          fn "sum" ["(p.numel() for p in net.parameters() if p.requires_grad)"];
          fn "'Total number of trainable parameters: {}'.format" ["sum(...)"];
          fn "print" ["'...'.format(...)"]] ].

Definition cnn_parameter_values : cell :=
  [ For "param" [Comp [fn "net.parameters" []] []]
      [ Expr [fn "print" ["param"]] ] ].

Definition cnn_transform : cell :=
  [ Assign "transform"
      [fn "transforms.ToTensor" [];
       fn "transforms.Normalize" ["(0.5, 0.5, 0.5)"; "(0.5, 0.5, 0.5)"];
       fn "transforms.Compose" ["[transforms.ToTensor(), transforms.Normalize(...)]"]] ].

Definition cnn_datasets : cell :=
  [ Assign "trainset"
      [fnk "torchvision.datasets.CIFAR10" []
           [("root", Str "./"); ("train", Bool true); ("download", Bool true);
            ("transform", Other "transform")]];
    Assign "trainloader"
      [fnk "torch.utils.data.DataLoader" ["trainset"]
           [("batch_size", Int 4); ("shuffle", Bool true);
            ("num_workers", Int 2)]];
    Assign "testset"
      [fnk "torchvision.datasets.CIFAR10" []
           [("root", Str "./"); ("train", Bool false); ("download", Bool true);
            ("transform", Other "transform")]];
    Assign "testloader"
      [fnk "torch.utils.data.DataLoader" ["testset"]
           [("batch_size", Int 4); ("shuffle", Bool false);
            ("num_workers", Int 2)]];
    Assign "classes" [] ].

Definition cnn_imshow : cell :=
  [ FunctionDef "imshow"
      [ Assign "img" [];
        Assign "npimg" [fn "img.numpy" []];
        Expr [fn "np.transpose" ["npimg"; "(1, 2, 0)"];
              fn "plt.imshow" ["np.transpose(...)"]];
        Expr [fn "plt.show" []] ] ].

Definition cnn_first_batch : cell :=
  [ Assign "dataiter" [fn "iter" ["trainloader"]];
    Assign "images, labels" [fn "dataiter.next" []];
    Expr [fn "images.size" [];
          fn "'Size of the image batch: {}'.format" ["images.size()"];
          fn "print" ["'...'.format(...)"]];
    Expr [fn "labels.size" [];
          fn "'Size of the labels batch: {}'.format" ["labels.size()"];
          fn "print" ["'...'.format(...)"]] ].

Definition cnn_show_batch : cell :=
  [ Expr [fnk "torchvision.utils.make_grid" ["images"] [("pad_value", Int 1)];
          fn "imshow" ["torchvision.utils.make_grid(...)"]];
    Expr [Comp [fn "range" ["4"]] [];
          fn "' '.join" ["('%5s' % classes[labels[j]] for j in range(4))"];
          fn "print" ["' '.join(...)"]] ].

Definition cnn_criterion : cell :=
  [ Assign "criterion" [fn "nn.CrossEntropyLoss" []] ].

Definition cnn_optimizer : cell :=
  [ Assign "optimizer"
      [fn "net.parameters" [];
       fnk "optim.SGD" ["net.parameters()"]
           [("lr", Other "0.001"); ("momentum", Other "0.9")]] ].

Definition cnn_training : cell :=
  [ For "epoch" [fn "range" ["2"]]
      [ Assign "running_loss" [];
        For "i, data" [fn "enumerate" ["trainloader"; "0"]]
          [ Assign "inputs, labels" [];
            Expr [fn "optimizer.zero_grad" []];
            Assign "outputs" [fn "net" ["inputs"]];
            Assign "loss" [fn "criterion" ["outputs"; "labels"]];
            Expr [fn "loss.backward" []];
            Expr [fn "optimizer.step" []];
            Assign "running_loss" [fn "loss.item" []];
            If []
               [ Expr [fn "print" ["'[%d, %5d] loss: %.3f' % (...)"]];
                 Assign "running_loss" [] ]
               [] ] ];
    Expr [fn "print" ["'Finished Training'"]] ].

Definition cnn_test_batch : cell :=
  [ Assign "dataiter" [fn "iter" ["testloader"]];
    Assign "images, labels" [fn "dataiter.next" []];
    Expr [fn "torchvision.utils.make_grid" ["images"];
          fn "imshow" ["torchvision.utils.make_grid(...)"]];
    Expr [Comp [fn "range" ["4"]] [];
          fn "' '.join" ["('%5s' % classes[labels[j]] for j in range(4))"];
          fn "print" ["'GroundTruth: '"; "' '.join(...)"]] ].

Definition cnn_outputs : cell :=
  [ Assign "outputs" [fn "net" ["images"]];
    Expr [fn "print" ["'Raw network output:'"]];
    Expr [fn "torch.transpose" ["outputs"; "1"; "0"];
          fn "print" ["torch.transpose(...)"]] ].

Definition cnn_predicted : cell :=
  [ Assign "_, predicted" [fn "torch.max" ["outputs"; "1"]];
    Expr [Comp [fn "range" ["4"]] [];
          fn "'\t'.join" ["('%5s' % classes[labels[j]] for j in range(4))"];
          fn "print" ["'Ground Truth:\t'"; "'\t'.join(...)"]];
    Expr [Comp [fn "range" ["4"]] [];
          fn "'\t'.join" ["('%5s' % classes[predicted[j]] for j in range(4))"];
          fn "print" ["'Predict:\t'"; "'\t'.join(...)"]] ].

Definition cnn_accuracy : cell :=
  [ Assign "correct" [];
    Assign "total" [];
    With [fn "torch.no_grad" []]
      [ For "data" []
          [ Assign "images, labels" [];
            Assign "outputs" [fn "net" ["images"]];
            Assign "_, predicted" [fn "torch.max" ["outputs.data"; "1"]];
            Assign "total" [fn "labels.size" ["0"]];
            Assign "correct" [fn "(predicted == labels).sum" [];
                              fn "(predicted == labels).sum().item" []] ] ];
    Expr [fn "print"
             ["'Accuracy of the network on the 10000 test images: %d %%' % (...)"]] ].

Definition cnn_class_accuracy : cell :=
  [ Assign "class_correct"
      [Comp [fn "range" ["10"]] []; fn "list" ["(0. for i in range(10))"]];
    Assign "class_total"
      [Comp [fn "range" ["10"]] []; fn "list" ["(0. for i in range(10))"]];
    With [fn "torch.no_grad" []]
      [ For "data" []
          [ Assign "images, labels" [];
            Assign "outputs" [fn "net" ["images"]];
            Assign "_, predicted" [fn "torch.max" ["outputs"; "1"]];
            Assign "c" [fn "(predicted == labels).squeeze" []];
            For "i" [fn "range" ["4"]]
              [ Assign "label" [];
                Assign "class_correct[label]" [fn "c[i].item" []];
                Assign "class_total[label]" [] ] ] ];
    For "i" [fn "range" ["10"]]
      [ Expr [fn "print" ["'Accuracy of %5s : %2d %%' % (...)"]] ] ].

Definition cnn_intermediate : cell :=
  [ Assign "net_intermediate"
      [fn "net.children" []; fn "list" ["net.children()"];
       fn "nn.Sequential" ["*list(...)[0:1]"]];
    Expr [fn "net_intermediate.eval" []] ].

Definition cnn_intermediate_batch : cell :=
  [ Assign "dataiter" [fn "iter" ["testloader"]];
    Assign "images, labels" [fn "dataiter.next" []];
    Expr [fn "torchvision.utils.make_grid" ["images"];
          fn "imshow" ["torchvision.utils.make_grid(...)"]];
    Expr [Comp [fn "range" ["4"]] [];
          fn "' '.join" ["('%5s' % classes[labels[j]] for j in range(4))"];
          fn "print" ["'GroundTruth: '"; "' '.join(...)"]] ].

Definition cnn_filter_outputs : cell :=
  [ Assign "image_outputs" [fn "net_intermediate" ["images"]];
    Assign "nImages, nFilters, height, width" [];
    Assign "f, ax"
      [fnk "plt.subplots" ["nImages"; "nFilters+1"]
           [("figsize", Other "(25,12)")]];
    For "idx_img" [fn "range" ["nImages"]]
      [ Expr [fn "images[idx_img,:,:,:].numpy" [];
              fn "np.moveaxis" ["images[idx_img,:,:,:].numpy()"; "0"; "-1"];
              fn "ax[idx_img][0].imshow" ["np.moveaxis(...)"]];
        For "idx_filter" [fn "range" ["nFilters"]]
          [ Expr [fn "image_outputs[idx_img,idx_filter,:,:].detach" [];
                  fn "image_outputs[idx_img,idx_filter,:,:].detach().numpy" [];
                  fnk "ax[idx_img][idx_filter+1].imshow"
                      ["image_outputs[...].detach().numpy()"]
                      [("cmap", Other "plt.cm.gray")]] ] ] ].


Definition testset_call : call :=
  mkCall "torchvision.datasets.CIFAR10" []
         [("root", Str "./"); ("train", Bool false); ("download", Bool true);
          ("transform", Other "transform")].

(** The code cells of the CNN notebook, top to bottom. *)
Definition cnn : notebook :=
  [ cnn_imports; cnn_net; cnn_parameter_sizes; cnn_hand_written_sum;
    cnn_parameter_count; cnn_parameter_values; cnn_transform; cnn_datasets;
    cnn_imshow; cnn_first_batch; cnn_show_batch; cnn_criterion;
    cnn_optimizer; cnn_training; cnn_test_batch; cnn_outputs; cnn_predicted;
    cnn_accuracy; cnn_class_accuracy; cnn_intermediate;
    cnn_intermediate_batch; cnn_filter_outputs ].

End Source.

(** ** [Net.forward] on inputs of any size *)

Module AnyShape.
Local Open Scope N_scope.

(** Side of the feature map that reaches [x.view] for an input side [h]:
    [conv1] takes 4 off, the pooling halves, [conv2] takes 4 off, the
    pooling halves again. *)
Definition feature_side (h : N) : N := ((h - 4) / 2 - 4) / 2.

(** Number of values one image contributes to the [view]. *)
Definition features_per_image (h w : N) : N :=
  16 * (feature_side h * feature_side w).

End AnyShape.

(** ** The overall accuracy cell, and what the two evaluation cells count *)

Module Accuracy.
Import Predict Evaluate.
Local Open Scope Q_scope.

(** The two counters of the cell: [correct] and [total], Python integers. *)
Record tally := mkTally {
  correct : Z;
  total : Z
}.

(** [v.sum().item()] on a boolean tensor. *)
Definition count_true (v : list bool) : nat :=
  length (filter (fun b => b = true) v).

Section WithNet.
Context {image : Type} (net : image -> list Q).

(** The body of [for data in testloader] in the accuracy cell:
<<
    images, labels = data
    outputs = net(images)
    _, predicted = torch.max(outputs.data, 1)
    total += labels.size(0)
    correct += (predicted == labels).sum().item()
>> *)
Definition accuracy_step (st : tally) (data : list (image * nat))
  : option tally :=
  let images := data.*1 in
  let labels := data.*2 in
  let outputs := map net images in
  '(_, predicted) ← torch_max_1 outputs;
  let total := (total st + Z.of_nat (length labels))%Z in
  let correct :=
    (correct st
     + Z.of_nat (count_true (zip_with Nat.eqb predicted labels)))%Z in
  Some (mkTally correct total).

(** [correct = 0], [total = 0], then the loop over the loader. *)
Definition accuracy_loop (batches : list (list (image * nat)))
  : option tally :=
  for_each accuracy_step (mkTally 0 0) batches.

(** A sample the network gets right: the index [torch.max] picks for its
    scores is its label. *)
Definition hit (s : image * nat) : Prop := argmax (net s.1) = Some s.2.

#[global] Instance hit_dec (s : image * nat) : Decision (hit s) :=
  decide (argmax (net s.1) = Some s.2).

(** Number of samples the network gets right. *)
Definition hits (samples : list (image * nat)) : nat :=
  length (filter hit samples).

(** Number of samples of class [i], and how many of them the network gets
    right. *)
Definition class_size (i : nat) (samples : list (image * nat)) : nat :=
  length (filter (fun s => s.2 = i) samples).

Definition class_hits (i : nat) (samples : list (image * nat)) : nat :=
  length (filter (fun s => s.2 = i /\ hit s) samples).

(** What the lists of the class-by-class cell hold once the samples
    [processed] have been counted. *)
Definition tallied (processed : list (image * nat)) (st : counters) : Prop :=
  length (class_correct st) = 10%nat
  /\ length (class_total st) = 10%nat
  /\ forall i, (i < 10)%nat ->
        class_total st !! i
        = Some (inject_Z (Z.of_nat (class_size i processed)))
        /\ class_correct st !! i
           = Some (inject_Z (Z.of_nat (class_hits i processed))).

End WithNet.

(** ['... %d %%' % (100 * correct / total)]: the division raises on a zero
    total. *)
Definition accuracy_percent (st : tally) : option Z :=
  if (total st =? 0)%Z then None
  else Some (int_part (inject_Z (100 * correct st) / inject_Z (total st))).

End Accuracy.

(** ** Looking at one batch: [iter], [next] and the printed labels *)

Module FirstBatch.
Import Predict Evaluate.

(** [dataiter = iter(loader)] followed by [dataiter.next()]: the first batch
    of the loader; an exhausted iterator raises. *)
Definition next {A} (batches : list (list A)) : option (list A) :=
  head batches.

(** [classes[labels[j]] for j in range(4)]: the names joined and printed
    after [GroundTruth:]. *)
Definition label_names (labels : list nat) : option (list string) :=
  mapM (fun j => k ← labels !! j; classes !! k) (seq 0 4).

(** The cell
<<
    dataiter = iter(testloader)
    images, labels = dataiter.next()
    ...
    print('GroundTruth: ', ' '.join('%5s' % classes[labels[j]] for j in range(4)))
>>
    as far as the printed names go. *)
Definition test_batch_cell {image} (testset : list (image * nat))
  : option (list string) :=
  data ← next (testloader testset);
  label_names data.*2.

End FirstBatch.

(** ** The training cell: when the running loss is printed *)

Module Training.
Local Open Scope Q_scope.

(** One line printed by the training cell: [epoch + 1], [i + 1] and
    [running_loss / 2000]. *)
Record report := mkReport {
  at_epoch : nat;
  at_batch : nat;
  mean_loss : Q
}.

(** The inner loop [for i, data in enumerate(trainloader, 0)], as far as
    the printed lines go; [losses] lists the values [loss.item()] of the
    successive batches:
<<
    running_loss += loss.item()
    if i % 2000 == 1999:
        print('[%d, %5d] loss: %.3f' % (epoch + 1, i + 1, running_loss / 2000))
        running_loss = 0.0
>> *)
Fixpoint epoch_loop (epoch i : nat) (running_loss : Q) (losses : list Q)
  : list report :=
  match losses with
  | [] => []
  | loss :: rest =>
      let running_loss := running_loss + loss in
      if (i mod 2000 =? 1999)%nat
      then mkReport (epoch + 1) (i + 1) (running_loss / 2000)
           :: epoch_loop epoch (S i) 0 rest
      else epoch_loop epoch (S i) running_loss rest
  end.

(** [for epoch in range(2)]: [running_loss = 0.0], then the inner loop over
    the losses of that epoch. *)
Definition training (losses : nat -> list Q) : list report :=
  flat_map (fun epoch => epoch_loop epoch 0 0 (losses epoch)) (seq 0 2).

(** The running sum of a group of losses, accumulated from [0.0] in batch
    order. *)
Definition running_sum (group : list Q) : Q := fold_left Qplus group 0.

End Training.

(** ** The filter-visualisation cells: the intermediate network and the
    grid of plots *)

Module Filters.
Import Torch.

(** A sub-module of [Net]. *)
Inductive layer :=
| LConv (c : Conv2d)
| LPool (p : MaxPool2d)
| LLinear (l : Linear).

(** [net.children()]: the sub-modules in the order [__init__] assigned
    them. *)
Definition children (self : Net) : list layer :=
  [ LConv (conv1 self); LPool (pool self); LConv (conv2 self);
    LLinear (fc1 self); LLinear (fc2 self); LLinear (fc3 self) ].

Definition layer_forward (l : layer) (x : shape) : option shape :=
  match l with
  | LConv c => Conv2d_forward c x
  | LPool p => MaxPool2d_forward p x
  | LLinear l => Linear_forward l x
  end.

(** [nn.Sequential] applied to an input: the layers one after the
    other. *)
Fixpoint Sequential_forward (layers : list layer) (x : shape) : option shape :=
  match layers with
  | [] => Some x
  | l :: rest => y ← layer_forward l x; Sequential_forward rest y
  end.

(** [l[a:b]] on a list, for [0 <= a <= b]. *)
Definition slice {A} (a b : nat) (l : list A) : list A :=
  take (b - a) (drop a l).

(** [net_intermediate]: an [nn.Sequential] of the slice [[0:1]] of the
    list of [net.children()]. *)
Definition net_intermediate : list layer := slice 0 1 (children net).

(** What [plt.subplots(nrows, ncols)] returns for the axes: one object, a
    one-dimensional array when there is a single row or a single column,
    a two-dimensional array otherwise. *)
Inductive axes :=
| OneAxes
| AxesRow (n : nat)
| AxesGrid (rows cols : nat).

Definition subplots (nrows ncols : nat) : option axes :=
  if (nrows =? 0)%nat || (ncols =? 0)%nat then None
  else if (nrows =? 1)%nat && (ncols =? 1)%nat then Some OneAxes
  else if (nrows =? 1)%nat then Some (AxesRow ncols)
  else if (ncols =? 1)%nat then Some (AxesRow nrows)
  else Some (AxesGrid nrows ncols).

(** [ax[i][j]]: only a two-dimensional array can be indexed twice. *)
Definition axes_item (ax : axes) (i j : nat) : option (nat * nat) :=
  match ax with
  | AxesGrid rows cols =>
      if (i <? rows)%nat && (j <? cols)%nat then Some (i, j) else None
  | _ => None
  end.

(** The plotting loops
<<
    for idx_img in range(nImages):
        ax[idx_img][0].imshow(...)
        for idx_filter in range(nFilters):
            ax[idx_img][idx_filter+1].imshow(...)
>>
    as the list of grid positions drawn into, in order. *)
Definition draw_row (ax : axes) (nFilters idx_img : nat)
  : option (list (nat * nat)) :=
  first ← axes_item ax idx_img 0;
  others ← mapM (fun idx_filter => axes_item ax idx_img (idx_filter + 1))
                (seq 0 nFilters);
  Some (first :: others).

Definition draw_all (ax : axes) (nImages nFilters : nat)
  : option (list (nat * nat)) :=
  rows ← mapM (draw_row ax nFilters) (seq 0 nImages);
  Some (concat rows).

(** The last cell: the shape of [image_outputs] and the positions drawn
    into.
<<
    image_outputs = net_intermediate(images)
    nImages, nFilters, height, width = image_outputs.shape
    f, ax = plt.subplots(nImages, nFilters+1, figsize=(25,12))
>>
    followed by the loops. *)
Definition filter_cell (images : shape) : option (shape * list (nat * nat)) :=
  image_outputs ← Sequential_forward net_intermediate images;
  match image_outputs with
  | [nImages; nFilters; height; width] =>
      ax ← subplots (N.to_nat nImages) (N.to_nat nFilters + 1);
      drawn ← draw_all ax (N.to_nat nImages) (N.to_nat nFilters);
      Some (image_outputs, drawn)
  | _ => None
  end.

End Filters.

(** ** The training loader *)

Module TrainLoader.
Import Evaluate Training.

(** [trainloader = DataLoader(trainset, batch_size=4, shuffle=True,
    num_workers=2)], seen as the batches of one pass.  With [shuffle=True]
    the sampler draws a new permutation of [range(len(trainset))] for every
    pass; [order] is the permutation drawn. *)
Definition trainloader {A} (order : list nat) (trainset : list A)
  : option (list (list A)) :=
  samples ← mapM (fun i => trainset !! i) order;
  Some (batch_sampler 4 false [] samples).

(** The lines printed by the training cell when the two passes over the
    loader draw the permutations [order 0] and [order 1], and the batch
    numbered [i] of pass [epoch] has loss [loss epoch i batch]. *)
Definition training_run {A} (order : nat -> list nat)
           (loss : nat -> nat -> list A -> Q) (trainset : list A)
  : option (list report) :=
  batches ← mapM (fun epoch => trainloader (order epoch) trainset) (seq 0 2);
  Some (training (fun epoch => imap (loss epoch) (nth epoch batches []))).

End TrainLoader.

(** ** The images shown beside the filter outputs *)

Module Display.
Import Float32 Vision.
Local Open Scope Q_scope.

(** [np.moveaxis(a, 0, -1)] on a three-dimensional array: the first axis
    becomes the last one. *)
Definition moveaxis_0_last (t : tensor3) : tensor3 :=
  let '(c, h, w) := dims t in
  {| dims := (h, w, c); item := fun i j k => item t k i j |}.

(** The array handed to the plotting library for the first column of the
    grid: [np.moveaxis(images[idx_img,:,:,:].numpy(), 0, -1)]. *)
Definition grid_input (img : tensor3) : tensor3 := moveaxis_0_last img.

End Display.

(** ** The tabular notebook: features, labels and the cross-validation
    line *)

Module Tabular.
Import Sklearn.
Local Open Scope R_scope.

(** The columns of [data.csv] that the notebook reads; a data frame is its
    list of rows. *)
Record sample := mkSample {
  diagnosis : string;
  radius_mean : R;
  texture_mean : R
}.

Definition dataframe := list sample.

(** [np.vstack((a, b))] of two one-dimensional arrays: they must have the
    same length. *)
Definition vstack (a b : list R) : option array2 :=
  if (length a =? length b)%nat then Some [a; b] else None.

(** [np.transpose] of a two-dimensional array. *)
Definition transpose (X : array2) : array2 :=
  map (fun i => map (fun row => nth i row 0) X) (seq 0 (n_features X)).

(** The cell
<<
    X1 = np.array(df.texture_mean)
    X2 = np.array(df.radius_mean)
    X = np.transpose(np.vstack((X1, X2)))
>> *)
Definition features (df : dataframe) : option array2 :=
  let X1 := map texture_mean df in
  let X2 := map radius_mean df in
  transpose <$> vstack X1 X2.

(** [LabelEncoder.fit]: [classes_] holds the distinct labels, sorted. *)
Fixpoint insert_sorted (s : string) (l : list string) : list string :=
  match l with
  | [] => [s]
  | x :: rest =>
      match String.compare s x with
      | Lt => s :: l
      | Eq => l
      | Gt => x :: insert_sorted s rest
      end
  end.

Definition LabelEncoder_fit (y : list string) : list string :=
  fold_right insert_sorted [] y.

(** The position of a label in [classes_]. *)
Fixpoint index_of (s : string) (classes_ : list string) : option nat :=
  match classes_ with
  | [] => None
  | x :: rest => if String.eqb s x then Some 0%nat
                 else S <$> index_of s rest
  end.

(** [LabelEncoder.transform]: a label that [fit] has not seen raises. *)
Definition LabelEncoder_transform (classes_ : list string) (y : list string)
  : option (list nat) :=
  mapM (fun s => index_of s classes_) y.

(** The cell
<<
    le = preprocessing.LabelEncoder()
    le.fit(['B', 'M'])
    y = le.transform(df.diagnosis)
>> *)
Definition labels (df : dataframe) : option (list nat) :=
  let le := LabelEncoder_fit ["B"; "M"]%string in
  LabelEncoder_transform le (map diagnosis df).

(** The two numbers of the line
    ['Accuracy: {:0.2f}% (+/- {:0.2f})'.format(scores.mean(),
    scores.std() * 2)]. *)
Definition accuracy_figures (scores : list R) : R * R :=
  (mean scores, std scores * 2).

End Tabular.

(** ** Order of the calls in a run *)

Module Trace.
Import Notebook.
Local Open Scope string_scope.

(** The name under which an event's call was made. *)
Definition called (ev : event) : string := callee (who ev).

(** In [evs], every call of [b] comes directly after a call of [a] that
    did not raise. *)
Definition follows (a b : string) (evs : list event) : Prop :=
  forall i ev,
    evs !! i = Some ev ->
    called ev = b ->
    exists j p,
      i = S j /\ evs !! j = Some p /\ called p = a /\ is_raise p = false.

(** The calls of a gradient step: clearing the gradients, propagating the
    loss back, and the update by the optimizer. *)
Definition gradient_call (c : call) : bool :=
  existsb (String.eqb (callee c))
          ["optimizer.zero_grad"; "loss.backward"; "optimizer.step"].

(** The call that has to come directly before a call of the training
    step, in the order the loop body is written. *)
Definition comes_after (name : string) : option string :=
  if String.eqb name "net" then Some "optimizer.zero_grad"
  else if String.eqb name "criterion" then Some "net"
  else if String.eqb name "loss.backward" then Some "criterion"
  else if String.eqb name "optimizer.step" then Some "loss.backward"
  else None.

(** Every event of [evs] that has a required predecessor has it. *)
Definition in_step_order (evs : list event) : Prop :=
  forall i ev a,
    evs !! i = Some ev ->
    comes_after (called ev) = Some a ->
    exists j p,
      i = S j /\ evs !! j = Some p /\ called p = a /\ is_raise p = false.

(** The relation between the worlds before and after a piece of a run
    whose new events are in step order. *)
Definition step_ordered (w w' : world) : Prop :=
  exists new, events w' = (events w ++ new)%list /\ in_step_order new.

End Trace.

(* ================================================================== *)
(** * Part II: properties *)
(* ================================================================== *)

Section TorchFacts.
Import Torch.
Local Open Scope N_scope.

Lemma numel_batch (B c h w : N) : numel [B; c; h; w] = B * (c * h * w).
Proof. unfold numel; simpl. lia. Qed.

Lemma view_rows_batch (B : N) :
  view_rows (16 * 5 * 5) [B; 16; 5; 5] = Some [B; 400].
Proof.
  unfold view_rows. rewrite numel_batch.
  change (16 * 5 * 5) with 400.
  rewrite N.Div0.mod_mul, N.div_mul by discriminate.
  reflexivity.
Qed.

(** C4. For every batch size [B], [Net.forward] maps a [B x 3 x 32 x 32]
    batch through [B x 6 x 28 x 28] (conv1), [B x 6 x 14 x 14] (pool),
    [B x 16 x 10 x 10] (conv2), [B x 16 x 5 x 5] (pool) and the view to
    [B x 400] (the element count divides exactly) to a [B x 10] output. *)
Theorem forward_shape_cifar10 (B : N) :
  Conv2d_forward (conv1 net) [B; 3; 32; 32] = Some [B; 6; 28; 28]
  /\ MaxPool2d_forward (pool net) (relu [B; 6; 28; 28]) = Some [B; 6; 14; 14]
  /\ Conv2d_forward (conv2 net) [B; 6; 14; 14] = Some [B; 16; 10; 10]
  /\ MaxPool2d_forward (pool net) (relu [B; 16; 10; 10]) = Some [B; 16; 5; 5]
  /\ numel [B; 16; 5; 5] mod (16 * 5 * 5) = 0
  /\ view_rows (16 * 5 * 5) [B; 16; 5; 5] = Some [B; 16 * 5 * 5]
  /\ forward net [B; 3; 32; 32] = Some [B; 10].
Proof.
  assert (Hv := view_rows_batch B).
  repeat split; try reflexivity.
  - rewrite numel_batch. change (16 * 5 * 5) with 400.
    apply N.Div0.mod_mul.
  - exact Hv.
  - unfold forward.
    change (Conv2d_forward (conv1 net) [B; 3; 32; 32]) with (Some [B; 6; 28; 28]).
    cbn [mbind option_bind].
    change (MaxPool2d_forward (pool net) (relu [B; 6; 28; 28]))
      with (Some [B; 6; 14; 14]).
    cbn [mbind option_bind].
    change (Conv2d_forward (conv2 net) [B; 6; 14; 14])
      with (Some [B; 16; 10; 10]).
    cbn [mbind option_bind].
    change (MaxPool2d_forward (pool net) (relu [B; 16; 10; 10]))
      with (Some [B; 16; 5; 5]).
    cbn [mbind option_bind].
    rewrite Hv. reflexivity.
Qed.

(** C8. The hand-written sum is 62006 and equals the programmatic count of
    trainable parameters of [net]: its ten terms are, in order, the element
    counts of the ten parameter tensors (weight and bias of [conv1],
    [conv2], [fc1], [fc2], [fc3]), all of which require gradients. *)
Theorem parameter_count_62006 :
  hand_written_count = 62006
  /\ trainable_parameter_count net = 62006
  /\ hand_written_count = trainable_parameter_count net
  /\ map (fun p => (pname p, psize p)) (named_parameters net)
     = [ ("conv1.weight", [6; 3; 5; 5]); ("conv1.bias", [6]);
         ("conv2.weight", [16; 6; 5; 5]); ("conv2.bias", [16]);
         ("fc1.weight", [120; 400]); ("fc1.bias", [120]);
         ("fc2.weight", [84; 120]); ("fc2.bias", [84]);
         ("fc3.weight", [10; 84]); ("fc3.bias", [10]) ]%string
  /\ map (fun p => numel (psize p)) (named_parameters net)
     = [6*3*5*5; 6; 16*6*5*5; 16; 120*400; 120; 84*120; 84; 10*84; 10]
  /\ forallb requires_grad (named_parameters net) = true.
Proof. repeat split; vm_compute; reflexivity. Qed.

End TorchFacts.

Section PredictFacts.
Import Predict.
Local Open Scope Q_scope.

(** What the scan returns: either the running best index, when nothing in
    [a] beats [best], or the position of the first element of [a] that is a
    maximum of [best :: a] and strictly above everything before it. *)
Lemma argmax_scan_spec (a : list Q) :
  forall best_i best i,
    (argmax_scan best_i best i a = best_i
     /\ Forall (fun y => y <= best) a)
    \/ (exists j v,
          argmax_scan best_i best i a = (i + j)%nat
          /\ a !! j = Some v
          /\ best < v
          /\ Forall (fun y => y <= v) a
          /\ forall j' y, (j' < j)%nat -> a !! j' = Some y -> y < v).
Proof.
  induction a as [|x rest IH]; intros best_i best i; simpl.
  - left. split; [reflexivity | constructor].
  - destruct (Qle_bool x best) eqn:Hx.
    + apply Qle_bool_iff in Hx.
      destruct (IH best_i best (S i)) as [[Hk Hall] | (j & v & Hk & Hj & Hb & Hall & Hfirst)].
      * left. split; [exact Hk | constructor; assumption].
      * right. exists (S j), v. repeat split.
        -- rewrite Hk. lia.
        -- exact Hj.
        -- exact Hb.
        -- constructor; [| exact Hall]. apply Qlt_le_weak.
           eapply Qle_lt_trans; eassumption.
        -- intros [|j'] y Hlt Hy; simpl in Hy.
           ++ injection Hy as <-. eapply Qle_lt_trans; eassumption.
           ++ apply (Hfirst j'); [lia | exact Hy].
    + assert (Hbx : best < x).
      { apply Qnot_le_lt. intros Hle. apply Qle_bool_iff in Hle. congruence. }
      destruct (IH i x (S i)) as [[Hk Hall] | (j & v & Hk & Hj & Hb & Hall & Hfirst)].
      * right. exists 0%nat, x. repeat split.
        -- rewrite Hk. lia.
        -- exact Hbx.
        -- constructor; [apply Qle_refl | exact Hall].
        -- intros j' y Hlt. lia.
      * right. exists (S j), v. repeat split.
        -- rewrite Hk. lia.
        -- exact Hj.
        -- eapply Qlt_trans; eassumption.
        -- constructor; [apply Qlt_le_weak; exact Hb | exact Hall].
        -- intros [|j'] y Hlt Hy; simpl in Hy.
           ++ injection Hy as <-. exact Hb.
           ++ apply (Hfirst j'); [lia | exact Hy].
Qed.

(** [np.argmax] returns the index of the first occurrence of the maximum. *)
Lemma argmax_spec (a : list Q) (k : nat) :
  argmax a = Some k ->
  exists v, a !! k = Some v
            /\ Forall (fun y => y <= v) a
            /\ forall j y, (j < k)%nat -> a !! j = Some y -> y < v.
Proof.
  destruct a as [|x rest]; simpl; [discriminate |].
  intros [= <-].
  destruct (argmax_scan_spec rest 0 x 1) as [[Hk Hall] | (j & v & Hk & Hj & Hb & Hall & Hfirst)].
  - exists x. rewrite Hk. repeat split.
    + constructor; [apply Qle_refl | exact Hall].
    + intros j y Hlt. lia.
  - exists v. rewrite Hk. repeat split.
    + exact Hj.
    + constructor; [apply Qlt_le_weak; exact Hb | exact Hall].
    + intros [|j'] y Hlt Hy; simpl in Hy.
      * injection Hy as <-. exact Hb.
      * apply (Hfirst j'); [lia | exact Hy].
Qed.

Lemma argmax_is_Some (a : list Q) : a <> [] -> is_Some (argmax a).
Proof. destruct a; [congruence | intros _; eexists; reflexivity]. Qed.

(** On a row of two probabilities the argmax is class 1 exactly when the
    second probability is strictly larger. *)
Lemma argmax_pair (p0 p1 : Q) :
  argmax [p0; p1] = Some (if Qle_bool p1 p0 then 0 else 1)%nat.
Proof. simpl. destruct (Qle_bool p1 p0); reflexivity. Qed.

End PredictFacts.

Section PredictTheorems.
Import Predict.
Local Open Scope Q_scope.

(** One printed line, for a row of two probabilities. *)
Lemma print_row_pair (x_predict : list (list Q)) (y_test : list nat)
      (i : nat) (p0 p1 : Q) (y : nat) :
  x_predict !! i = Some [p0; p1] ->
  y_test !! i = Some y ->
  print_row x_predict y_test i
  = Some (mkLine p0 p1 (if Qle_bool p1 p0 then 0 else 1)%nat y).
Proof.
  intros Hrow Hy. unfold print_row.
  rewrite Hrow; cbn [mbind option_bind].
  change ([p0; p1] !! 0%nat) with (Some p0).
  change ([p0; p1] !! 1%nat) with (Some p1).
  cbn [mbind option_bind].
  rewrite argmax_pair; cbn [mbind option_bind].
  rewrite Hy. reflexivity.
Qed.

Lemma length_two {A} (l : list A) :
  length l = 2%nat -> exists a b, l = [a; b].
Proof.
  destruct l as [|a [|b [|c l]]]; simpl; intros H; try discriminate.
  exists a, b. reflexivity.
Qed.

(** Every row of a batch of score rows gets a value and an index. *)
Lemma torch_max_1_rows (outputs : list (list Q)) :
  Forall (fun row => row <> []) outputs ->
  exists r,
    mapM (fun row => k ← argmax row; v ← row !! k; Some (v, k)) outputs = Some r
    /\ Forall2 (fun row vk => argmax row = Some vk.2 /\ row !! vk.2 = Some vk.1)
               outputs r.
Proof.
  induction 1 as [|row rest Hrow _ IH].
  - exists []. split; [reflexivity | constructor].
  - destruct IH as (r & Hr & HF).
    destruct (argmax_is_Some row Hrow) as [k Hk].
    destruct (argmax_spec row k Hk) as (v & Hv & _).
    exists ((v, k) :: r). split.
    + cbn [mapM]. rewrite Hk; cbn [mbind option_bind].
      rewrite Hv; cbn [mbind option_bind].
      rewrite Hr. reflexivity.
    + constructor; [split; assumption | exact HF].
Qed.

(** C3. In the tabular notebook every printed line shows, as predicted
    class, the argmax of the two probabilities of its row; in the CNN
    notebook every sample's predicted label is the index of the largest of
    its 10 scores, and the printed name is the class of that index. *)
Theorem predicted_class_is_argmax :
  (forall (x_predict : list (list Q)) (y_test : list nat),
      (10 <= length x_predict)%nat ->
      (10 <= length y_test)%nat ->
      Forall (fun row => length row = 2%nat) x_predict ->
      exists lines,
        print_loop x_predict y_test = Some lines
        /\ length lines = 10%nat
        /\ forall i p0 p1,
            (i < 10)%nat ->
            x_predict !! i = Some [p0; p1] ->
            exists ln v,
              lines !! i = Some ln
              /\ P1 ln = p0 /\ P2 ln = p1
              /\ argmax [p0; p1] = Some (Pc ln)
              /\ Pc ln = (if Qle_bool p1 p0 then 0 else 1)%nat
              /\ [p0; p1] !! Pc ln = Some v /\ p0 <= v /\ p1 <= v)
  /\ (forall (outputs : list (list Q)),
        (4 <= length outputs)%nat ->
        Forall (fun row => length row = 10%nat) outputs ->
        exists values predicted names,
          torch_max_1 outputs = Some (values, predicted)
          /\ predicted_names outputs = Some names
          /\ forall j row,
              outputs !! j = Some row ->
              exists k v,
                predicted !! j = Some k
                /\ (k < 10)%nat
                /\ values !! j = Some v
                /\ row !! k = Some v
                /\ Forall (fun y => y <= v) row
                /\ ((j < 4)%nat -> names !! j = classes !! k)).
Proof.
  split.
  - intros x_predict y_test Hx Hy Hrows.
    assert (Hall : Forall (is_Some ∘ print_row x_predict y_test) (seq 0 10)).
    { apply Forall_forall. intros i Hi. apply elem_of_seq in Hi.
      destruct (lookup_lt_is_Some_2 x_predict i) as [row Hrow]; [lia |].
      destruct (lookup_lt_is_Some_2 y_test i) as [y Hyi]; [lia |].
      assert (Hlen : length row = 2%nat).
      { eapply (proj1 (Forall_lookup _ _) Hrows); eassumption. }
      destruct (length_two row Hlen) as (p0 & p1 & ->).
      unfold compose. erewrite print_row_pair by eassumption. eexists; reflexivity. }
    apply mapM_is_Some_2 in Hall. destruct Hall as [lines Hlines].
    exists lines. split; [exact Hlines |].
    pose proof (length_mapM _ _ _ Hlines) as Hlen. rewrite length_seq in Hlen.
    split; [symmetry; exact Hlen |].
    intros i p0 p1 Hi Hrow.
    apply mapM_Some_1 in Hlines.
    destruct (Forall2_lookup_l _ _ _ i i Hlines) as (ln & Hln & Hpr).
    { apply lookup_seq. split; [reflexivity | lia]. }
    destruct (lookup_lt_is_Some_2 y_test i) as [y Hyi]; [lia |].
    rewrite (print_row_pair _ _ _ _ _ _ Hrow Hyi) in Hpr.
    injection Hpr as <-.
    pose proof (argmax_pair p0 p1) as Ham.
    destruct (argmax_spec _ _ Ham) as (v & Hv & Hmax & _).
    exists (mkLine p0 p1 (if Qle_bool p1 p0 then 0 else 1)%nat y), v.
    cbn [P1 P2 Pc].
    repeat split; try assumption.
    + inversion Hmax; assumption.
    + inversion Hmax as [|? ? _ Hmax']; inversion Hmax'; assumption.
  - intros outputs Hfour Hrows.
    destruct (torch_max_1_rows outputs) as (r & Hr & HF).
    { eapply Forall_impl; [exact Hrows |]. intros row Hlen ->. discriminate. }
    assert (Hpred : forall j row, outputs !! j = Some row ->
              exists k v, r.*2 !! j = Some k /\ (k < 10)%nat
                          /\ r.*1 !! j = Some v /\ row !! k = Some v
                          /\ Forall (fun y => y <= v) row).
    { intros j row Hrow.
      destruct (Forall2_lookup_l _ _ _ j row HF Hrow) as ([v k] & Hvk & Ham & Hv).
      cbn [fst snd] in Ham, Hv.
      exists k, v. repeat split.
      - rewrite list_lookup_fmap, Hvk. reflexivity.
      - apply lookup_lt_Some in Hv.
        rewrite (proj1 (Forall_lookup _ _) Hrows j row Hrow) in Hv. exact Hv.
      - rewrite list_lookup_fmap, Hvk. reflexivity.
      - exact Hv.
      - destruct (argmax_spec row k Ham) as (v' & Hv' & Hmax & _).
        rewrite Hv in Hv'. injection Hv' as <-. exact Hmax. }
    assert (Hnames : Forall (is_Some ∘ (fun j => k ← r.*2 !! j; classes !! k))
                            (seq 0 4)).
    { apply Forall_forall. intros j Hj. apply elem_of_seq in Hj.
      destruct (lookup_lt_is_Some_2 outputs j) as [row Hrow]; [lia |].
      destruct (Hpred j row Hrow) as (k & v & Hk & Hlt & _).
      unfold compose. rewrite Hk; cbn [mbind option_bind].
      apply lookup_lt_is_Some_2. exact Hlt. }
    apply mapM_is_Some_2 in Hnames. destruct Hnames as [names Hnames].
    exists (r.*1), (r.*2), names.
    split; [unfold torch_max_1; rewrite Hr; reflexivity |].
    split; [unfold predicted_names, torch_max_1; rewrite Hr; exact Hnames |].
    intros j row Hrow.
    destruct (Hpred j row Hrow) as (k & v & Hk & Hlt & Hval & Hv & Hmax).
    exists k, v. repeat split; try assumption.
    intros Hj.
    apply mapM_Some_1 in Hnames.
    destruct (Forall2_lookup_l _ _ _ j j Hnames) as (name & Hname & Hcls).
    { apply lookup_seq. split; [reflexivity | lia]. }
    rewrite Hk in Hcls; cbn [mbind option_bind] in Hcls.
    rewrite Hname, Hcls. reflexivity.
Qed.

(** The theorem applies: ten rows of two probabilities with their labels,
    and a batch of four rows of ten scores. *)
Lemma predicted_class_is_argmax_witness :
  ((10 <= length sample_probabilities)%nat
   /\ (10 <= length sample_labels)%nat
   /\ Forall (fun row => length row = 2%nat) sample_probabilities
   /\ exists lines,
       print_loop sample_probabilities sample_labels = Some lines
       /\ length lines = 10%nat)
  /\ ((4 <= length sample_outputs)%nat
      /\ Forall (fun row => length row = 10%nat) sample_outputs
      /\ exists names, predicted_names sample_outputs = Some names).
Proof.
  assert (H1 : (10 <= length sample_probabilities)%nat) by (simpl; lia).
  assert (H2 : (10 <= length sample_labels)%nat) by (simpl; lia).
  assert (H3 : Forall (fun row => length row = 2%nat) sample_probabilities)
    by (repeat constructor).
  assert (H4 : (4 <= length sample_outputs)%nat) by (simpl; lia).
  assert (H5 : Forall (fun row => length row = 10%nat) sample_outputs)
    by (repeat constructor).
  split.
  - split; [exact H1 | split; [exact H2 | split; [exact H3 |]]].
    destruct (proj1 predicted_class_is_argmax _ _ H1 H2 H3)
      as (lines & Hl & Hlen & _).
    exists lines. split; assumption.
  - split; [exact H4 | split; [exact H5 |]].
    destruct (proj2 predicted_class_is_argmax _ H4 H5)
      as (values & predicted & names & _ & Hn & _).
    exists names. exact Hn.
Defined.

End PredictTheorems.

Section VisionFacts.
Import Float32 Vision.
Local Open Scope Q_scope.

(** Un-normalising undoes normalising in exact arithmetic. *)
Lemma unnormalize_normalize_exact (x : Q) :
  ((x - (1 # 2)) / (1 # 2)) / 2 + (1 # 2) == x.
Proof. field. Qed.

(** The 256 levels, one by one: what [ToTensor] makes of a level, and what
    comes back after normalising and un-normalising in [float32]. *)
Lemma level_round_trip (b : byte) :
  exists x v,
    to_tensor_pixel b = Some x
    /\ unnormalize_pixel
         (normalize_pixel (Some (1 # 2)) (Some (1 # 2)) (to_tensor_pixel b))
       = Some v
    /\ 0 <= x <= 1
    /\ 0 <= v <= 1
    /\ Qabs (v - x) <= 1 # 67108864
    /\ (v == x <-> (Byte.to_N b = 0 \/ 64 <= Byte.to_N b)%N).
Proof.
  destruct b;
    (eexists _, _;
     split; [vm_compute; reflexivity |];
     split; [vm_compute; reflexivity |];
     split; [split; apply Qle_bool_iff; vm_compute; reflexivity |];
     split; [split; apply Qle_bool_iff; vm_compute; reflexivity |];
     split; [apply Qle_bool_iff; vm_compute; reflexivity |];
     split;
     [ intros H;
       first [ left; reflexivity
             | right; vm_compute; discriminate
             | vm_compute in H; discriminate H ]
     | intros [H | H];
       first [ vm_compute; reflexivity
             | vm_compute in H; discriminate H
             | vm_compute in H; exfalso; apply H; reflexivity ] ]).
Qed.

Lemma round_half : round (1 # 2) = Some (1 # 2).
Proof. vm_compute. reflexivity. Qed.

Lemma channel_constant_half (c : nat) :
  (c < 3)%nat ->
  channel_constant [1 # 2; 1 # 2; 1 # 2] c = Some (1 # 2).
Proof.
  intros Hc. destruct c as [|[|[|c]]]; try lia; exact round_half.
Qed.

(** What [transform] returns, and when. *)
Lemma transform_spec (img : image8) (h w c : nat) :
  size8 img = (h, w, c) ->
  transform img
  = if (c =? 3)%nat
    then Some {| dims := (c, h, w);
                 item := fun k i j =>
                   normalize_pixel
                     (channel_constant [1 # 2; 1 # 2; 1 # 2] k)
                     (channel_constant [1 # 2; 1 # 2; 1 # 2] k)
                     (to_tensor_pixel (pixel img i j k)) |}
    else None.
Proof.
  intros Hs. unfold transform, Normalize, ToTensor. rewrite Hs.
  cbn [dims item].
  change (existsb _ [1 # 2; 1 # 2; 1 # 2]) with false.
  cbn [length]. destruct (Nat.eqb_spec 3 c) as [<- | Hne].
  - reflexivity.
  - destruct (Nat.eqb_spec c 3); [congruence | reflexivity].
Qed.

Lemma imshow_item (img : tensor3) (h w c : nat) :
  item (imshow img) h w c = unnormalize_pixel (item img c h w).
Proof.
  unfold imshow, transpose_120. cbn [dims item].
  destruct (dims img) as [[c0 h0] w0]. reflexivity.
Qed.

Lemma imshow_dims (img : tensor3) (c h w : nat) :
  dims img = (c, h, w) -> dims (imshow img) = (h, w, c).
Proof.
  intros Hd. unfold imshow, transpose_120. cbn [dims]. rewrite Hd.
  reflexivity.
Qed.

(** C9, as the code has it.  [img / 2 + 0.5] undoes
    [Normalize((0.5, 0.5, 0.5), (0.5, 0.5, 0.5))] in exact arithmetic.  In
    the [float32] arithmetic of the tensors, what [imshow] hands to the
    plotting library for a transformed 8-bit image of three channels is,
    channel-last, the image [ToTensor] made, up to rounding: every value is
    within [2 ^ -26] of the original one, and equal to it exactly for the
    levels 0 and 64 to 255.  An image with another number of channels
    makes [Normalize] raise. *)
Theorem imshow_inverts_normalize :
  (forall x : Q, ((x - (1 # 2)) / (1 # 2)) / 2 + (1 # 2) == x)
  /\ (forall (img : image8) (h w c : nat),
         size8 img = (h, w, c) ->
         (transform img = None <-> c <> 3%nat))
  /\ (forall (img : image8) (h w : nat),
         size8 img = (h, w, 3%nat) ->
         exists t,
           transform img = Some t
           /\ dims (imshow t) = (h, w, 3%nat)
           /\ forall i j c,
               (c < 3)%nat ->
               exists x v,
                 item (ToTensor img) c i j = Some x
                 /\ item (imshow t) i j c = Some v
                 /\ 0 <= v <= 1
                 /\ Qabs (v - x) <= 1 # 67108864
                 /\ (v == x
                     <-> (Byte.to_N (pixel img i j c) = 0
                          \/ 64 <= Byte.to_N (pixel img i j c))%N)).
Proof.
  split; [exact unnormalize_normalize_exact |]. split.
  - intros img h w c Hs. rewrite (transform_spec img h w c Hs).
    destruct (Nat.eqb_spec c 3); split; congruence.
  - intros img h w Hs. rewrite (transform_spec img h w 3 Hs).
    cbn [Nat.eqb]. eexists. split; [reflexivity |].
    split; [apply (imshow_dims _ 3%nat); reflexivity |].
    intros i j c Hc.
    destruct (level_round_trip (pixel img i j c))
      as (x & v & Hx & Hv & _ & Hv01 & Herr & Hiff).
    exists x, v.
    split.
    { unfold ToTensor. rewrite Hs. cbn [item]. exact Hx. }
    split.
    { rewrite imshow_item. cbn [item].
      rewrite channel_constant_half by exact Hc. exact Hv. }
    split; [exact Hv01 | split; [exact Herr | exact Hiff]].
Qed.

(** The theorem applies to an image of one dark pixel. *)
Lemma imshow_inverts_normalize_witness :
  size8 (one_pixel "001") = (1, 1, 3)%nat
  /\ exists t, transform (one_pixel "001") = Some t
               /\ dims (imshow t) = (1, 1, 3)%nat.
Proof.
  assert (Hs : size8 (one_pixel "001") = (1, 1, 3)%nat) by reflexivity.
  split; [exact Hs |].
  destruct (proj2 (proj2 imshow_inverts_normalize) (one_pixel "001")
                  1%nat 1%nat Hs) as (t & Ht & Hd & _).
  exists t. split; [exact Ht | exact Hd].
Defined.

(** The claim as the specification words it fails in [float32]: the pixel
    of level 1 does not come back as it was. *)
Lemma imshow_round_trip_inexact :
  exists t x v,
    transform (one_pixel "001") = Some t
    /\ item (ToTensor (one_pixel "001")) 0 0 0 = Some x
    /\ item (imshow t) 0 0 0 = Some v
    /\ x == 8421505 # 2147483648
    /\ v == 65793 # 16777216
    /\ ~ v == x.
Proof.
  rewrite (transform_spec (one_pixel "001") 1 1 3 eq_refl). cbn [Nat.eqb].
  eexists _, _, _.
  split; [reflexivity |].
  split; [vm_compute; reflexivity |].
  split; [vm_compute; reflexivity |].
  split; [reflexivity |].
  split; [reflexivity |].
  intros H. vm_compute in H. discriminate H.
Qed.

End VisionFacts.

Section SklearnFacts.
Import Sklearn.
Local Open Scope R_scope.

Lemma Rsum_nonneg (l : list R) : Forall (fun x => 0 <= x) l -> 0 <= Rsum l.
Proof. induction 1; simpl; lra. Qed.

Lemma INR_length_pos {A} (l : list A) : l <> [] -> 0 < INR (length l).
Proof.
  destruct l; [congruence | intros _].
  apply lt_0_INR. simpl. lia.
Qed.

Lemma var_nonneg (l : list R) : 0 <= var l.
Proof.
  unfold var, mean. rewrite length_map.
  destruct l as [|x l].
  - simpl. unfold Rdiv. rewrite Rmult_0_l. lra.
  - apply Rmult_le_pos.
    + apply Rsum_nonneg. apply Forall_forall. intros y Hy.
      apply list_elem_of_fmap in Hy. destruct Hy as (z & -> & _).
      apply pow2_ge_0.
    + left. apply Rinv_0_lt_compat. apply INR_length_pos. discriminate.
Qed.

Lemma check_array_spec (d : nat) (X : array2) :
  check_array d X = true
  <-> X <> [] /\ d <> 0%nat /\ Forall (fun row => length row = d) X.
Proof.
  unfold check_array.
  rewrite !andb_true_iff, !negb_true_iff, !Nat.eqb_neq.
  rewrite forallb_forall, Forall_forall.
  split.
  - intros [[Hne Hd] Hall]. repeat split.
    + intros ->. apply Hne. reflexivity.
    + exact Hd.
    + intros row Hrow. apply Nat.eqb_eq, Hall, list_elem_of_In, Hrow.
  - intros (Hne & Hd & Hall). repeat split.
    + destruct X; [congruence | simpl; lia].
    + exact Hd.
    + intros row Hrow. apply Nat.eqb_eq, Hall, list_elem_of_In, Hrow.
Qed.

Lemma check_array_n_features (d : nat) (X : array2) :
  check_array d X = true -> n_features X = d.
Proof.
  intros H. apply check_array_spec in H. destruct H as (Hne & _ & Hall).
  destruct X as [|row X]; [congruence |].
  simpl. inversion Hall; assumption.
Qed.

(** The scaling cell, run on well-formed splits with the same number of
    features, ends normally in the state written out here. *)
Lemma scaling_cell_run (d : nat) (Xtr Xte : array2) :
  check_array d Xtr = true ->
  check_array d Xte = true ->
  let mean_ := map (fun j => mean (column j Xtr)) (seq 0 d) in
  let scale_ := map (fun j => handle_zeros_in_scale (std (column j Xtr)))
                    (seq 0 d) in
  fit_statistics Xtr = Fitted mean_ scale_
  /\ scaling_cell (before_scaling Xtr Xte)
     = Ok tt (mkKernel (Some (Fitted mean_ scale_))
                       (standardize mean_ scale_ Xtr)
                       (standardize mean_ scale_ Xte)
                       [CallFit Xtr; CallTransform Xtr; CallTransform Xte]).
Proof.
  intros Htr Hte mean_ scale_.
  pose proof (check_array_n_features d Xtr Htr) as Hd.
  assert (Hfit : fit_statistics Xtr = Fitted mean_ scale_).
  { unfold fit_statistics. rewrite Hd. reflexivity. }
  split; [exact Hfit |].
  assert (Hlen : length mean_ = d).
  { unfold mean_. rewrite length_map, length_seq. reflexivity. }
  clearbody mean_ scale_.
  unfold scaling_cell, scaler_fit, scaler_transform, bind, before_scaling,
    set_scaler, get_X_train, get_X_test, get_scaler, record_call,
    set_X_train, set_X_test, ret, raise.
  do 4 (cbn -[check_array standardize fit_statistics n_features];
        rewrite ?Hd, ?Htr, ?Hfit, ?Hlen, ?Hte).
  reflexivity.
Qed.

End SklearnFacts.

Section SklearnTheorems.
Import Sklearn.
Local Open Scope R_scope.

(** Whatever the two splits are, and whether or not the cell runs to its
    end, the first call on the scaler is [fit(X_train)] and every later call
    is a [transform]. *)
Lemma scaling_cell_fits_first (Xtr Xte : array2) :
  exists rest,
    calls (kernel_of (scaling_cell (before_scaling Xtr Xte)))
    = CallFit Xtr :: rest
    /\ forallb is_transform rest = true.
Proof.
  unfold scaling_cell, scaler_fit, scaler_transform, bind, before_scaling,
    set_scaler, get_X_train, get_X_test, get_scaler, record_call,
    set_X_train, set_X_test, ret, raise, fit_statistics.
  cbn -[check_array standardize n_features mean std column].
  repeat
    (match goal with
     | |- context [check_array ?d ?X] => destruct (check_array d X)
     end;
     cbn -[check_array standardize n_features mean std column]);
    eexists; split; reflexivity.
Qed.

(** C1. The scaling cell calls [scaler.fit] exactly once, on [X_train],
    before any [transform] (whatever the splits are); both splits are then
    transformed with the mean and scale learnt from [X_train], and neither
    the fitted scaler nor the scaled training split depends on the test
    split. *)
Theorem scaling_statistics_from_training_only :
  (forall Xtr Xte : array2,
      exists rest,
        calls (kernel_of (scaling_cell (before_scaling Xtr Xte)))
        = CallFit Xtr :: rest
        /\ forallb is_transform rest = true)
  /\ (forall (d : nat) (Xtr Xte : array2),
        check_array d Xtr = true ->
        check_array d Xte = true ->
        exists mean_ scale_ k',
          fit_statistics Xtr = Fitted mean_ scale_
          /\ mean_ = map (fun j => mean (column j Xtr)) (seq 0 d)
          /\ scale_ = map (fun j => handle_zeros_in_scale (std (column j Xtr)))
                          (seq 0 d)
          /\ scaling_cell (before_scaling Xtr Xte) = Ok tt k'
          /\ calls k' = [CallFit Xtr; CallTransform Xtr; CallTransform Xte]
          /\ scaler k' = Some (Fitted mean_ scale_)
          /\ X_train k' = standardize mean_ scale_ Xtr
          /\ X_test k' = standardize mean_ scale_ Xte
          /\ forall Xte2,
              check_array d Xte2 = true ->
              exists k2,
                scaling_cell (before_scaling Xtr Xte2) = Ok tt k2
                /\ scaler k2 = scaler k'
                /\ X_train k2 = X_train k').
Proof.
  split; [exact scaling_cell_fits_first |].
  intros d Xtr Xte.
  intros Htr Hte.
  destruct (scaling_cell_run d Xtr Xte Htr Hte) as [Hfit Hrun].
  eexists _, _, _.
  split; [exact Hfit |].
  split; [reflexivity |].
  split; [reflexivity |].
  split; [exact Hrun |].
  cbn [calls scaler X_train X_test].
  repeat (split; [reflexivity |]).
  intros Xte2 Hte2.
  destruct (scaling_cell_run d Xtr Xte2 Htr Hte2) as [_ Hrun2].
  eexists. split; [exact Hrun2 |].
  split; reflexivity.
Qed.

(** The theorem applies to the two toy splits. *)
Lemma scaling_statistics_from_training_only_witness :
  check_array 1 toy_train = true
  /\ check_array 1 toy_test = true
  /\ exists mean_ scale_ k',
      fit_statistics toy_train = Fitted mean_ scale_
      /\ scaling_cell (before_scaling toy_train toy_test) = Ok tt k'
      /\ calls k' = [CallFit toy_train; CallTransform toy_train;
                     CallTransform toy_test]
      /\ X_test k' = standardize mean_ scale_ toy_test.
Proof.
  split; [reflexivity | split; [reflexivity |]].
  destruct (proj2 scaling_statistics_from_training_only 1%nat toy_train
                  toy_test eq_refl eq_refl)
    as (mean_ & scale_ & k' & Hfit & _ & _ & Hrun & Hcalls & _ & _ & Hte & _).
  exists mean_, scale_, k'.
  split; [exact Hfit | split; [exact Hrun | split; [exact Hcalls | exact Hte]]].
Defined.

End SklearnTheorems.

Section LoaderFacts.
Import Evaluate.
Context {A : Type}.
Implicit Types (batch samples : list A).

(** Batches never exceed the batch size. *)
Lemma batch_sampler_le (bs : nat) samples :
  forall batch,
    (length batch < bs)%nat ->
    Forall (fun b => (length b <= bs)%nat) (batch_sampler bs false batch samples).
Proof.
  induction samples as [|x rest IH]; intros batch Hlt; simpl.
  - destruct (0 <? length batch)%nat; repeat constructor. lia.
  - rewrite length_app; simpl.
    destruct (Nat.eqb_spec (length batch + 1) bs) as [Heq | Hne].
    + constructor; [rewrite length_app; simpl; lia |].
      apply IH. simpl. lia.
    + apply IH. rewrite length_app; simpl. lia.
Qed.

(** Every batch is full exactly when the batch size divides the number of
    samples (counting those already waiting in [batch]). *)
Lemma batch_sampler_full (bs : nat) samples :
  forall batch,
    (length batch < bs)%nat ->
    Forall (fun b => length b = bs) (batch_sampler bs false batch samples)
    <-> ((length batch + length samples) mod bs = 0)%nat.
Proof.
  induction samples as [|x rest IH]; intros batch Hlt; simpl.
  - rewrite Nat.add_0_r, Nat.mod_small by exact Hlt.
    destruct batch as [|y batch]; simpl.
    + split; [reflexivity | constructor].
    + split; [| discriminate].
      intros H. inversion H; subst. simpl in Hlt. lia.
  - rewrite length_app; simpl.
    destruct (Nat.eqb_spec (length batch + 1) bs) as [Heq | Hne].
    + rewrite Forall_cons, length_app; simpl.
      rewrite (IH []) by (simpl; lia). simpl.
      replace (length batch + S (length rest))%nat
        with (length rest + 1 * bs)%nat by lia.
      rewrite Nat.Div0.mod_add.
      split; [intros [_ H]; exact H | intros H; split; [exact Heq | exact H]].
    + rewrite (IH (batch ++ [x])) by (rewrite length_app; simpl; lia).
      rewrite length_app; simpl.
      replace (length batch + 1 + length rest)%nat
        with (length batch + S (length rest))%nat by lia.
      reflexivity.
Qed.

(** The batches, put end to end, are the samples in their original order. *)
Lemma batch_sampler_concat (bs : nat) samples :
  forall batch,
    concat (batch_sampler bs false batch samples) = batch ++ samples.
Proof.
  induction samples as [|x rest IH]; intros batch; simpl.
  - destruct batch; simpl; [reflexivity |].
    rewrite !app_nil_r. reflexivity.
  - destruct (length (batch ++ [x]) =? bs)%nat.
    + simpl. rewrite IH. simpl. rewrite <- app_assoc. reflexivity.
    + rewrite IH, <- app_assoc. reflexivity.
Qed.

Lemma testloader_le (testset : list A) :
  Forall (fun b => (length b <= 4)%nat) (testloader testset).
Proof. apply batch_sampler_le. simpl. lia. Qed.

(** In-bounds batches: every batch of the test loader holds (at least) four
    samples exactly when 4 divides the size of the test set. *)
Lemma testloader_full (testset : list A) :
  Forall (fun b => (4 <= length b)%nat) (testloader testset)
  <-> (length testset mod 4 = 0)%nat.
Proof.
  rewrite <- (batch_sampler_full 4 testset []) by (simpl; lia).
  fold (testloader testset).
  pose proof (testloader_le testset) as Hle.
  rewrite !Forall_forall in *.
  split; intros H b Hb; specialize (H b Hb); specialize (Hle b Hb); lia.
Qed.

Lemma testloader_exact (testset : list A) :
  (length testset mod 4 = 0)%nat ->
  Forall (fun b => length b = 4%nat) (testloader testset).
Proof.
  intros H. apply (batch_sampler_full 4 testset []); [simpl; lia | exact H].
Qed.

Lemma testloader_concat (testset : list A) :
  concat (testloader testset) = testset.
Proof. apply batch_sampler_concat. Qed.

End LoaderFacts.

Section ClassLoopFacts.
Import Predict Evaluate.
Local Open Scope Q_scope.

(** A loop stops with an exception as soon as one index makes the body
    raise whatever the state. *)
Lemma for_each_raises {S B} (body : S -> B -> option S) (l : list B) (b : B) :
  b ∈ l ->
  (forall s, body s b = None) ->
  forall s, for_each body s l = None.
Proof.
  intros Hin Hb. induction l as [|a rest IH]; intros s.
  - inversion Hin.
  - simpl. destruct (body s a) as [s'|] eqn:Ha; [| reflexivity].
    cbn [mbind option_bind].
    apply elem_of_cons in Hin. destruct Hin as [-> | Hin].
    + rewrite Hb in Ha. discriminate.
    + apply IH. exact Hin.
Qed.

Lemma counted_init : counted (fun _ => False) counters_init.
Proof.
  split; [reflexivity | split; [reflexivity |]].
  intros i q Hq. cbn [class_total counters_init] in Hq.
  apply lookup_replicate in Hq. destruct Hq as [-> _].
  split; [apply Qle_refl | split; [tauto | reflexivity]].
Qed.

Lemma counted_iff (P P' : nat -> Prop) (st : counters) :
  (forall i, P i <-> P' i) -> counted P st -> counted P' st.
Proof.
  intros HP (Hc & Ht & Hq).
  split; [exact Hc | split; [exact Ht |]].
  intros i q Hi. destruct (Hq i q Hi) as (H0 & Hs & Hn).
  split; [exact H0 | split].
  - intros HP'. apply Hs, HP, HP'.
  - intros HP'. apply Hn. intros HPi. apply HP', HP, HPi.
Qed.

Lemma sample_step_counted (labels : list nat) (c : squeezed)
      (seen : nat -> Prop) (st : counters) (i label : nat) (b : bool) :
  counted seen st ->
  labels !! i = Some label ->
  (label < 10)%nat ->
  squeezed_item c i = Some b ->
  exists st',
    sample_step labels c st i = Some st'
    /\ counted (fun k => k = label \/ seen k) st'.
Proof.
  intros (Hc & Ht & Hq) Hl Hlt Hb.
  destruct (lookup_lt_is_Some_2 (class_correct st) label) as [vc Hvc]; [lia |].
  destruct (lookup_lt_is_Some_2 (class_total st) label) as [vt Hvt]; [lia |].
  unfold sample_step, add_at.
  rewrite Hl; cbn [mbind option_bind].
  rewrite Hb; cbn [mbind option_bind].
  rewrite Hvc; cbn [mbind option_bind].
  rewrite Hvt; cbn [mbind option_bind].
  eexists. split; [reflexivity |].
  destruct (Hq label vt Hvt) as (Hvt0 & _).
  split; [| split]; cbn [class_correct class_total].
  - rewrite length_insert. exact Hc.
  - rewrite length_insert. exact Ht.
  - intros k q Hk.
    destruct (decide (label = k)) as [<- | Hne].
    + rewrite list_lookup_insert_eq in Hk by lia. injection Hk as <-.
      split; [lra | split; [intros _; lra |]].
      intros Hnot. exfalso. apply Hnot. left. reflexivity.
    + rewrite list_lookup_insert_ne in Hk by exact Hne.
      destruct (Hq k q Hk) as (H0 & Hs & Hn).
      split; [exact H0 | split].
      * intros [-> | Hseen]; [congruence | apply Hs, Hseen].
      * intros Hnot. apply Hn. intros Hseen. apply Hnot. right. exact Hseen.
Qed.

(** The inner loop over a list of in-range indices. *)
Lemma inner_loop_counted (labels : list nat) (c : squeezed) (idxs : list nat) :
  forall (seen : nat -> Prop) (st : counters),
    counted seen st ->
    (forall i, i ∈ idxs ->
               exists label b, labels !! i = Some label
                               /\ (label < 10)%nat
                               /\ squeezed_item c i = Some b) ->
    exists st',
      for_each (sample_step labels c) st idxs = Some st'
      /\ counted (fun k => (exists i, i ∈ idxs /\ labels !! i = Some k) \/ seen k)
                 st'.
Proof.
  induction idxs as [|i rest IH]; intros seen st Hst Hidx.
  - exists st. split; [reflexivity |].
    eapply counted_iff; [| exact Hst].
    intros k. split; [tauto |].
    intros [(i & Hi & _) | H]; [inversion Hi | exact H].
  - destruct (Hidx i) as (label & b & Hl & Hlt & Hb); [left |].
    destruct (sample_step_counted _ _ _ _ _ _ _ Hst Hl Hlt Hb) as (st1 & Hs1 & Hc1).
    destruct (IH _ st1 Hc1) as (st' & Hs' & Hc').
    { intros j Hj. apply Hidx. right. exact Hj. }
    exists st'. split.
    + simpl. rewrite Hs1. exact Hs'.
    + eapply counted_iff; [| exact Hc'].
      intros k. split.
      * intros [(j & Hj & Hjk) | [-> | Hs]].
        -- left. exists j. split; [right; exact Hj | exact Hjk].
        -- left. exists i. split; [left | exact Hl].
        -- right. exact Hs.
      * intros [(j & Hj & Hjk) | Hs].
        -- apply elem_of_cons in Hj. destruct Hj as [-> | Hj].
           ++ right. left. congruence.
           ++ left. exists j. split; assumption.
        -- right. right. exact Hs.
Qed.

Context {image : Type} (net : image -> list Q).

(** A batch of fewer than four samples makes the inner loop raise. *)
Lemma batch_step_short (st : counters) (data : list (image * nat)) :
  (length data < 4)%nat -> batch_step net st data = None.
Proof.
  intros Hlen. unfold batch_step.
  destruct (torch_max_1 (map net data.*1)) as [[values predicted]|];
    [| reflexivity].
  cbn [mbind option_bind].
  apply (for_each_raises _ _ (length data)).
  - apply elem_of_seq. lia.
  - intros s. unfold sample_step.
    rewrite (lookup_ge_None_2 data.*2) by (rewrite length_fmap; lia).
    reflexivity.
Qed.

(** A batch of at least four samples is counted without an exception, and
    its first four labels are the ones counted. *)
Lemma batch_step_counted (seen : nat -> Prop) (st : counters)
      (data : list (image * nat)) :
  (forall img, net img <> []) ->
  Forall (fun s => (s.2 < 10)%nat) data ->
  (4 <= length data)%nat ->
  counted seen st ->
  exists st',
    batch_step net st data = Some st'
    /\ counted (fun k => k ∈ (take 4 data).*2 \/ seen k) st'.
Proof.
  intros Hnet Hlab Hlen Hst. unfold batch_step.
  destruct (torch_max_1_rows (map net data.*1)) as (r & Hr & HF).
  { apply Forall_forall. intros row Hrow.
    apply list_elem_of_fmap in Hrow. destruct Hrow as (img & -> & _).
    apply Hnet. }
  unfold torch_max_1. rewrite Hr. cbn [mbind option_bind].
  assert (Hrlen : length r = length data).
  { apply Forall2_length in HF. rewrite !length_fmap in HF. lia. }
  set (v := zip_with Nat.eqb r.*2 data.*2).
  assert (Hvlen : length v = length data).
  { unfold v. rewrite length_zip_with, !length_fmap. lia. }
  assert (Hsq : squeeze v = Vector1 v).
  { destruct v as [|b0 [|b1 v']]; simpl in *; try reflexivity; lia. }
  rewrite Hsq.
  destruct (inner_loop_counted data.*2 (Vector1 v) (seq 0 4) seen st Hst)
    as (st' & Hrun & Hc).
  { intros i Hi. apply elem_of_seq in Hi.
    destruct (lookup_lt_is_Some_2 data i) as [[img label] Hs]; [lia |].
    destruct (lookup_lt_is_Some_2 v i) as [b Hb]; [lia |].
    exists label, b. repeat split.
    - rewrite list_lookup_fmap, Hs. reflexivity.
    - apply (proj1 (Forall_lookup _ _) Hlab i _ Hs).
    - exact Hb. }
  exists st'. split; [exact Hrun |].
  eapply counted_iff; [| exact Hc].
  intros k. split.
  - intros [(i & Hi & Hik) | Hs]; [left | right; exact Hs].
    apply elem_of_seq in Hi.
    apply list_elem_of_lookup. exists i.
    rewrite list_lookup_fmap, lookup_take_lt by lia.
    rewrite <- list_lookup_fmap. exact Hik.
  - intros [Hin | Hs]; [left | right; exact Hs].
    apply list_elem_of_lookup in Hin. destruct Hin as (i & Hi).
    assert (Hi4 : (i < 4)%nat).
    { apply lookup_lt_Some in Hi. rewrite length_fmap, length_take in Hi. lia. }
    exists i. split; [apply elem_of_seq; lia |].
    rewrite list_lookup_fmap, lookup_take_lt in Hi by lia.
    rewrite list_lookup_fmap. exact Hi.
Qed.

(** The loop over the batches returns only if no batch is short. *)
Lemma class_loop_needs_full (batches : list (list (image * nat))) :
  forall st,
    is_Some (for_each (batch_step net) st batches) ->
    Forall (fun b => (4 <= length b)%nat) batches.
Proof.
  induction batches as [|b rest IH]; intros st Hsome; [constructor |].
  simpl in Hsome.
  destruct (batch_step net st b) as [st'|] eqn:Hb;
    [| destruct Hsome; discriminate].
  constructor.
  - destruct (Nat.lt_ge_cases (length b) 4) as [Hlt | Hge]; [| exact Hge].
    rewrite batch_step_short in Hb by exact Hlt. discriminate.
  - apply (IH st'). exact Hsome.
Qed.

(** Over full batches the loop returns, having counted the first four
    labels of every batch. *)
Lemma class_loop_counted (batches : list (list (image * nat))) :
  (forall img, net img <> []) ->
  Forall (Forall (fun s => (s.2 < 10)%nat)) batches ->
  Forall (fun b => (4 <= length b)%nat) batches ->
  forall seen st,
    counted seen st ->
    exists st',
      for_each (batch_step net) st batches = Some st'
      /\ counted (fun k => k ∈ (concat (take 4 <$> batches)).*2 \/ seen k) st'.
Proof.
  intros Hnet Hlab Hfull.
  induction batches as [|b rest IH]; intros seen st Hst.
  - exists st. split; [reflexivity |].
    eapply counted_iff; [| exact Hst].
    intros k. split; [tauto |]. intros [H | H]; [inversion H | exact H].
  - inversion Hlab as [|? ? Hb Hrest]; subst.
    inversion Hfull as [|? ? Hlen Hfullrest]; subst.
    destruct (batch_step_counted seen st b Hnet Hb Hlen Hst) as (st1 & Hs1 & Hc1).
    destruct (IH Hrest Hfullrest _ st1 Hc1) as (st' & Hs' & Hc').
    exists st'. split.
    + simpl. rewrite Hs1. exact Hs'.
    + eapply counted_iff; [| exact Hc'].
      intros k. cbn [fmap list_fmap concat]. rewrite fmap_app, elem_of_app.
      tauto.
Qed.

End ClassLoopFacts.

Section ClassLoopTheorem.
Import Predict Evaluate.
Local Open Scope Q_scope.
Context {image : Type} (net : image -> list Q).

Lemma take_full_batches {A} (batches : list (list A)) :
  Forall (fun b => length b = 4%nat) batches ->
  take 4 <$> batches = batches.
Proof.
  induction 1 as [|b rest Hb _ IH]; [reflexivity |].
  cbn [fmap list_fmap]. fold (fmap (M:=list) (take (A:=A) 4) rest).
  rewrite IH, take_ge by lia. reflexivity.
Qed.

(** The state of the counters after the loop over a test set whose size is
    a multiple of 4. *)
Lemma class_loop_testset (testset : list (image * nat)) :
  (forall img, net img <> []) ->
  Forall (fun s => (s.2 < 10)%nat) testset ->
  (length testset mod 4 = 0)%nat ->
  exists st,
    class_loop net (testloader testset) = Some st
    /\ counted (fun k => k ∈ testset.*2) st.
Proof.
  intros Hnet Hlab Hmod.
  pose proof (testloader_exact testset Hmod) as Hexact.
  destruct (class_loop_counted net (testloader testset) Hnet) with
    (seen := fun _ : nat => False) (st := counters_init)
    as (st & Hrun & Hc).
  - apply Forall_concat. rewrite testloader_concat. exact Hlab.
  - eapply Forall_impl; [exact Hexact |]. simpl. intros b ->. lia.
  - exact counted_init.
  - exists st. split; [exact Hrun |].
    eapply counted_iff; [| exact Hc].
    intros k. cbn beta.
    rewrite (take_full_batches _ Hexact), testloader_concat. tauto.
Qed.

(** C10. With labels in [0..9] and ten scores per image: the counting loop
    returns exactly when every batch of the test loader holds four samples,
    which is the case exactly when 4 divides the size of the test set, as
    it does for 10000 samples; and then, if every one of the ten classes
    occurs in the test set, every [class_total[i]] is positive and the
    final report of ten lines is printed without a division by zero (a
    class that is absent makes the report raise). *)
Theorem class_by_class_cell_safe (testset : list (image * nat)) :
  (forall img, length (net img) = 10%nat) ->
  Forall (fun s => (s.2 < 10)%nat) testset ->
  (is_Some (class_loop net (testloader testset))
   <-> Forall (fun b => (4 <= length b)%nat) (testloader testset))
  /\ (Forall (fun b => (4 <= length b)%nat) (testloader testset)
      <-> (length testset mod 4 = 0)%nat)
  /\ (length testset = 10000%nat -> (length testset mod 4 = 0)%nat)
  /\ ((length testset mod 4 = 0)%nat ->
      (forall i, (i < 10)%nat -> i ∈ testset.*2) ->
      exists st report,
        class_loop net (testloader testset) = Some st
        /\ (forall i, (i < 10)%nat ->
                      exists q, class_total st !! i = Some q /\ 0 < q)
        /\ accuracy_report st = Some report
        /\ length report = 10%nat)
  /\ (forall st i,
        class_loop net (testloader testset) = Some st ->
        (i < 10)%nat ->
        i ∉ testset.*2 ->
        class_total st !! i = Some 0 /\ accuracy_report st = None).
Proof.
  intros Hscores Hlab.
  assert (Hnet : forall img, net img <> []).
  { intros img Himg. specialize (Hscores img). rewrite Himg in Hscores.
    discriminate. }
  assert (Hok : (length testset mod 4 = 0)%nat ->
                exists st, class_loop net (testloader testset) = Some st
                           /\ counted (fun k => k ∈ testset.*2) st).
  { apply class_loop_testset; assumption. }
  split; [| split; [| split; [| split]]].
  - split.
    + apply class_loop_needs_full.
    + intros Hfull. apply testloader_full in Hfull.
      destruct (Hok Hfull) as (st & Hrun & _). exists st. exact Hrun.
  - apply testloader_full.
  - intros ->. reflexivity.
  - intros Hmod Hall.
    destruct (Hok Hmod) as (st & Hrun & Hc & Ht & Hq).
    assert (Hpos : forall i, (i < 10)%nat ->
                             exists q, class_total st !! i = Some q /\ 0 < q).
    { intros i Hi.
      destruct (lookup_lt_is_Some_2 (class_total st) i) as [q Hqi]; [lia |].
      exists q. split; [exact Hqi |].
      apply (Hq i q Hqi). apply Hall, Hi. }
    assert (Hlines : Forall (is_Some ∘ accuracy_line st) (seq 0 10)).
    { apply Forall_forall. intros i Hi. apply elem_of_seq in Hi.
      destruct (Hpos i) as (q & Hqi & Hq0); [lia |].
      destruct (lookup_lt_is_Some_2 (class_correct st) i) as [c Hci]; [lia |].
      destruct (lookup_lt_is_Some_2 classes i) as [name Hname];
        [simpl; lia |].
      unfold compose, accuracy_line.
      rewrite Hname; cbn [mbind option_bind].
      rewrite Hci; cbn [mbind option_bind].
      rewrite Hqi; cbn [mbind option_bind].
      destruct (Qeq_bool q 0) eqn:Hz; [| eexists; reflexivity].
      apply Qeq_bool_iff in Hz. rewrite Hz in Hq0.
      exfalso. apply (Qlt_irrefl 0 Hq0). }
    apply mapM_is_Some_2 in Hlines. destruct Hlines as [report Hreport].
    exists st, report.
    split; [exact Hrun |]. split; [exact Hpos |]. split; [exact Hreport |].
    apply length_mapM in Hreport. rewrite length_seq in Hreport.
    symmetry. exact Hreport.
  - intros st i Hrun Hi Hnot.
    assert (Hmod : (length testset mod 4 = 0)%nat).
    { apply testloader_full, (class_loop_needs_full net _ counters_init).
      exists st. exact Hrun. }
    destruct (Hok Hmod) as (st' & Hrun' & Hc & Ht & Hq).
    rewrite Hrun in Hrun'. injection Hrun' as <-.
    destruct (lookup_lt_is_Some_2 (class_total st) i) as [q Hqi]; [lia |].
    assert (Hq0 : q = 0) by (apply (Hq i q Hqi); exact Hnot).
    subst q. split; [exact Hqi |].
    apply mapM_None_2, Exists_exists. exists i. split.
    + apply elem_of_seq. lia.
    + destruct (lookup_lt_is_Some_2 (class_correct st) i) as [c Hci]; [lia |].
      destruct (lookup_lt_is_Some_2 classes i) as [name Hname];
        [simpl; lia |].
      unfold accuracy_line.
      rewrite Hname; cbn [mbind option_bind].
      rewrite Hci; cbn [mbind option_bind].
      rewrite Hqi; cbn [mbind option_bind].
      reflexivity.
Qed.

End ClassLoopTheorem.

Section ClassLoopWitness.
Import Predict Evaluate.
Local Open Scope Q_scope.

(** The theorem applies: twenty samples, two of every class, and a network
    that always answers with the same ten scores. *)
Lemma class_by_class_cell_safe_witness :
  (forall img, length (sample_net img) = 10%nat)
  /\ Forall (fun s => (s.2 < 10)%nat) sample_testset
  /\ (length sample_testset mod 4 = 0)%nat
  /\ (forall i, (i < 10)%nat -> i ∈ sample_testset.*2)
  /\ exists st report,
      class_loop sample_net (testloader sample_testset) = Some st
      /\ accuracy_report st = Some report
      /\ length report = 10%nat.
Proof.
  assert (H1 : forall img, length (sample_net img) = 10%nat)
    by (intros; reflexivity).
  assert (H2 : Forall (fun s => (s.2 < 10)%nat) sample_testset).
  { unfold sample_testset. simpl.
    repeat (constructor; [simpl; lia |]). constructor. }
  assert (H3 : (length sample_testset mod 4 = 0)%nat) by reflexivity.
  assert (H4 : forall i, (i < 10)%nat -> i ∈ sample_testset.*2).
  { intros i Hi. unfold sample_testset. simpl.
    do 10 (destruct i as [|i]; [set_solver |]). lia. }
  split; [exact H1 | split; [exact H2 | split; [exact H3 | split; [exact H4 |]]]].
  destruct (class_by_class_cell_safe sample_net sample_testset H1 H2)
    as (_ & _ & _ & Hgood & _).
  destruct (Hgood H3 H4) as (st & report & Hrun & _ & Hrep & Hlen).
  exists st, report. split; [exact Hrun | split; [exact Hrep | exact Hlen]].
Defined.

End ClassLoopWitness.

Section NotebookFacts.
Import Notebook.

(** Induction over expressions and statements, with the induction
    hypothesis available for every element of a nested list. *)
Lemma op_nested_ind (P : op -> Prop) :
  (forall c, P (Invoke c)) ->
  (forall iter elt, Forall P iter -> Forall P elt -> P (Comp iter elt)) ->
  forall o, P o.
Proof.
  intros HI HC. fix IH 1. intros [c | iter elt].
  - apply HI.
  - apply HC.
    + induction iter as [|o iter IHl]; constructor; [apply IH | exact IHl].
    + induction elt as [|o elt IHl]; constructor; [apply IH | exact IHl].
Qed.

Lemma stmt_nested_ind (P : stmt -> Prop) :
  (forall m, P (Import m)) ->
  (forall l, P (Magic l)) ->
  (forall t v, P (Assign t v)) ->
  (forall v, P (Expr v)) ->
  (forall v, P (Return v)) ->
  (forall test body orelse,
      Forall P body -> Forall P orelse -> P (If test body orelse)) ->
  (forall t iter body, Forall P body -> P (For t iter body)) ->
  (forall item body, Forall P body -> P (With item body)) ->
  (forall body handler,
      Forall P body -> Forall P handler -> P (Try body handler)) ->
  (forall v, P (Await v)) ->
  (forall n body, Forall P body -> P (FunctionDef n body)) ->
  (forall n body, Forall P body -> P (ClassDef n body)) ->
  forall s, P s.
Proof.
  intros HImport HMagic HAssign HExpr HReturn HIf HFor HWith HTry HAwait
         HFun HClass.
  fix IH 1.
  assert (Hall : forall l, Forall P l).
  { intros l. induction l as [|s l IHl]; constructor; [apply IH | exact IHl]. }
  intros [m | l | t v | v | v | test body orelse | t iter body | item body
          | body handler | v | n body | n body].
  - apply HImport.
  - apply HMagic.
  - apply HAssign.
  - apply HExpr.
  - apply HReturn.
  - apply HIf; apply Hall.
  - apply HFor; apply Hall.
  - apply HWith; apply Hall.
  - apply HTry; apply Hall.
  - apply HAwait.
  - apply HFun; apply Hall.
  - apply HClass; apply Hall.
Qed.

End NotebookFacts.

Section RunFrame.
Import Notebook.

(** A relation between the world before and the world after that every
    permitted call respects, that a failure of the cell's own operations
    respects, and that composes. *)
Context (L : library) (R : world -> world -> Prop) (permitted : call -> Prop).
Hypothesis R_refl : forall w, R w w.
Hypothesis R_trans : forall w1 w2 w3, R w1 w2 -> R w2 w3 -> R w1 w3.
Hypothesis R_perform :
  forall c w, permitted c -> R w (world_of (perform L c w)).
Hypothesis R_check : forall w, R w (world_of (check L w)).

Lemma seq_all_frame {A} (run : A -> world -> result) (l : list A) :
  Forall (fun a => forall w, R w (world_of (run a w))) l ->
  forall w, R w (world_of (seq_all run l w)).
Proof.
  induction 1 as [|a rest Ha _ IH]; intros w; simpl; [apply R_refl |].
  specialize (Ha w). destruct (run a w) as [w' | e w']; simpl in *.
  - eapply R_trans; [exact Ha | apply IH].
  - exact Ha.
Qed.

Lemma repeat_body_frame (body : world -> result) :
  (forall w, R w (world_of (body w))) ->
  forall n w, R w (world_of (repeat_body n body w)).
Proof.
  intros Hbody. induction n as [|n IH]; intros w; simpl; [apply R_refl |].
  specialize (Hbody w). destruct (body w) as [w' | e w']; simpl in *.
  - eapply R_trans; [exact Hbody | apply IH].
  - exact Hbody.
Qed.

Lemma and_then_frame (r : result) (k : world -> result) (w : world) :
  R w (world_of r) ->
  (forall w', R w' (world_of (k w'))) ->
  R w (world_of (and_then r k)).
Proof.
  intros Hr Hk. destruct r as [w' | e w']; simpl in *; [| exact Hr].
  eapply R_trans; [exact Hr | apply Hk].
Qed.

Lemma eval_op_frame (o : op) :
  Forall permitted (op_calls o) ->
  forall w, R w (world_of (eval_op L o w)).
Proof.
  induction o as [c | iter elt IHiter IHelt] using op_nested_ind;
    intros Hcalls w.
  - cbn [eval_op]. apply and_then_frame; [apply R_check |].
    intros w'. apply R_perform. inversion Hcalls; assumption.
  - cbn [op_calls] in Hcalls. apply Forall_app in Hcalls.
    destruct Hcalls as [Hiter Helt].
    apply Forall_flat_map in Hiter, Helt.
    cbn [eval_op]. apply and_then_frame.
    + apply seq_all_frame.
      apply Forall_forall. intros o Ho.
      apply (proj1 (Forall_forall _ _) IHiter o Ho).
      apply (proj1 (Forall_forall _ _) Hiter o Ho).
    + intros w'. apply repeat_body_frame. intros w''.
      apply seq_all_frame.
      apply Forall_forall. intros o Ho.
      apply (proj1 (Forall_forall _ _) IHelt o Ho).
      apply (proj1 (Forall_forall _ _) Helt o Ho).
Qed.

Lemma eval_frame (os : list op) :
  Forall permitted (ops_calls os) ->
  forall w, R w (world_of (eval L os w)).
Proof.
  intros Hcalls w. apply Forall_flat_map in Hcalls.
  unfold eval. apply and_then_frame; [| exact R_check].
  apply seq_all_frame.
  eapply Forall_impl; [exact Hcalls |].
  intros o Ho. apply eval_op_frame. exact Ho.
Qed.

Lemma block_frame (body : list stmt) :
  Forall (fun s => Forall permitted (stmt_calls s) ->
                   forall w, R w (world_of (exec L s w))) body ->
  Forall permitted (flat_map stmt_calls body) ->
  forall w, R w (world_of (seq_all (exec L) body w)).
Proof.
  intros IH Hcalls. apply Forall_flat_map in Hcalls.
  apply seq_all_frame.
  apply Forall_forall. intros s Hs.
  apply (proj1 (Forall_forall _ _) IH s Hs).
  apply (proj1 (Forall_forall _ _) Hcalls s Hs).
Qed.

Lemma exec_frame (s : stmt) :
  Forall permitted (stmt_calls s) ->
  forall w, R w (world_of (exec L s w)).
Proof.
  induction s as [m | l | t v | v | v | test body orelse IHb IHo
                  | t iter body IHb | item body IHb | body handler IHb IHh
                  | v | n body IHb | n body IHb] using stmt_nested_ind;
    intros Hcalls w; cbn [exec stmt_calls] in *.
  - apply R_perform. inversion Hcalls; assumption.
  - apply R_perform. inversion Hcalls; assumption.
  - apply eval_frame; assumption.
  - apply eval_frame; assumption.
  - apply eval_frame; assumption.
  - apply Forall_app in Hcalls. destruct Hcalls as [Htest Hrest].
    apply Forall_app in Hrest. destruct Hrest as [Hbody Horelse].
    apply and_then_frame; [apply eval_frame; assumption |].
    intros w'. destruct (truth L (events w')).
    + apply block_frame; assumption.
    + apply block_frame; assumption.
  - apply Forall_app in Hcalls. destruct Hcalls as [Hiter Hbody].
    apply and_then_frame; [apply eval_frame; assumption |].
    intros w'. apply repeat_body_frame. intros w''.
    apply block_frame; assumption.
  - apply Forall_app in Hcalls. destruct Hcalls as [Hitem Hbody].
    apply and_then_frame; [apply eval_frame; assumption |].
    intros w'. apply block_frame; assumption.
  - apply Forall_app in Hcalls. destruct Hcalls as [Hbody Hhandler].
    pose proof (block_frame body IHb Hbody w) as Hb.
    destruct (seq_all (exec L) body w) as [w' | e w']; simpl in *;
      [exact Hb |].
    eapply R_trans; [exact Hb |].
    apply block_frame; assumption.
  - apply eval_frame; assumption.
  - apply R_refl.
  - apply R_refl.
Qed.

Lemma run_cell_frame (c : cell) :
  Forall permitted (cell_calls c) ->
  forall w, R w (world_of (run_cell L c w)).
Proof.
  intros Hcalls. apply block_frame; [| exact Hcalls].
  apply Forall_forall. intros s _. apply exec_frame.
Qed.

End RunFrame.

Section Propagation.
Import Notebook.

Lemma propagates_normal (w : world) : propagates w (Normal w).
Proof. exists []. split; [symmetry; apply app_nil_r | constructor]. Qed.

Lemma propagates_perform (L : library) (c : call) (w : world) :
  propagates w (perform L c w).
Proof.
  unfold perform.
  destruct (respond L c (events w)) as [| cat | e] eqn:Ho;
    exists [Called c (respond L c (events w))]; rewrite Ho;
    (split; [reflexivity |]).
  - repeat constructor.
  - repeat constructor.
  - exists [], c. split; [reflexivity | constructor].
Qed.

Lemma propagates_check (L : library) (w : world) :
  propagates w (check L w).
Proof.
  unfold check. destruct (fault L (events w)) as [e |].
  - exists [Called own_operation (Raises e)]. split; [reflexivity |].
    exists [], own_operation. split; [reflexivity | constructor].
  - apply propagates_normal.
Qed.

Lemma propagates_and_then (w : world) (r : result) (k : world -> result) :
  propagates w r ->
  (forall w', propagates w' (k w')) ->
  propagates w (and_then r k).
Proof.
  intros (new1 & Hev1 & Hnew1) Hk.
  destruct r as [w1 | e w1]; cbn [and_then world_of] in *.
  - destruct (Hk w1) as (new2 & Hev2 & Hnew2).
    exists (new1 ++ new2). split.
    + rewrite Hev2, Hev1, app_assoc. reflexivity.
    + destruct (k w1) as [w2 | e w2].
      * apply Forall_app. split; assumption.
      * destruct Hnew2 as (pre & c & -> & Hpre).
        exists (new1 ++ pre), c. split.
        -- rewrite app_assoc. reflexivity.
        -- apply Forall_app. split; assumption.
  - exists new1. split; assumption.
Qed.

Lemma propagates_seq_all {A} (run : A -> world -> result) (l : list A) :
  Forall (fun a => forall w, propagates w (run a w)) l ->
  forall w, propagates w (seq_all run l w).
Proof.
  induction 1 as [|a rest Ha _ IH]; intros w; cbn [seq_all].
  - apply propagates_normal.
  - change (propagates w (and_then (run a w) (seq_all run rest))).
    apply propagates_and_then; [apply Ha | exact IH].
Qed.

Lemma propagates_repeat_body (body : world -> result) :
  (forall w, propagates w (body w)) ->
  forall n w, propagates w (repeat_body n body w).
Proof.
  intros Hbody. induction n as [|n IH]; intros w; cbn [repeat_body].
  - apply propagates_normal.
  - change (propagates w (and_then (body w) (repeat_body n body))).
    apply propagates_and_then; [apply Hbody | exact IH].
Qed.

Lemma propagates_eval_op (L : library) (o : op) :
  forall w, propagates w (eval_op L o w).
Proof.
  induction o as [c | iter elt IHiter IHelt] using op_nested_ind; intros w.
  - cbn [eval_op]. apply propagates_and_then; [apply propagates_check |].
    intros w'. apply propagates_perform.
  - cbn [eval_op]. apply propagates_and_then.
    + apply propagates_seq_all. exact IHiter.
    + intros w'. apply propagates_repeat_body. intros w''.
      apply propagates_seq_all. exact IHelt.
Qed.

Lemma propagates_eval (L : library) (os : list op) (w : world) :
  propagates w (eval L os w).
Proof.
  unfold eval. apply propagates_and_then.
  - apply propagates_seq_all, Forall_forall.
    intros o _. apply propagates_eval_op.
  - intros w'. apply propagates_check.
Qed.

Lemma propagates_block (L : library) (body : list stmt) :
  Forall (fun s => handler_free s = true ->
                   forall w, propagates w (exec L s w)) body ->
  forallb handler_free body = true ->
  forall w, propagates w (seq_all (exec L) body w).
Proof.
  intros IH Hfree. apply propagates_seq_all.
  apply Forall_forall. intros s Hs.
  apply (proj1 (Forall_forall _ _) IH s Hs).
  apply (proj1 (forallb_forall _ _) Hfree).
  apply list_elem_of_In. exact Hs.
Qed.

(** Without a [try] in the statement, an exception raised anywhere inside
    it leaves the statement. *)
Lemma propagates_exec (L : library) (s : stmt) :
  handler_free s = true ->
  forall w, propagates w (exec L s w).
Proof.
  induction s as [m | l | t v | v | v | test body orelse IHb IHo
                  | t iter body IHb | item body IHb | body handler IHb IHh
                  | v | n body IHb | n body IHb] using stmt_nested_ind;
    intros Hfree w; cbn [exec handler_free] in *.
  - apply propagates_perform.
  - apply propagates_perform.
  - apply propagates_eval.
  - apply propagates_eval.
  - apply propagates_eval.
  - apply andb_true_iff in Hfree. destruct Hfree as [Hb Ho].
    apply propagates_and_then; [apply propagates_eval |].
    intros w'. destruct (truth L (events w')).
    + apply propagates_block; assumption.
    + apply propagates_block; assumption.
  - apply propagates_and_then; [apply propagates_eval |].
    intros w'. apply propagates_repeat_body. intros w''.
    apply propagates_block; assumption.
  - apply propagates_and_then; [apply propagates_eval |].
    intros w'. apply propagates_block; assumption.
  - discriminate.
  - apply propagates_eval.
  - apply propagates_normal.
  - apply propagates_normal.
Qed.

Lemma propagates_run_cell (L : library) (c : cell) :
  forallb handler_free c = true ->
  forall w, propagates w (run_cell L c w).
Proof.
  intros Hfree. apply propagates_block; [| exact Hfree].
  apply Forall_forall. intros s _. apply propagates_exec.
Qed.

(** A handler does stop an exception: a call wrapped in a [try] lets the
    cell end normally whether it raises or not. *)
Lemma try_recovers (L : library) (c : call) (w : world) :
  exists w', run_cell L [Try [Expr [Invoke c]] []] w = Normal w'.
Proof.
  unfold run_cell. cbn [seq_all exec].
  destruct (eval L [Invoke c] w) as [w' | e w']; eexists; reflexivity.
Qed.

(** Cells run one after the other. *)
Lemma seq_all_app {A} (run : A -> world -> result) (l1 l2 : list A) (w : world) :
  seq_all run (l1 ++ l2) w = and_then (seq_all run l1 w) (seq_all run l2).
Proof.
  revert w. induction l1 as [|a l1 IH]; intros w; cbn [seq_all app and_then].
  - reflexivity.
  - destruct (run a w) as [w' | e w']; [apply IH | reflexivity].
Qed.

End Propagation.

Section Files.
Import Notebook.







End Files.

Section NotebookTheorems.
Import Notebook Source.
Local Open Scope string_scope.








Lemma notebooks_handler_free :
  forallb (forallb handler_free) (tabular ++ cnn)%list = true.
Proof. vm_compute. reflexivity. Qed.

(** A run that lets exceptions through does not stop at a warning. *)
Lemma propagates_warning_last (w : world) (r : result)
      (pre : list event) (ev : event) :
  propagates w r ->
  events (world_of r) = (events w ++ pre ++ [ev])%list ->
  is_warning ev = true ->
  exists w', r = Normal w'.
Proof.
  intros (new & Hev & Hnew) Hlast Hwarn.
  destruct r as [w' | e w']; [exists w'; reflexivity | exfalso].
  destruct Hnew as (pre' & k & -> & _).
  rewrite Hev in Hlast. apply app_inv_head in Hlast.
  apply app_inj_tail in Hlast. destruct Hlast as [_ <-].
  discriminate Hwarn.
Qed.

(** C6, as the code has it.  No cell of either notebook contains a [try];
    so, whatever the libraries do, an exception raised by a call ends the
    cell at that call with that exception, nothing of the cell runs after
    it (no retry, no recovery, no other branch), and a cell that ends
    normally met none.  A warning is not an exception: a cell never stops
    at a call that warned. *)
Theorem exceptions_leave_the_cell :
  Forall (fun c =>
            forallb handler_free c = true
            /\ (forall L w, propagates w (run_cell L c w))
            /\ (forall L w pre ev,
                   events (world_of (run_cell L c w))
                   = (events w ++ pre ++ [ev])%list ->
                   is_warning ev = true ->
                   exists w', run_cell L c w = Normal w'))
         (tabular ++ cnn)%list.
Proof.
  apply Forall_forall. intros c Hc.
  assert (Hfree : forallb handler_free c = true).
  { apply (proj1 (forallb_forall _ _) notebooks_handler_free).
    apply list_elem_of_In. exact Hc. }
  split; [exact Hfree | split].
  - intros L w. apply propagates_run_cell. exact Hfree.
  - intros L w pre ev Hlast Hwarn.
    apply (propagates_warning_last w _ pre ev); [| exact Hlast | exact Hwarn].
    apply propagates_run_cell. exact Hfree.
Qed.

(** The theorem applies: when [clf.fit] warns, the fitting cell ends
    normally. *)
Lemma exceptions_leave_the_cell_witness :
  events (world_of (run_cell not_converging tabular_fit empty_world))
  = (events empty_world ++ []
     ++ [Called (mkCall "clf.fit" ["X_train"; "y_train"] [])
                (Warns "ConvergenceWarning")])%list
  /\ exists w', run_cell not_converging tabular_fit empty_world = Normal w'.
Proof.
  assert (Hlast : events (world_of (run_cell not_converging tabular_fit
                                             empty_world))
                  = (events empty_world ++ []
                     ++ [Called (mkCall "clf.fit" ["X_train"; "y_train"] [])
                                (Warns "ConvergenceWarning")])%list)
    by reflexivity.
  split; [exact Hlast |].
  assert (Hin : tabular_fit ∈ (tabular ++ cnn)%list).
  { apply elem_of_app. left. apply list_elem_of_lookup.
    exists 7%nat. reflexivity. }
  destruct (proj1 (Forall_forall _ _) exceptions_leave_the_cell
                  tabular_fit Hin) as (_ & _ & Hwarn).
  exact (Hwarn not_converging empty_world [] _ Hlast eq_refl).
Defined.

(** The claim as the specification words it fails for a warning: when
    [clf.fit] reports a convergence warning the fitting cell still ends
    normally (whereas a missing [data.csv] does end the loading cell). *)
Lemma convergence_warning_does_not_end_the_cell :
  run_cell not_converging tabular_fit empty_world
  = Normal (mkWorld ∅ [Called (mkCall "clf.fit" ["X_train"; "y_train"] [])
                              (Warns "ConvergenceWarning")])
  /\ tabular !! 7%nat = Some tabular_fit
  /\ run_cell missing_csv tabular_load empty_world
     = Raised "FileNotFoundError"
         (mkWorld ∅ [Called (mkCall "os.path.join" ["'data.csv'"] []) Returns;
                     Called (mkCall "pd.read_csv" ["DATAPATH"] [])
                            (Raises "FileNotFoundError")]).
Proof.
  split; [| split; [reflexivity |]].
  - vm_compute. reflexivity.
  - vm_compute. reflexivity.
Qed.

End NotebookTheorems.

(* ================================================================== *)
(** * Part III: further properties of the notebooks' code *)
(* ================================================================== *)

Ltac lia_div := zify; Z.to_euclidean_division_equations; lia.

Section AnyShapeFacts.
Import Torch AnyShape.
Local Open Scope N_scope.

Lemma window_out_conv (h : N) :
  window_out h 5 1 0 1 = if h <? 5 then None else Some (h - 4).
Proof.
  unfold window_out. cbn [N.eqb orb].
  change (1 * (5 - 1) + 1) with 5. rewrite N.mul_0_r, N.add_0_r.
  destruct (N.ltb_spec h 5); [reflexivity |].
  f_equal. rewrite N.div_1_r. lia.
Qed.

Lemma window_out_pool (h : N) :
  window_out h 2 2 0 1 = if h <? 2 then None else Some (h / 2).
Proof.
  unfold window_out. cbn [N.eqb orb].
  change (1 * (2 - 1) + 1) with 2. rewrite N.mul_0_r, N.add_0_r.
  destruct (N.ltb_spec h 2); [reflexivity |].
  f_equal. lia_div.
Qed.

Lemma conv1_shape (B C H W : N) :
  Conv2d_forward (conv1 net) [B; C; H; W]
  = if (C =? 3) && (5 <=? H) && (5 <=? W)
    then Some [B; 6; H - 4; W - 4] else None.
Proof.
  cbn [net Net_init conv1 nn_Conv2d Conv2d_forward in_channels out_channels
       kernel_size stride padding dilation].
  rewrite !window_out_conv.
  destruct (C =? 3); [| reflexivity].
  destruct (N.ltb_spec H 5), (N.leb_spec 5 H); try lia; try reflexivity.
  destruct (N.ltb_spec W 5), (N.leb_spec 5 W); try lia; reflexivity.
Qed.

Lemma conv2_shape (B C H W : N) :
  Conv2d_forward (conv2 net) [B; C; H; W]
  = if (C =? 6) && (5 <=? H) && (5 <=? W)
    then Some [B; 16; H - 4; W - 4] else None.
Proof.
  cbn [net Net_init conv2 nn_Conv2d Conv2d_forward in_channels out_channels
       kernel_size stride padding dilation].
  rewrite !window_out_conv.
  destruct (C =? 6); [| reflexivity].
  destruct (N.ltb_spec H 5), (N.leb_spec 5 H); try lia; try reflexivity.
  destruct (N.ltb_spec W 5), (N.leb_spec 5 W); try lia; reflexivity.
Qed.

Lemma pool_shape (B C H W : N) :
  MaxPool2d_forward (pool net) (relu [B; C; H; W])
  = if (2 <=? H) && (2 <=? W) then Some [B; C; H / 2; W / 2] else None.
Proof.
  cbn [net Net_init pool nn_MaxPool2d MaxPool2d_forward relu pool_kernel
       pool_stride].
  rewrite !window_out_pool.
  destruct (N.ltb_spec H 2), (N.leb_spec 2 H); try lia; try reflexivity.
  destruct (N.ltb_spec W 2), (N.leb_spec 2 W); try lia; reflexivity.
Qed.

Lemma view_rows_shape (B s t : N) :
  view_rows (16 * 5 * 5) [B; 16; s; t]
  = if (B * (16 * (s * t))) mod 400 =? 0
    then Some [B * (16 * (s * t)) / 400; 400] else None.
Proof.
  unfold view_rows. rewrite numel_batch.
  change (16 * 5 * 5) with 400.
  replace (B * (16 * s * t)) with (B * (16 * (s * t))) by lia.
  reflexivity.
Qed.

Lemma classifier_shape (n : N) :
  (x ← Linear_forward (fc1 net) [n; 400];
   x ← Linear_forward (fc2 net) (relu x);
   Linear_forward (fc3 net) (relu x)) = Some [n; 10].
Proof. reflexivity. Qed.

(** The shape [Net.forward] returns, or its failure, for every
    four-dimensional input. *)
Lemma forward_closed_form (B C H W : N) :
  forward net [B; C; H; W]
  = if (C =? 3) && (16 <=? H) && (16 <=? W) then
      if (B * features_per_image H W) mod 400 =? 0
      then Some [B * features_per_image H W / 400; 10]
      else None
    else None.
Proof.
  unfold forward, features_per_image, feature_side.
  rewrite conv1_shape.
  destruct (N.eqb_spec C 3) as [-> | HC]; [| reflexivity].
  cbn [andb].
  destruct (N.leb_spec 5 H) as [H5 | H5]; cbn [andb];
    [| destruct (N.leb_spec 16 H); [lia | reflexivity]].
  destruct (N.leb_spec 5 W) as [W5 | W5]; cbn [andb mbind option_bind];
    [| destruct (N.leb_spec 16 H), (N.leb_spec 16 W); try reflexivity; lia].
  rewrite pool_shape.
  destruct (N.leb_spec 2 (H - 4)) as [H2 | H2]; cbn [andb];
    [| destruct (N.leb_spec 16 H); [lia | reflexivity]].
  destruct (N.leb_spec 2 (W - 4)) as [W2 | W2]; cbn [andb mbind option_bind];
    [| destruct (N.leb_spec 16 H), (N.leb_spec 16 W); try reflexivity; lia].
  rewrite conv2_shape. cbn [N.eqb Pos.eqb andb].
  destruct (N.leb_spec 5 ((H - 4) / 2)) as [H3 | H3]; cbn [andb];
    [| destruct (N.leb_spec 16 H); [lia_div | reflexivity]].
  destruct (N.leb_spec 5 ((W - 4) / 2)) as [W3 | W3];
    cbn [andb mbind option_bind];
    [| destruct (N.leb_spec 16 H), (N.leb_spec 16 W);
       try reflexivity; lia_div].
  rewrite pool_shape.
  destruct (N.leb_spec 2 ((H - 4) / 2 - 4)) as [H4 | H4]; cbn [andb];
    [| destruct (N.leb_spec 16 H); [lia_div | reflexivity]].
  destruct (N.leb_spec 2 ((W - 4) / 2 - 4)) as [W4 | W4];
    cbn [andb mbind option_bind];
    [| destruct (N.leb_spec 16 H), (N.leb_spec 16 W);
       try reflexivity; lia_div].
  destruct (N.leb_spec 16 H); [| lia_div].
  destruct (N.leb_spec 16 W); [| lia_div].
  rewrite view_rows_shape.
  destruct (_ mod 400 =? 0); [| reflexivity].
  cbn [mbind option_bind].
  apply classifier_shape.
Qed.

(** X1. On a four-dimensional input [B; C; H; W], [Net.forward] returns a
    shape only when there are 3 channels, height and width are at least
    16, and the total number of features is a multiple of 400; for a batch
    that is not empty it then does return, and the result has 10 columns
    and as many rows as the features fill, none being dropped.  Every
    other four-dimensional input makes it raise.  (Inputs of another rank
    are not covered by this statement.) *)
Theorem forward_returns_iff :
  (forall B C H W out,
      forward net [B; C; H; W] = Some out ->
      C = 3 /\ 16 <= H /\ 16 <= W
      /\ (B * features_per_image H W) mod 400 = 0
      /\ out = [B * features_per_image H W / 400; 10]
      /\ (B * features_per_image H W / 400) * 400
         = B * features_per_image H W)
  /\ (forall B H W,
        0 < B -> 16 <= H -> 16 <= W ->
        (B * features_per_image H W) mod 400 = 0 ->
        forward net [B; 3; H; W]
        = Some [B * features_per_image H W / 400; 10]).
Proof.
  split.
  - intros B C H W out Hout.
    rewrite forward_closed_form in Hout.
    destruct (N.eqb_spec C 3) as [-> | HC]; [| discriminate Hout].
    destruct (N.leb_spec 16 H) as [HH | HH]; [| discriminate Hout].
    destruct (N.leb_spec 16 W) as [HW | HW]; [| discriminate Hout].
    cbn [andb] in Hout.
    destruct (N.eqb_spec ((B * features_per_image H W) mod 400) 0)
      as [Hmod | Hmod]; [| discriminate Hout].
    injection Hout as <-.
    repeat split; try assumption.
    pose proof (N.div_mod (B * features_per_image H W) 400) as Hdm.
    rewrite Hmod in Hdm. lia.
  - intros B H W _ HH HW Hmod.
    rewrite forward_closed_form.
    destruct (N.leb_spec 16 H); [| lia].
    destruct (N.leb_spec 16 W); [| lia].
    cbn [N.eqb Pos.eqb andb]. rewrite Hmod. reflexivity.
Qed.

(** The theorem applies to one CIFAR-10 image. *)
Lemma forward_returns_iff_witness :
  0 < 1
  /\ 16 <= 32
  /\ (1 * features_per_image 32 32) mod 400 = 0
  /\ forward net [1; 3; 32; 32]
     = Some [1 * features_per_image 32 32 / 400; 10].
Proof.
  assert (H1 : 0 < 1) by lia.
  assert (H16 : 16 <= 32) by lia.
  assert (Hmod : (1 * features_per_image 32 32) mod 400 = 0) by reflexivity.
  split; [exact H1 | split; [exact H16 | split; [exact Hmod |]]].
  exact (proj2 forward_returns_iff 1 32 32 H1 H16 H16 Hmod).
Defined.

(** X2. [x.view(-1, 16 * 5 * 5)] keeps the batch size only when the two
    feature-map sides multiply to 25: for square images, exactly for sides
    32 to 35.  Other sizes are not rejected when the features still fill
    rows of 400: a batch of [B > 0] images of 52 x 52 pixels comes out as
    [4 * B] rows of scores. *)
Theorem forward_keeps_batch_iff :
  (forall B H W,
      0 < B ->
      (forward net [B; 3; H; W] = Some [B; 10]
       <-> 16 <= H /\ 16 <= W /\ feature_side H * feature_side W = 25))
  /\ (forall B S,
        0 < B ->
        (forward net [B; 3; S; S] = Some [B; 10] <-> 32 <= S <= 35))
  /\ (forall B, 0 < B -> forward net [B; 3; 52; 52] = Some [4 * B; 10]).
Proof.
  assert (Hgen : forall B H W,
             0 < B ->
             (forward net [B; 3; H; W] = Some [B; 10]
              <-> 16 <= H /\ 16 <= W
                  /\ feature_side H * feature_side W = 25)).
  { intros B H W HB. rewrite forward_closed_form.
    unfold features_per_image.
    set (p := feature_side H * feature_side W).
    destruct (N.leb_spec 16 H) as [HH | HH];
      [| cbn [N.eqb Pos.eqb andb]; split; [discriminate | lia]].
    destruct (N.leb_spec 16 W) as [HW | HW];
      [| cbn [N.eqb Pos.eqb andb]; split; [discriminate | lia]].
    cbn [N.eqb Pos.eqb andb].
    pose proof (N.div_mod (B * (16 * p)) 400) as Hdm.
    destruct (N.eqb_spec ((B * (16 * p)) mod 400) 0) as [Hmod | Hmod].
    - rewrite Hmod in Hdm. split.
      + intros [= Hdiv]. rewrite Hdiv in Hdm. repeat split; try assumption. nia.
      + intros (_ & _ & Hp). f_equal. f_equal. rewrite Hp in *. lia.
    - split; [discriminate |].
      intros (_ & _ & Hp). exfalso. apply Hmod. rewrite Hp.
      replace (B * (16 * 25)) with (B * 400) by lia.
      apply N.Div0.mod_mul. }
  split; [exact Hgen |]. split.
  - intros B S HB. rewrite (Hgen B S S HB). unfold feature_side.
    split.
    + intros (HS & _ & Hp).
      assert (Hfive : ((S - 4) / 2 - 4) / 2 = 5).
      { set (s := ((S - 4) / 2 - 4) / 2) in *.
        assert (s < 6) by nia. assert (4 < s) by nia. lia. }
      lia_div.
    + intros HS.
      assert (Hfive : ((S - 4) / 2 - 4) / 2 = 5) by lia_div.
      rewrite Hfive. lia.
  - intros B _. rewrite forward_closed_form.
    change (features_per_image 52 52) with 1600.
    cbn [N.eqb Pos.eqb N.leb N.compare Pos.compare Pos.compare_cont andb].
    replace (B * 1600) with (4 * B * 400) by lia.
    rewrite N.Div0.mod_mul, N.div_mul by discriminate. reflexivity.
Qed.

(** The theorem applies: one image of 33 x 33 pixels keeps its batch size. *)
Lemma forward_keeps_batch_iff_witness :
  0 < 1 /\ 32 <= 33 <= 35 /\ forward net [1; 3; 33; 33] = Some [1; 10].
Proof.
  assert (H1 : 0 < 1) by lia.
  assert (H2 : 32 <= 33 <= 35) by lia.
  split; [exact H1 | split; [exact H2 |]].
  exact (proj2 (proj1 (proj2 forward_keeps_batch_iff) 1 33 H1) H2).
Defined.

End AnyShapeFacts.

Section AccuracyFacts.
Import Predict Evaluate Accuracy.
Local Open Scope Q_scope.

(** The integer part of a percentage of two integer counts. *)
Lemma int_part_percent (c t : Z) :
  (0 <= c <= t)%Z -> (0 < t)%Z ->
  int_part (inject_Z (100 * c) / inject_Z t) = (100 * c / t)%Z
  /\ (0 <= 100 * c / t <= 100)%Z.
Proof.
  intros Hc Ht. split.
  - destruct t as [|p|p]; try lia.
    unfold int_part, Qdiv, Qinv, Qmult, inject_Z. cbn [Qnum Qden].
    rewrite Pos.mul_1_l, Z.mul_1_r.
    apply Z.quot_div_nonneg; lia.
  - split.
    + apply Z.div_pos; lia.
    + apply Z.div_le_upper_bound; lia.
Qed.

Context {image : Type} (net : image -> list Q).

Lemma hits_app (a b : list (image * nat)) :
  hits net (a ++ b) = (hits net a + hits net b)%nat.
Proof. unfold hits. rewrite filter_app, length_app. reflexivity. Qed.

Lemma hits_le (samples : list (image * nat)) :
  (hits net samples <= length samples)%nat.
Proof. unfold hits. apply length_filter. Qed.

(** What [(predicted == labels).sum()] counts. *)
Lemma predicted_count (data : list (image * nat)) :
  forall r,
    Forall2 (fun row vk => argmax row = Some vk.2 /\ row !! vk.2 = Some vk.1)
            (map net data.*1) r ->
    count_true (zip_with Nat.eqb r.*2 data.*2) = hits net data.
Proof.
  induction data as [|[img label] data IH]; intros r HF.
  - inversion HF; subst. reflexivity.
  - inversion HF as [|row [v k] rows r' [Hk _] HF']; subst.
    cbn [fmap list_fmap snd fst zip_with] in *.
    specialize (IH r' HF').
    unfold count_true, hits in *.
    rewrite (filter_cons _ (Nat.eqb k label)), (filter_cons _ (img, label)).
    assert (Hiff : (k =? label)%nat = true <-> hit net (img, label)).
    { unfold hit. cbn [fst snd]. rewrite Hk, Nat.eqb_eq.
      split; [intros ->; reflexivity | intros [= ->]; reflexivity]. }
    destruct (decide ((k =? label)%nat = true)) as [Heq | Hne],
             (decide (hit net (img, label))) as [Hh | Hnh].
    + cbn [length]. f_equal. exact IH.
    + exfalso. apply Hnh, Hiff, Heq.
    + exfalso. apply Hne, Hiff, Hh.
    + exact IH.
Qed.

Lemma accuracy_step_spec (st : tally) (data : list (image * nat)) :
  (forall img, net img <> []) ->
  accuracy_step net st data
  = Some (mkTally (correct st + Z.of_nat (hits net data))
                  (total st + Z.of_nat (length data))).
Proof.
  intros Hnet. unfold accuracy_step.
  destruct (torch_max_1_rows (map net data.*1)) as (r & Hr & HF).
  { apply Forall_forall. intros row Hrow.
    apply list_elem_of_fmap in Hrow. destruct Hrow as (img & -> & _).
    apply Hnet. }
  unfold torch_max_1. rewrite Hr. cbn [mbind option_bind].
  rewrite (predicted_count data r HF), length_fmap. reflexivity.
Qed.

Lemma accuracy_loop_spec (batches : list (list (image * nat))) :
  (forall img, net img <> []) ->
  forall st,
    for_each (accuracy_step net) st batches
    = Some (mkTally (correct st + Z.of_nat (hits net (concat batches)))
                    (total st + Z.of_nat (length (concat batches)))).
Proof.
  intros Hnet. induction batches as [|b rest IH]; intros st.
  - cbn [for_each concat hits filter length]. destruct st as [c t].
    cbn [correct total]. unfold hits. cbn.
    rewrite !Z.add_0_r. reflexivity.
  - cbn [for_each concat]. rewrite accuracy_step_spec by exact Hnet.
    cbn [mbind option_bind]. rewrite IH. cbn [correct total].
    rewrite hits_app, length_app. f_equal. f_equal; lia.
Qed.

(** X3. The accuracy cell counts every test sample, a partial last batch
    included: whatever the size of the test set, the loop ends with
    [total] equal to that size and [correct] equal to the number of samples
    whose largest score sits at their label; the percentage printed lies
    between 0 and 100, and only an empty test set makes the final division
    raise. *)
Theorem accuracy_cell_counts (testset : list (image * nat)) :
  (forall img, net img <> []) ->
  exists st,
    accuracy_loop net (testloader testset) = Some st
    /\ total st = Z.of_nat (length testset)
    /\ correct st = Z.of_nat (hits net testset)
    /\ (0 <= correct st <= total st)%Z
    /\ (testset = [] -> accuracy_percent st = None)
    /\ (testset <> [] ->
        accuracy_percent st = Some (100 * correct st / total st)%Z
        /\ (0 <= 100 * correct st / total st <= 100)%Z).
Proof.
  intros Hnet. unfold accuracy_loop.
  rewrite accuracy_loop_spec by exact Hnet.
  rewrite testloader_concat. cbn [correct total].
  eexists. split; [reflexivity |]. cbn [correct total].
  rewrite !Z.add_0_l.
  pose proof (hits_le testset) as Hle.
  split; [reflexivity |]. split; [reflexivity |]. split; [lia |].
  unfold accuracy_percent. cbn [correct total].
  split.
  - intros ->. reflexivity.
  - intros Hne.
    assert (Hpos : (0 < Z.of_nat (length testset))%Z).
    { destruct testset; [congruence | cbn [length]; lia]. }
    destruct (Z.eqb_spec (Z.of_nat (length testset)) 0) as [Hz | _]; [lia |].
    destruct (int_part_percent (Z.of_nat (hits net testset))
                               (Z.of_nat (length testset))) as [Hp Hb];
      [lia | exact Hpos |].
    rewrite Hp. split; [reflexivity | exact Hb].
Qed.

End AccuracyFacts.

Section AccuracyWitness.
Import Predict Evaluate Accuracy.

(** The theorem applies to the twenty-sample test set. *)
Lemma accuracy_cell_counts_witness :
  (forall img, sample_net img <> [])
  /\ exists st,
      accuracy_loop sample_net (testloader sample_testset) = Some st
      /\ total st = 20%Z.
Proof.
  assert (Hnet : forall img, sample_net img <> []) by (intros img; discriminate).
  split; [exact Hnet |].
  destruct (accuracy_cell_counts sample_net sample_testset Hnet)
    as (st & Hrun & Htotal & _).
  exists st. split; [exact Hrun | exact Htotal].
Defined.

End AccuracyWitness.

Section ClassCounts.
Import Predict Evaluate Accuracy.
Local Open Scope Q_scope.
Context {image : Type} (net : image -> list Q).

Lemma inject_Z_plus_eq (a b : Z) :
  inject_Z a + inject_Z b = inject_Z (a + b).
Proof. unfold Qplus, inject_Z. cbn [Qnum Qden]. f_equal. lia. Qed.

Lemma class_size_snoc (i : nat) (processed : list (image * nat)) s :
  class_size i (processed ++ [s])
  = (class_size i processed + if decide (s.2 = i) then 1 else 0)%nat.
Proof.
  unfold class_size. rewrite filter_app, length_app. f_equal.
  rewrite filter_cons, filter_nil. destruct (decide (s.2 = i)); reflexivity.
Qed.

Lemma class_hits_snoc (i : nat) (processed : list (image * nat)) s :
  class_hits net i (processed ++ [s])
  = (class_hits net i processed
     + if decide (s.2 = i /\ hit net s) then 1 else 0)%nat.
Proof.
  unfold class_hits. rewrite filter_app, length_app. f_equal.
  rewrite filter_cons, filter_nil.
  destruct (decide (s.2 = i /\ hit net s)); reflexivity.
Qed.

Lemma class_hits_le (i : nat) (samples : list (image * nat)) :
  (class_hits net i samples <= class_size i samples)%nat.
Proof.
  unfold class_hits, class_size.
  induction samples as [|s samples IH]; [reflexivity |].
  rewrite !filter_cons.
  destruct (decide (s.2 = i /\ hit net s)) as [[Hs _] | Hn],
           (decide (s.2 = i)) as [Hi | Hi]; cbn [length]; try lia;
    contradiction.
Qed.

Lemma tallied_init : tallied net [] counters_init.
Proof.
  split; [reflexivity | split; [reflexivity |]].
  intros i Hi. cbn [counters_init class_total class_correct].
  rewrite !lookup_replicate_2 by exact Hi. split; reflexivity.
Qed.

(** One pass through the body of [for i in range(4)] counts one more
    sample. *)
Lemma sample_step_tallied (labels : list nat) (c : squeezed)
      (processed : list (image * nat)) (st : counters)
      (j : nat) (s : image * nat) (b : bool) :
  tallied net processed st ->
  labels !! j = Some s.2 ->
  (s.2 < 10)%nat ->
  squeezed_item c j = Some b ->
  (b = true <-> hit net s) ->
  exists st',
    sample_step labels c st j = Some st'
    /\ tallied net (processed ++ [s]) st'.
Proof.
  intros (Hc & Ht & Hq) Hl Hlt Hb Hhit.
  destruct (Hq s.2 Hlt) as [Hvt Hvc].
  unfold sample_step, add_at.
  rewrite Hl; cbn [mbind option_bind].
  rewrite Hb; cbn [mbind option_bind].
  rewrite Hvc; cbn [mbind option_bind].
  rewrite Hvt; cbn [mbind option_bind].
  eexists. split; [reflexivity |].
  split; [| split]; cbn [class_correct class_total].
  - rewrite length_insert. exact Hc.
  - rewrite length_insert. exact Ht.
  - intros i Hi. rewrite class_size_snoc, class_hits_snoc.
    destruct (decide (s.2 = i)) as [<- | Hne].
    + rewrite !list_lookup_insert_eq by lia. split.
      * change 1 with (inject_Z 1). rewrite inject_Z_plus_eq.
        do 2 f_equal. lia.
      * destruct b.
        -- rewrite decide_True by (split; [reflexivity | apply Hhit; reflexivity]).
           change 1 with (inject_Z 1). rewrite inject_Z_plus_eq.
           do 2 f_equal. lia.
        -- rewrite decide_False
             by (intros [_ Hh]; apply Hhit in Hh; discriminate).
           change 0 with (inject_Z 0). rewrite inject_Z_plus_eq.
           do 2 f_equal. lia.
    + rewrite !list_lookup_insert_ne by exact Hne.
      rewrite decide_False by (intros [Heq _]; contradiction).
      rewrite !Nat.add_0_r. apply Hq. exact Hi.
Qed.

(** The inner loop over consecutive indices counts the corresponding
    samples of the batch, in order. *)
Lemma inner_loop_tallied (data : list (image * nat)) (v : list bool) :
  (forall j s, data !! j = Some s ->
               (s.2 < 10)%nat
               /\ exists b, v !! j = Some b /\ (b = true <-> hit net s)) ->
  forall m k processed st,
    (k + m <= length data)%nat ->
    tallied net processed st ->
    exists st',
      for_each (sample_step data.*2 (Vector1 v)) st (seq k m) = Some st'
      /\ tallied net (processed ++ take m (drop k data)) st'.
Proof.
  intros Hdata. induction m as [|m IH]; intros k processed st Hlen Hst.
  - exists st. split; [reflexivity |].
    rewrite take_0, app_nil_r. exact Hst.
  - destruct (lookup_lt_is_Some_2 data k) as [s Hs]; [lia |].
    destruct (Hdata k s Hs) as (Hlt & b & Hb & Hhit).
    destruct (sample_step_tallied data.*2 (Vector1 v) processed st k s b)
      as (st1 & Hs1 & Hc1); try assumption.
    { rewrite list_lookup_fmap, Hs. reflexivity. }
    destruct (IH (S k) (processed ++ [s]) st1) as (st' & Hs' & Hc');
      [lia | exact Hc1 |].
    exists st'. split.
    + cbn [seq for_each]. rewrite Hs1. exact Hs'.
    + rewrite <- app_assoc in Hc'. cbn [app] in Hc'.
      rewrite (drop_S data s k Hs). cbn [take]. exact Hc'.
Qed.

(** A full batch is counted sample by sample. *)
Lemma batch_step_tallied (processed : list (image * nat)) (st : counters)
      (data : list (image * nat)) :
  (forall img, net img <> []) ->
  Forall (fun s => (s.2 < 10)%nat) data ->
  length data = 4%nat ->
  tallied net processed st ->
  exists st',
    batch_step net st data = Some st'
    /\ tallied net (processed ++ data) st'.
Proof.
  intros Hnet Hlab Hlen Hst. unfold batch_step.
  destruct (torch_max_1_rows (map net data.*1)) as (r & Hr & HF).
  { apply Forall_forall. intros row Hrow.
    apply list_elem_of_fmap in Hrow. destruct Hrow as (img & -> & _).
    apply Hnet. }
  unfold torch_max_1. rewrite Hr. cbn [mbind option_bind].
  assert (Hrlen : length r = length data).
  { apply Forall2_length in HF. rewrite !length_fmap in HF. lia. }
  set (v := zip_with Nat.eqb r.*2 data.*2).
  assert (Hsq : squeeze v = Vector1 v).
  { assert (Hvlen : length v = 4%nat).
    { unfold v. rewrite length_zip_with, !length_fmap. lia. }
    destruct v as [|b0 [|b1 v']]; simpl in *; try reflexivity; lia. }
  rewrite Hsq.
  destruct (inner_loop_tallied data v) with
    (m := 4%nat) (k := 0%nat) (processed := processed) (st := st)
    as (st' & Hrun & Hc); [| lia | exact Hst |].
  - intros j [img label] Hs. split.
    + apply (proj1 (Forall_lookup _ _) Hlab j _ Hs).
    + destruct (lookup_lt_is_Some_2 r j) as [[val k] Hk].
      { rewrite Hrlen. eapply lookup_lt_Some. exact Hs. }
      assert (Hrow : map net data.*1 !! j = Some (net img)).
      { change (map net data.*1) with (net <$> data.*1).
        rewrite !list_lookup_fmap, Hs. reflexivity. }
      destruct (Forall2_lookup_lr _ _ _ _ _ _ HF Hrow Hk) as [Ham _].
      cbn [snd] in Ham.
      exists (Nat.eqb k label). split.
      * unfold v. rewrite lookup_zip_with, !list_lookup_fmap, Hk, Hs.
        reflexivity.
      * unfold hit. cbn [fst snd]. rewrite Ham, Nat.eqb_eq.
        split; [intros ->; reflexivity | intros [= ->]; reflexivity].
  - exists st'. split; [exact Hrun |].
    rewrite drop_0, take_ge in Hc by lia. exact Hc.
Qed.

Lemma class_loop_tallied (batches : list (list (image * nat))) :
  (forall img, net img <> []) ->
  Forall (Forall (fun s => (s.2 < 10)%nat)) batches ->
  Forall (fun b => length b = 4%nat) batches ->
  forall processed st,
    tallied net processed st ->
    exists st',
      for_each (batch_step net) st batches = Some st'
      /\ tallied net (processed ++ concat batches) st'.
Proof.
  intros Hnet Hlab Hfull.
  induction batches as [|b rest IH]; intros processed st Hst.
  - exists st. split; [reflexivity |].
    cbn [concat]. rewrite app_nil_r. exact Hst.
  - inversion Hlab as [|? ? Hb Hrest]; subst.
    inversion Hfull as [|? ? Hlen Hfullrest]; subst.
    destruct (batch_step_tallied processed st b Hnet Hb Hlen Hst)
      as (st1 & Hs1 & Hc1).
    destruct (IH Hrest Hfullrest _ st1 Hc1) as (st' & Hs' & Hc').
    exists st'. split.
    + cbn [for_each]. rewrite Hs1. exact Hs'.
    + cbn [concat]. rewrite app_assoc. exact Hc'.
Qed.

(** X4. When 4 divides the size of the test set, the class-by-class cell
    ends with [class_total[i]] equal to the number of test samples of class
    [i] and [class_correct[i]] equal to the number of those whose largest
    score sits at their label; for a class that occurs, the line printed is
    the class name with the integer part of their ratio in percent, between
    0 and 100. *)
Theorem class_by_class_cell_counts (testset : list (image * nat)) :
  (forall img, net img <> []) ->
  Forall (fun s => (s.2 < 10)%nat) testset ->
  (length testset mod 4 = 0)%nat ->
  exists st,
    class_loop net (testloader testset) = Some st
    /\ forall i name,
        classes !! i = Some name ->
        class_total st !! i
        = Some (inject_Z (Z.of_nat (class_size i testset)))
        /\ class_correct st !! i
           = Some (inject_Z (Z.of_nat (class_hits net i testset)))
        /\ (class_hits net i testset <= class_size i testset)%nat
        /\ ((0 < class_size i testset)%nat ->
            accuracy_line st i
            = Some (name, (100 * Z.of_nat (class_hits net i testset)
                           / Z.of_nat (class_size i testset))%Z)
            /\ (0 <= 100 * Z.of_nat (class_hits net i testset)
                     / Z.of_nat (class_size i testset) <= 100)%Z).
Proof.
  intros Hnet Hlab Hmod.
  destruct (class_loop_tallied (testloader testset) Hnet) with
    (processed := @nil (image * nat)) (st := counters_init)
    as (st & Hrun & Hc & Ht & Hq).
  - apply Forall_concat. rewrite testloader_concat. exact Hlab.
  - apply testloader_exact. exact Hmod.
  - apply tallied_init.
  - exists st. split; [exact Hrun |].
    rewrite testloader_concat in Hq. cbn [app] in Hq.
    intros i name Hname.
    assert (Hi : (i < 10)%nat) by (apply lookup_lt_Some in Hname; exact Hname).
    destruct (Hq i Hi) as [Hti Hci].
    pose proof (class_hits_le i testset) as Hle.
    split; [exact Hti | split; [exact Hci | split; [exact Hle |]]].
    intros Hpos.
    destruct (int_part_percent (Z.of_nat (class_hits net i testset))
                               (Z.of_nat (class_size i testset)))
      as [Hp Hb]; [lia | lia |].
    split; [| exact Hb].
    unfold accuracy_line.
    rewrite Hname; cbn [mbind option_bind].
    rewrite Hci; cbn [mbind option_bind].
    rewrite Hti; cbn [mbind option_bind].
    destruct (Qeq_bool (inject_Z (Z.of_nat (class_size i testset))) 0) eqn:Hz.
    + apply Qeq_bool_iff in Hz. unfold Qeq, inject_Z in Hz.
      cbn [Qnum Qden] in Hz. lia.
    + do 2 f_equal. rewrite <- Hp. reflexivity.
Qed.

End ClassCounts.

Section ClassCountsWitness.
Import Predict Evaluate Accuracy.

(** The theorem applies to the twenty-sample test set. *)
Lemma class_by_class_cell_counts_witness :
  (forall img, sample_net img <> [])
  /\ Forall (fun s => (s.2 < 10)%nat) sample_testset
  /\ (length sample_testset mod 4 = 0)%nat
  /\ exists st, class_loop sample_net (testloader sample_testset) = Some st.
Proof.
  assert (H1 : forall img, sample_net img <> []) by (intros img; discriminate).
  assert (H2 : Forall (fun s => (s.2 < 10)%nat) sample_testset).
  { unfold sample_testset. simpl.
    repeat (constructor; [simpl; lia |]). constructor. }
  assert (H3 : (length sample_testset mod 4 = 0)%nat) by reflexivity.
  split; [exact H1 | split; [exact H2 | split; [exact H3 |]]].
  destruct (class_by_class_cell_counts sample_net sample_testset H1 H2 H3)
    as (st & Hrun & _).
  exists st. exact Hrun.
Defined.

End ClassCountsWitness.

Section LoaderChunks.
Import Predict Evaluate FirstBatch.
Context {A : Type}.
Implicit Types (batch samples : list A).

(** The sampler cuts what it is given, after the samples already waiting,
    into consecutive pieces of [bs] samples. *)
Lemma batch_sampler_unfold (bs : nat) samples :
  forall batch,
    (length batch < bs)%nat ->
    batch_sampler bs false batch samples
    = if (length (batch ++ samples) <? bs)%nat
      then (if (0 <? length (batch ++ samples))%nat
            then [batch ++ samples] else [])
      else take bs (batch ++ samples)
           :: batch_sampler bs false [] (drop bs (batch ++ samples)).
Proof.
  induction samples as [|x rest IH]; intros batch Hlt.
  - cbn [batch_sampler]. rewrite app_nil_r.
    destruct (Nat.ltb_spec (length batch) bs); [| lia].
    destruct (0 <? length batch)%nat; reflexivity.
  - cbn [batch_sampler]. rewrite length_app. cbn [length].
    destruct (Nat.eqb_spec (length batch + 1) bs) as [Heq | Hne].
    + destruct (Nat.ltb_spec (length (batch ++ x :: rest)) bs) as [Hl | Hl].
      { rewrite length_app in Hl. cbn [length] in Hl. lia. }
      replace (batch ++ x :: rest) with ((batch ++ [x]) ++ rest)
        by (rewrite <- app_assoc; reflexivity).
      rewrite take_app_length', drop_app_length'
        by (rewrite length_app; cbn [length]; lia).
      reflexivity.
    + rewrite (IH (batch ++ [x])) by (rewrite length_app; cbn [length]; lia).
      rewrite <- app_assoc. reflexivity.
Qed.

Lemma testloader_unfold (testset : list A) :
  testloader testset
  = match testset with
    | [] => []
    | _ => take 4 testset :: testloader (drop 4 testset)
    end.
Proof.
  unfold testloader. rewrite batch_sampler_unfold by (cbn [length]; lia).
  cbn [app].
  destruct (Nat.ltb_spec (length testset) 4) as [Hlt | Hge].
  - destruct testset as [|x rest]; [reflexivity |].
    cbn [length Nat.ltb Nat.leb].
    rewrite take_ge, drop_ge by lia. reflexivity.
  - destruct testset; [cbn [length] in Hge; lia | reflexivity].
Qed.

Lemma testloader_lookup (k : nat) :
  forall testset : list A,
    testloader testset !! k
    = if (4 * k <? length testset)%nat
      then Some (take 4 (drop (4 * k) testset)) else None.
Proof.
  induction k as [|k IH]; intros testset; rewrite testloader_unfold.
  - destruct testset as [|x rest]; reflexivity.
  - destruct testset as [|x rest].
    + cbn [lookup list_lookup length]. destruct (4 * S k <? 0)%nat eqn:E;
        [apply Nat.ltb_lt in E; lia | reflexivity].
    + cbn [lookup list_lookup]. change (list_lookup k) with (lookup (M:=list (list A)) k).
      rewrite IH, length_drop, drop_drop.
      replace (4 + 4 * k)%nat with (4 * S k)%nat by lia.
      destruct (Nat.ltb_spec (4 * k) (length (x :: rest) - 4)),
               (Nat.ltb_spec (4 * S k) (length (x :: rest))); try lia;
        reflexivity.
Qed.

Lemma testloader_length (n : nat) :
  forall testset : list A,
    length testset = n ->
    length (testloader testset) = ((n + 3) / 4)%nat.
Proof.
  induction n as [n IH] using lt_wf_ind. intros testset Hn.
  rewrite testloader_unfold.
  destruct testset as [|x rest].
  - cbn [length] in *. subst n. reflexivity.
  - cbn [length]. rewrite (IH (n - 4)%nat).
    + cbn [length] in Hn.
      destruct (Nat.le_gt_cases 4 n) as [Hge | Hlt].
      * replace (n + 3)%nat with ((n - 4 + 3) + 1 * 4)%nat by lia.
        rewrite Nat.div_add by lia. lia.
      * replace (n - 4 + 3)%nat with 3%nat by lia.
        assert (Hn13 : n = 1%nat \/ n = 2%nat \/ n = 3%nat) by lia.
        destruct Hn13 as [-> | [-> | ->]]; reflexivity.
    + cbn [length] in Hn. lia.
    + rewrite length_drop. lia.
Qed.

(** X5. The test loader cuts the test set into consecutive batches of four:
    batch [k] holds the samples [4k .. 4k+3] in their original order (fewer
    in a last, partial batch), there are [ceil(n / 4)] batches for [n]
    samples, and no sample is lost, repeated or moved. *)
Theorem testloader_batches (testset : list A) :
  (forall k,
      testloader testset !! k
      = if (4 * k <? length testset)%nat
        then Some (take 4 (drop (4 * k) testset)) else None)
  /\ length (testloader testset) = ((length testset + 3) / 4)%nat
  /\ concat (testloader testset) = testset
  /\ Forall (fun b => (1 <= length b <= 4)%nat) (testloader testset).
Proof.
  split; [intros k; apply testloader_lookup |].
  split; [apply testloader_length; reflexivity |].
  split; [apply testloader_concat |].
  apply Forall_lookup. intros k b Hb.
  rewrite testloader_lookup in Hb.
  destruct (Nat.ltb_spec (4 * k) (length testset)) as [Hlt | Hge];
    [| discriminate Hb].
  injection Hb as <-. rewrite length_take, length_drop. lia.
Qed.

End LoaderChunks.

Section FirstBatchFacts.
Import Predict Evaluate FirstBatch.
Context {image : Type}.

(** X6. The cells that look at one test batch print the class names of the
    first four test samples, in order (calling [iter(testloader)] again
    starts over from the same batch); with fewer than four samples the
    indexing [labels[j]] raises, and with none [next] itself does. *)
Theorem test_batch_cell_names (testset : list (image * nat)) :
  (forall s0 s1 s2 s3 rest n0 n1 n2 n3,
      testset = s0 :: s1 :: s2 :: s3 :: rest ->
      classes !! s0.2 = Some n0 -> classes !! s1.2 = Some n1 ->
      classes !! s2.2 = Some n2 -> classes !! s3.2 = Some n3 ->
      next (testloader testset) = Some [s0; s1; s2; s3]
      /\ test_batch_cell testset = Some [n0; n1; n2; n3])
  /\ ((length testset < 4)%nat -> test_batch_cell testset = None)
  /\ (testset = [] -> next (testloader testset) = None)
  /\ (forall s, s ∈ take 4 testset -> (10 <= s.2)%nat ->
                test_batch_cell testset = None).
Proof.
  split; [| split; [| split]].
  - intros s0 s1 s2 s3 rest n0 n1 n2 n3 -> H0 H1 H2 H3.
    unfold test_batch_cell. rewrite testloader_unfold.
    cbn [next head take mbind option_bind fmap list_fmap].
    split; [reflexivity |].
    unfold label_names. cbn [seq mapM lookup list_lookup].
    cbn [mbind option_bind snd].
    rewrite H0, H1, H2, H3. reflexivity.
  - intros Hlen. unfold test_batch_cell. rewrite testloader_unfold.
    destruct testset as [|s0 rest]; [reflexivity |].
    cbn [next head mbind option_bind].
    unfold label_names. apply mapM_None_2, Exists_exists.
    exists (length (s0 :: rest)). split.
    + apply elem_of_seq. lia.
    + rewrite take_ge by lia.
      rewrite (lookup_ge_None_2 (s0 :: rest).*2) by (rewrite length_fmap; lia).
      reflexivity.
  - intros ->. reflexivity.
  - intros s Hs Hbig. unfold test_batch_cell. rewrite testloader_unfold.
    destruct testset as [|s0 rest]; [inversion Hs |].
    cbn [next head mbind option_bind].
    apply list_elem_of_lookup in Hs. destruct Hs as [j Hj].
    assert (Hj4 : (j < 4)%nat).
    { apply lookup_lt_Some in Hj. rewrite length_take in Hj. lia. }
    unfold label_names. apply mapM_None_2, Exists_exists.
    exists j. split; [apply elem_of_seq; lia |].
    rewrite list_lookup_fmap, Hj. cbn [fmap option_fmap option_map mbind option_bind].
    apply lookup_ge_None_2. cbn [classes length]. exact Hbig.
Qed.

End FirstBatchFacts.

Section FirstBatchWitness.
Import Predict Evaluate FirstBatch.

(** The theorem applies to the twenty-sample test set, whose first four
    labels are 0, 1, 2 and 3. *)
Lemma test_batch_cell_names_witness :
  test_batch_cell sample_testset
  = Some ["plane"; "car"; "bird"; "cat"]%string.
Proof.
  exact (proj2 (proj1 (test_batch_cell_names sample_testset)
                      (0, 0)%nat (1, 1)%nat (2, 2)%nat (3, 3)%nat
                      (map (fun i => (i, i mod 10)%nat) (seq 4 16))
                      "plane"%string "car"%string "bird"%string "cat"%string
                      eq_refl eq_refl eq_refl eq_refl eq_refl)).
Defined.

End FirstBatchWitness.

Section TrainingFacts.
Import Training.
Local Open Scope Q_scope.

Lemma succ_mod_next (i p r : nat) :
  (i mod p = r -> S r < p -> S i mod p = S r)%nat.
Proof.
  intros Hi Hr. replace (S i) with (i + 1)%nat by lia.
  rewrite <- Nat.Div0.add_mod_idemp_l, Hi.
  replace (r + 1)%nat with (S r) by lia. apply Nat.mod_small. exact Hr.
Qed.

Lemma succ_mod_wrap (i p r : nat) :
  (i mod p = r -> S r = p -> S i mod p = 0)%nat.
Proof.
  intros Hi Hr. replace (S i) with (i + 1)%nat by lia.
  rewrite <- Nat.Div0.add_mod_idemp_l, Hi.
  replace (r + 1)%nat with p by lia. apply Nat.Div0.mod_same.
Qed.

(** From batch [i], [r] batches after the last report: nothing is printed
    until the group of 2000 is complete, and then the sum of the whole
    group is what is divided by 2000. *)
Lemma epoch_loop_group (epoch : nat) (losses : list Q) :
  forall i acc r m,
    (i mod 2000 = r)%nat ->
    (r + S m = 2000)%nat ->
    epoch_loop epoch i acc losses
    = if (length losses <=? m)%nat then []
      else mkReport (epoch + 1) (i + S m)
                    (fold_left Qplus (take (S m) losses) acc / 2000)
           :: epoch_loop epoch (i + S m) 0 (drop (S m) losses).
Proof.
  induction losses as [|loss rest IH]; intros i acc r m Hi Hr.
  - reflexivity.
  - cbn [epoch_loop].
    destruct (Nat.eqb_spec (i mod 2000) 1999) as [Hlast | Hnot].
    + assert (m = 0%nat) by lia. subst m.
      change (length (loss :: rest) <=? 0)%nat with false.
      change (take 1 (loss :: rest)) with (loss :: take 0 rest).
      change (drop 1 (loss :: rest)) with (drop 0 rest).
      rewrite take_0, drop_0. cbn [fold_left].
      replace (S i) with (i + 1)%nat by lia. reflexivity.
    + destruct m as [|m]; [lia |].
      rewrite (IH (S i) (acc + loss) (S r) m);
        [| apply succ_mod_next; [exact Hi | lia] | lia].
      change (length (loss :: rest) <=? S m)%nat
        with (length rest <=? m)%nat.
      change (take (S (S m)) (loss :: rest)) with (loss :: take (S m) rest).
      change (drop (S (S m)) (loss :: rest)) with (drop (S m) rest).
      cbn [fold_left].
      replace (S i + S m)%nat with (i + S (S m))%nat by lia.
      reflexivity.
Qed.

Lemma epoch_loop_reports (epoch : nat) (n : nat) :
  forall (losses : list Q) (k : nat),
    (length losses / 2000 = n)%nat ->
    epoch_loop epoch (2000 * k) 0 losses
    = map (fun j => mkReport (epoch + 1) (2000 * (k + j + 1))
                             (running_sum (take 2000 (drop (2000 * j) losses))
                              / 2000))
          (seq 0 n).
Proof.
  induction n as [|n IH]; intros losses k Hn.
  - rewrite (epoch_loop_group epoch losses (2000 * k) 0 0 1999);
      [| rewrite Nat.mul_comm; apply Nat.Div0.mod_mul | reflexivity].
    apply Nat.div_small_iff in Hn; [| discriminate].
    destruct (Nat.leb_spec (length losses) 1999); [reflexivity | lia].
  - rewrite (epoch_loop_group epoch losses (2000 * k) 0 0 1999);
      [| rewrite Nat.mul_comm; apply Nat.Div0.mod_mul | reflexivity].
    assert (Hlen : (2000 <= length losses)%nat).
    { destruct (Nat.le_gt_cases 2000 (length losses)) as [H | H]; [exact H |].
      rewrite Nat.div_small in Hn by exact H. discriminate. }
    destruct (Nat.leb_spec (length losses) 1999); [lia |].
    cbn [seq map]. f_equal.
    + rewrite Nat.mul_0_r, drop_0. f_equal. lia.
    + replace (2000 * k + 2000)%nat with (2000 * S k)%nat by lia.
      rewrite (IH (drop 2000 losses) (S k)).
      * rewrite <- seq_shift, map_map. apply map_ext. intros j.
        rewrite drop_drop.
        replace (S k + j + 1)%nat with (k + S j + 1)%nat by lia.
        replace (2000 + 2000 * j)%nat with (2000 * S j)%nat by lia.
        reflexivity.
      * rewrite length_drop.
        replace (length losses) with ((length losses - 2000) + 1 * 2000)%nat
          in Hn by lia.
        rewrite Nat.div_add in Hn by discriminate. lia.
Qed.

(** X7. In every epoch the training cell prints one line per complete group
    of 2000 batches, after batches 2000, 4000, ...; the value printed is the
    sum of the losses of exactly that group divided by 2000.  The losses of
    the batches after the last complete group are never reported: with the
    12500 batches of CIFAR-10 an epoch prints 6 lines and leaves the last
    500 batches out. *)
Theorem training_reports_every_2000 (epoch : nat) (losses : list Q) :
  epoch_loop epoch 0 0 losses
  = map (fun j => mkReport (epoch + 1) (2000 * (j + 1))
                           (running_sum (take 2000 (drop (2000 * j) losses))
                            / 2000))
        (seq 0 (length losses / 2000))
  /\ length (epoch_loop epoch 0 0 losses) = (length losses / 2000)%nat
  /\ (length losses = 12500%nat ->
      length (epoch_loop epoch 0 0 losses) = 6%nat)
  /\ (forall tail,
        (length losses mod 2000 = 0)%nat ->
        (length tail < 2000)%nat ->
        epoch_loop epoch 0 0 (losses ++ tail) = epoch_loop epoch 0 0 losses).
Proof.
  assert (Hmain : forall l : list Q,
             epoch_loop epoch 0 0 l
             = map (fun j => mkReport (epoch + 1) (2000 * (j + 1))
                        (running_sum (take 2000 (drop (2000 * j) l)) / 2000))
                   (seq 0 (length l / 2000))).
  { intros l. change 0%nat with (2000 * 0)%nat at 1.
    rewrite (epoch_loop_reports epoch (length l / 2000) l 0 eq_refl).
    apply map_ext. intros j. reflexivity. }
  assert (Hlen : forall l : list Q,
             length (epoch_loop epoch 0 0 l) = (length l / 2000)%nat).
  { intros l. rewrite Hmain, length_map, length_seq. reflexivity. }
  split; [apply Hmain |]. split; [apply Hlen |]. split.
  - intros H. rewrite Hlen, H. reflexivity.
  - intros tail Hmod Htail.
    apply Nat.Div0.div_exact in Hmod.
    set (q := (length losses / 2000)%nat) in *.
    assert (Hq : (length (losses ++ tail) / 2000 = q)%nat).
    { rewrite length_app, Hmod, (Nat.mul_comm 2000 q), Nat.div_add_l
        by discriminate.
      rewrite (Nat.div_small (length tail)) by exact Htail. lia. }
    rewrite !Hmain, Hq. fold q.
    apply map_ext_in. intros j Hj. apply in_seq in Hj.
    f_equal. f_equal. f_equal.
    assert (Hj' : (2000 * j + 2000 <= length losses)%nat) by nia.
    rewrite drop_app_le by lia.
    rewrite take_app_le by (rewrite length_drop; lia).
    reflexivity.
Qed.

End TrainingFacts.

Section TrainingWitness.
Import Training.

(** The theorem applies to an epoch of 12500 batches. *)
Lemma training_reports_every_2000_witness :
  length (replicate 12500 1%Q) = 12500%nat
  /\ length (epoch_loop 0 0 0 (replicate 12500 1%Q)) = 6%nat.
Proof.
  assert (H : length (replicate 12500 1%Q) = 12500%nat)
    by apply length_replicate.
  split; [exact H |].
  exact (proj1 (proj2 (proj2 (training_reports_every_2000
                                0 (replicate 12500 1%Q)))) H).
Defined.

End TrainingWitness.

Section FilterFacts.
Import Torch Filters.

Lemma draw_row_grid (rows nFilters i : nat) :
  (i < rows)%nat ->
  draw_row (AxesGrid rows (nFilters + 1)) nFilters i
  = Some (map (fun j => (i, j)) (seq 0 (nFilters + 1))).
Proof.
  intros Hi. unfold draw_row. cbn [axes_item].
  destruct (Nat.ltb_spec i rows); [| lia].
  destruct (Nat.ltb_spec 0 (nFilters + 1)); [| lia].
  cbn [andb mbind option_bind].
  rewrite (mapM_Some_2 _ _ (map (fun j => (i, j)) (seq 1 nFilters))).
  - cbn [mbind option_bind]. rewrite Nat.add_1_r. reflexivity.
  - rewrite <- seq_shift, map_map.
    apply Forall2_fmap_r, Forall_Forall2_diag, Forall_forall.
    intros j Hj. apply elem_of_seq in Hj.
    destruct (Nat.ltb_spec (j + 1) (nFilters + 1)); [| lia].
    rewrite Nat.add_1_r. reflexivity.
Qed.

Lemma draw_all_grid (rows nFilters : nat) :
  draw_all (AxesGrid rows (nFilters + 1)) rows nFilters
  = Some (flat_map (fun i => map (fun j => (i, j)) (seq 0 (nFilters + 1)))
                   (seq 0 rows)).
Proof.
  unfold draw_all.
  rewrite (mapM_Some_2 _ _
             (map (fun i => map (fun j => (i, j)) (seq 0 (nFilters + 1)))
                  (seq 0 rows))).
  - cbn [mbind option_bind]. rewrite flat_map_concat_map. reflexivity.
  - apply Forall2_fmap_r, Forall_Forall2_diag, Forall_forall.
    intros i Hi. apply elem_of_seq in Hi.
    apply draw_row_grid. lia.
Qed.

Lemma grid_length (cols rows start : nat) :
  length (flat_map (fun i => map (fun j => (i, j)) (seq 0 cols))
                   (seq start rows))
  = (cols * rows)%nat.
Proof.
  revert start. induction rows as [|rows IH]; intros start.
  - cbn [seq flat_map length]. lia.
  - cbn [seq flat_map]. rewrite length_app, IH, length_map, length_seq. lia.
Qed.

(** A grid enumerated row by row holds every position once. *)
Lemma grid_positions (rows cols : nat) :
  NoDup (flat_map (fun i => map (fun j => (i, j)) (seq 0 cols)) (seq 0 rows))
  /\ forall i j,
      (i, j) ∈ flat_map (fun i => map (fun j => (i, j)) (seq 0 cols))
                        (seq 0 rows)
      <-> (i < rows)%nat /\ (j < cols)%nat.
Proof.
  split.
  - generalize 0%nat at 2 as start.
    induction rows as [|rows IH]; intros start; cbn [seq flat_map].
    + constructor.
    + apply NoDup_app. split; [| split].
      * apply NoDup_fmap_2; [| apply NoDup_seq].
        intros a b [= ->]. reflexivity.
      * intros [i j] H1 H2.
        apply list_elem_of_fmap in H1. destruct H1 as (j' & [= -> ->] & _).
        apply list_elem_of_In, in_flat_map in H2.
        destruct H2 as (i' & Hi' & Hin).
        apply in_seq in Hi'.
        apply in_map_iff in Hin. destruct Hin as (j'' & [= -> ->] & _). lia.
      * apply IH.
  - intros i j. rewrite list_elem_of_In, in_flat_map. split.
    + intros (i' & Hi' & Hin). apply in_seq in Hi'.
      apply in_map_iff in Hin. destruct Hin as (j' & [= -> ->] & Hj').
      apply in_seq in Hj'. lia.
    + intros [Hi Hj]. exists i. split; [apply in_seq; lia |].
      apply in_map_iff. exists j. split; [reflexivity | apply in_seq; lia].
Qed.

(** X8. The intermediate network of the last cells is [conv1] alone (no
    ReLU, no pooling).  On a batch of [B >= 2] images it yields
    [B x 6 x (H-4) x (W-4)] feature maps, and the plotting loops draw into
    every position of the [B x 7] grid of axes exactly once, row by row,
    never outside it.  A batch of a single image, of any size, makes
    [plt.subplots] return a one-dimensional array, on which
    [ax[idx_img][0]] raises. *)
Theorem filter_cell_fills_grid :
  net_intermediate = [LConv (conv1 net)]
  /\ (forall B H W : N,
         (2 <= B)%N -> (5 <= H)%N -> (5 <= W)%N ->
         exists drawn,
           filter_cell [B; 3; H; W]%N
           = Some ([B; 6; H - 4; W - 4]%N, drawn)
           /\ drawn = flat_map (fun i => map (fun j => (i, j)) (seq 0 7))
                               (seq 0 (N.to_nat B))
           /\ length drawn = (7 * N.to_nat B)%nat
           /\ NoDup drawn
           /\ forall i j,
               (i, j) ∈ drawn <-> (i < N.to_nat B)%nat /\ (j < 7)%nat)
  /\ (forall H W : N, filter_cell [1; 3; H; W]%N = None).
Proof.
  split; [reflexivity |]. split.
  2: { intros H W. unfold filter_cell.
       change net_intermediate with [LConv (conv1 net)].
       cbn [Sequential_forward layer_forward].
       rewrite conv1_shape.
       destruct (5 <=? H)%N, (5 <=? W)%N; reflexivity. }
  intros B H W HB HH HW.
  eexists. split; [| split; [reflexivity |]].
  - unfold filter_cell.
    change net_intermediate with [LConv (conv1 net)].
    cbn [Sequential_forward layer_forward].
    rewrite conv1_shape.
    destruct (N.leb_spec 5 H); [| lia]. destruct (N.leb_spec 5 W); [| lia].
    cbn [N.eqb Pos.eqb andb mbind option_bind].
    change (N.to_nat 6 + 1)%nat with 7%nat.
    change (N.to_nat 6) with 6%nat.
    unfold subplots.
    destruct (Nat.eqb_spec (N.to_nat B) 0); [lia |].
    destruct (Nat.eqb_spec (N.to_nat B) 1); [lia |].
    cbn [Nat.eqb orb andb mbind option_bind].
    pose proof (draw_all_grid (N.to_nat B) 6) as Hd.
    change (6 + 1)%nat with 7%nat in Hd. rewrite Hd.
    cbn [mbind option_bind]. reflexivity.
  - destruct (grid_positions (N.to_nat B) 7) as [Hnd Hin].
    split; [| split; [exact Hnd | exact Hin]].
    apply grid_length.
Qed.

(** The theorem applies to a CIFAR-10 batch of four images. *)
Lemma filter_cell_fills_grid_witness :
  (2 <= 4)%N /\ (5 <= 32)%N
  /\ exists drawn,
      filter_cell [4; 3; 32; 32]%N = Some ([4; 6; 28; 28]%N, drawn)
      /\ length drawn = 28%nat.
Proof.
  assert (H2 : (2 <= 4)%N) by lia.
  assert (H5 : (5 <= 32)%N) by lia.
  split; [exact H2 | split; [exact H5 |]].
  destruct (proj1 (proj2 filter_cell_fills_grid) 4%N 32%N 32%N H2 H5 H5)
    as (drawn & Hcell & _ & Hlen & _).
  exists drawn. split; [exact Hcell | exact Hlen].
Defined.

End FilterFacts.

Section TrainLoaderFacts.
Import Evaluate Training TrainLoader.
Context {A : Type}.

Lemma lookup_all (l : list A) :
  (fun i => l !! i) <$> seq 0 (length l) = Some <$> l.
Proof.
  apply list_eq. intros i. rewrite !list_lookup_fmap.
  destruct (Nat.lt_ge_cases i (length l)) as [Hlt | Hge].
  - rewrite lookup_seq_lt by exact Hlt.
    destruct (lookup_lt_is_Some_2 l i Hlt) as [x Hx].
    cbn [fmap option_fmap option_map Nat.add]. rewrite Hx. reflexivity.
  - rewrite lookup_seq_ge by exact Hge.
    rewrite lookup_ge_None_2 by exact Hge. reflexivity.
Qed.

(** Reading a list at the indices of a permutation of its positions gives
    a permutation of the list. *)
Lemma shuffled_samples (order : list nat) (trainset : list A) :
  order ≡ₚ seq 0 (length trainset) ->
  exists samples,
    mapM (fun i => trainset !! i) order = Some samples
    /\ samples ≡ₚ trainset.
Proof.
  intros Hperm.
  assert (Hsome : is_Some (mapM (fun i => trainset !! i) order)).
  { apply mapM_is_Some, Forall_forall. intros i Hi.
    rewrite Hperm in Hi. apply elem_of_seq in Hi.
    apply lookup_lt_is_Some_2. lia. }
  destruct Hsome as [samples Hs]. exists samples. split; [exact Hs |].
  apply mapM_Some_1 in Hs.
  assert (Heq : (fun i => trainset !! i) <$> order = Some <$> samples).
  { clear Hperm. induction Hs as [|i x order samples Hi _ IH]; [reflexivity |].
    cbn [fmap list_fmap]. rewrite Hi. f_equal. exact IH. }
  assert (Hp : Some <$> samples ≡ₚ Some <$> trainset).
  { rewrite <- Heq, Hperm. rewrite lookup_all. reflexivity. }
  assert (Hid : forall l : list A, omap (fun o : option A => o) (Some <$> l) = l).
  { induction l as [|x l IH]; [reflexivity |].
    cbn [fmap list_fmap omap list_omap]. rewrite IH. reflexivity. }
  rewrite <- (Hid samples), <- (Hid trainset), Hp. reflexivity.
Qed.

End TrainLoaderFacts.

Section TrainingLength.
Import Evaluate Training TrainLoader.
Local Open Scope Q_scope.

(** The lines of one pass, in closed form. *)
Lemma epoch_loop_closed (epoch : nat) (losses : list Q) :
  epoch_loop epoch 0 0 losses
  = map (fun j => mkReport (epoch + 1) (2000 * (j + 1))
                           (running_sum (take 2000 (drop (2000 * j) losses))
                            / 2000))
        (seq 0 (length losses / 2000)).
Proof.
  change 0%nat with (2000 * 0)%nat at 1.
  rewrite (epoch_loop_reports epoch (length losses / 2000) losses 0 eq_refl).
  apply map_ext. intros j. reflexivity.
Qed.

Lemma epoch_loop_positions (epoch : nat) (losses : list Q) :
  map (fun r => (at_epoch r, at_batch r)) (epoch_loop epoch 0 0 losses)
  = map (fun j => (epoch + 1, 2000 * (j + 1))%nat)
        (seq 0 (length losses / 2000)).
Proof. rewrite epoch_loop_closed, map_map. reflexivity. Qed.

End TrainingLength.

Section TrainLoaderTheorems.
Import Evaluate Training TrainLoader.
Context {A : Type}.

Lemma trainloader_batches (order : list nat) (trainset : list A) :
  order ≡ₚ seq 0 (length trainset) ->
  exists samples,
    trainloader order trainset = Some (testloader samples)
    /\ samples ≡ₚ trainset.
Proof.
  intros Hperm.
  destruct (shuffled_samples order trainset Hperm) as (samples & Hs & Hp).
  exists samples. split; [| exact Hp].
  unfold trainloader. rewrite Hs. reflexivity.
Qed.

(** X9. Whatever permutation the shuffling sampler draws, one pass over
    the training loader visits every training sample exactly once: the
    batches, put end to end, are a permutation of the training set.  There
    are [ceil(n / 4)] batches of one to four samples, all of four samples
    when 4 divides [n]. *)
Theorem trainloader_epoch (order : list nat) (trainset : list A) :
  order ≡ₚ seq 0 (length trainset) ->
  exists batches,
    trainloader order trainset = Some batches
    /\ concat batches ≡ₚ trainset
    /\ length batches = ((length trainset + 3) / 4)%nat
    /\ Forall (fun b => (1 <= length b <= 4)%nat) batches
    /\ ((length trainset mod 4 = 0)%nat ->
        Forall (fun b => length b = 4%nat) batches).
Proof.
  intros Hperm.
  destruct (trainloader_batches order trainset Hperm) as (samples & Hb & Hp).
  assert (Hlen : length samples = length trainset)
    by (rewrite Hp; reflexivity).
  exists (testloader samples).
  split; [exact Hb |].
  split; [rewrite testloader_concat; exact Hp |].
  split; [apply testloader_length; exact Hlen |].
  split.
  - apply Forall_forall. intros b Hb'.
    apply list_elem_of_lookup in Hb'. destruct Hb' as [k Hk].
    rewrite testloader_lookup in Hk.
    destruct (Nat.ltb_spec (4 * k) (length samples)); [| discriminate].
    injection Hk as <-. rewrite length_take, length_drop. lia.
  - intros Hmod. apply testloader_exact. rewrite Hlen. exact Hmod.
Qed.

(** X10. The lines printed by the training cell depend on the size of the
    training set only: whatever the shuffling and the losses, each of the
    two passes prints after batches 2000, 4000, ... up to the last multiple
    of 2000 that the [ceil(n / 4)] batches reach.  With the 50000 training
    images of CIFAR-10 that is 12 lines, the last one [[2, 12000]]. *)
Theorem training_run_reports (order : nat -> list nat)
        (loss : nat -> nat -> list A -> Q) (trainset : list A) :
  (forall epoch, (epoch < 2)%nat ->
                 order epoch ≡ₚ seq 0 (length trainset)) ->
  exists reports,
    training_run order loss trainset = Some reports
    /\ map (fun r => (at_epoch r, at_batch r)) reports
       = flat_map (fun epoch =>
                     map (fun j => (epoch + 1, 2000 * (j + 1))%nat)
                         (seq 0 ((length trainset + 3) / 4 / 2000)))
                  (seq 0 2)
    /\ (length trainset = 50000%nat ->
        length reports = 12%nat
        /\ (at_epoch <$> last reports) = Some 2%nat
        /\ (at_batch <$> last reports) = Some 12000%nat).
Proof.
  intros Hperm.
  destruct (trainloader_batches (order 0%nat) trainset (Hperm 0%nat ltac:(lia)))
    as (s0 & Hb0 & Hp0).
  destruct (trainloader_batches (order 1%nat) trainset (Hperm 1%nat ltac:(lia)))
    as (s1 & Hb1 & Hp1).
  assert (Hl0 : length (testloader s0) = ((length trainset + 3) / 4)%nat)
    by (apply testloader_length; rewrite Hp0; reflexivity).
  assert (Hl1 : length (testloader s1) = ((length trainset + 3) / 4)%nat)
    by (apply testloader_length; rewrite Hp1; reflexivity).
  assert (Hrun : training_run order loss trainset
                 = Some (epoch_loop 0 0 0 (imap (loss 0%nat) (testloader s0))
                         ++ epoch_loop 1 0 0 (imap (loss 1%nat) (testloader s1)))).
  { unfold training_run. cbn [seq mapM]. rewrite Hb0, Hb1.
    cbn [mbind option_bind mret option_ret fmap option_fmap option_map].
    unfold training. cbn [seq flat_map nth]. rewrite app_nil_r. reflexivity. }
  assert (Hpos : map (fun r => (at_epoch r, at_batch r))
                     (epoch_loop 0 0 0 (imap (loss 0%nat) (testloader s0))
                      ++ epoch_loop 1 0 0 (imap (loss 1%nat) (testloader s1)))
                 = flat_map (fun epoch =>
                      map (fun j => (epoch + 1, 2000 * (j + 1))%nat)
                          (seq 0 ((length trainset + 3) / 4 / 2000)))
                   (seq 0 2)).
  { rewrite map_app, !epoch_loop_positions, !length_imap, Hl0, Hl1.
    cbn [seq flat_map]. rewrite app_nil_r. reflexivity. }
  eexists. split; [exact Hrun |]. split; [exact Hpos |].
  intros Hn.
  set (reports := (epoch_loop 0 0 0 (imap (loss 0%nat) (testloader s0))
                   ++ epoch_loop 1 0 0 (imap (loss 1%nat) (testloader s1)))%list)
    in *.
  rewrite Hn in Hpos.
  change ((50000 + 3) / 4 / 2000)%nat with 6%nat in Hpos.
  assert (Hlen : length reports = 12%nat).
  { rewrite <- (length_map (fun r => (at_epoch r, at_batch r))), Hpos.
    reflexivity. }
  split; [exact Hlen |].
  assert (Hlast : ((fun r => (at_epoch r, at_batch r)) <$> last reports)
                  = Some (2, 12000)%nat).
  { rewrite <- fmap_last.
    change (fmap (M:=list) (fun r => (at_epoch r, at_batch r)) reports)
      with (map (fun r => (at_epoch r, at_batch r)) reports).
    rewrite Hpos. reflexivity. }
  destruct (last reports) as [r |]; [| discriminate].
  injection Hlast as H1 H2. cbn [fmap option_fmap option_map].
  rewrite H1, H2. split; reflexivity.
Qed.

End TrainLoaderTheorems.

Section TrainLoaderWitness.
Import Evaluate Training TrainLoader.

(** The theorem applies to a training set of eight samples read in reverse
    order. *)
Lemma trainloader_epoch_witness :
  rev (seq 0 8) ≡ₚ seq 0 (length (seq 10 8))
  /\ exists batches,
      trainloader (rev (seq 0 8)) (seq 10 8) = Some batches
      /\ length batches = 2%nat.
Proof.
  assert (H : rev (seq 0 8) ≡ₚ seq 0 (length (seq 10 8))).
  { rewrite length_seq. symmetry. apply Permutation_rev. }
  split; [exact H |].
  destruct (trainloader_epoch (rev (seq 0 8)) (seq 10 8) H)
    as (batches & Hb & _ & Hlen & _).
  exists batches. split; [exact Hb | exact Hlen].
Defined.

(** The theorem applies to a training set of the size of CIFAR-10's, read
    in its own order: twelve lines are printed, the last one after batch
    12000 of the second pass. *)
Lemma training_run_reports_witness :
  (forall epoch, (epoch < 2)%nat ->
     (fun _ => seq 0 (length (replicate 50000 0%nat))) epoch
     ≡ₚ seq 0 (length (replicate 50000 0%nat)))
  /\ length (replicate 50000 0%nat) = 50000%nat
  /\ exists reports,
      training_run (fun _ => seq 0 (length (replicate 50000 0%nat)))
                   (fun _ _ _ => 1%Q) (replicate 50000 0%nat)
      = Some reports
      /\ length reports = 12%nat
      /\ (at_epoch <$> last reports) = Some 2%nat
      /\ (at_batch <$> last reports) = Some 12000%nat.
Proof.
  assert (H : forall epoch, (epoch < 2)%nat ->
                (fun _ : nat => seq 0 (length (replicate 50000 0%nat))) epoch
                ≡ₚ seq 0 (length (replicate 50000 0%nat))).
  { intros epoch _. reflexivity. }
  assert (Hn : length (replicate 50000 0%nat) = 50000%nat)
    by apply length_replicate.
  split; [exact H | split; [exact Hn |]].
  destruct (training_run_reports
              (fun _ => seq 0 (length (replicate 50000 0%nat)))
              (fun _ _ _ => 1%Q) (replicate 50000 0%nat) H)
    as (reports & Hr & _ & Hsize).
  exists reports. split; [exact Hr | exact (Hsize Hn)].
Defined.

End TrainLoaderWitness.

Ltac run_scaling :=
  unfold Sklearn.scaling_cell, Sklearn.scaler_fit, Sklearn.scaler_transform,
    Sklearn.bind, Sklearn.set_scaler, Sklearn.get_X_train,
    Sklearn.get_X_test, Sklearn.get_scaler, Sklearn.record_call,
    Sklearn.set_X_train, Sklearn.set_X_test, Sklearn.ret, Sklearn.raise.

Section ScalingTheorems.
Import Sklearn.
Local Open Scope R_scope.

(** X12. The scaling cell can only end in two ways: normally, or with a
    [ValueError] (never with a [NameError] or a [NotFittedError]).  It ends
    normally exactly when the training split is a well-formed array and the
    test split has the same number of features.  When the training split is
    rejected, nothing has been scaled; when only the test split is
    rejected, the error leaves [X_train] already replaced by its scaled
    version while [X_test] is still raw. *)
Theorem scaling_cell_outcomes (Xtr Xte : array2) :
  let d := n_features Xtr in
  (check_array d Xtr = false ->
   scaling_cell (before_scaling Xtr Xte)
   = Raised ValueError (mkKernel (Some Unfitted) Xtr Xte [CallFit Xtr]))
  /\ (check_array d Xtr = true -> check_array d Xte = false ->
      exists mean_ scale_,
        fit_statistics Xtr = Fitted mean_ scale_
        /\ scaling_cell (before_scaling Xtr Xte)
           = Raised ValueError
               (mkKernel (Some (Fitted mean_ scale_))
                         (standardize mean_ scale_ Xtr) Xte
                         [CallFit Xtr; CallTransform Xtr; CallTransform Xte]))
  /\ ((exists k', scaling_cell (before_scaling Xtr Xte) = Ok tt k')
      <-> check_array d Xtr = true /\ check_array d Xte = true)
  /\ (forall e k', scaling_cell (before_scaling Xtr Xte) = Raised e k' ->
                   e = ValueError).
Proof.
  intros d.
  assert (Hbad : check_array d Xtr = false ->
                 scaling_cell (before_scaling Xtr Xte)
                 = Raised ValueError
                     (mkKernel (Some Unfitted) Xtr Xte [CallFit Xtr])).
  { intros H. run_scaling. unfold before_scaling.
    cbn -[check_array standardize fit_statistics n_features].
    fold d. rewrite H. reflexivity. }
  assert (Hhalf : check_array d Xtr = true -> check_array d Xte = false ->
                  scaling_cell (before_scaling Xtr Xte)
                  = Raised ValueError
                      (mkKernel (Some (fit_statistics Xtr))
                         (match fit_statistics Xtr with
                          | Fitted mean_ scale_ => standardize mean_ scale_ Xtr
                          | Unfitted => Xtr
                          end) Xte
                         [CallFit Xtr; CallTransform Xtr; CallTransform Xte])).
  { intros Htr Hte.
    assert (Hlen : length (map (fun j => mean (column j Xtr)) (seq 0 d)) = d)
      by (rewrite length_map, length_seq; reflexivity).
    run_scaling. unfold before_scaling, fit_statistics.
    fold d.
    do 4 (cbn -[check_array standardize n_features mean std column seq];
          fold d; rewrite ?Htr, ?Hlen, ?Hte).
    reflexivity. }
  split; [exact Hbad |]. split; [| split].
  - intros Htr Hte. eexists _, _. split; [reflexivity |].
    rewrite (Hhalf Htr Hte). reflexivity.
  - split.
    + intros [k' Hk].
      destruct (check_array d Xtr) eqn:Htr.
      * destruct (check_array d Xte) eqn:Hte; [split; reflexivity |].
        rewrite (Hhalf eq_refl eq_refl) in Hk. discriminate.
      * rewrite (Hbad eq_refl) in Hk. discriminate.
    + intros [Htr Hte].
      pose proof (scaling_cell_run d Xtr Xte Htr Hte) as [_ Hrun].
      eexists. exact Hrun.
  - intros e k' Hk.
    destruct (check_array d Xtr) eqn:Htr.
    + destruct (check_array d Xte) eqn:Hte.
      * pose proof (scaling_cell_run d Xtr Xte Htr Hte) as [_ Hrun].
        rewrite Hrun in Hk. discriminate.
      * rewrite (Hhalf eq_refl eq_refl) in Hk. congruence.
    + rewrite (Hbad eq_refl) in Hk. congruence.
Qed.

(** The theorem applies: a test split with one feature too many is
    rejected after the training split has been scaled. *)
Lemma scaling_cell_outcomes_witness :
  check_array (n_features toy_train) toy_train = true
  /\ check_array (n_features toy_train) [[5; 9]] = false
  /\ exists mean_ scale_ k',
      scaling_cell (before_scaling toy_train [[5; 9]]) = Raised ValueError k'
      /\ X_train k' = standardize mean_ scale_ toy_train
      /\ X_test k' = [[5; 9]].
Proof.
  split; [reflexivity | split; [reflexivity |]].
  destruct (proj1 (proj2 (scaling_cell_outcomes toy_train [[5; 9]]))
                  eq_refl eq_refl)
    as (mean_ & scale_ & _ & Hrun).
  exists mean_, scale_. eexists.
  split; [exact Hrun | split; reflexivity].
Defined.

End ScalingTheorems.

Section PrintLoopFacts.
Import Predict.
Local Open Scope Q_scope.

Lemma mapM_ext_in {S T} (f g : S -> option T) (l : list S) :
  (forall x, x ∈ l -> f x = g x) -> mapM f l = mapM g l.
Proof.
  induction l as [|x l IH]; intros H; [reflexivity |].
  cbn [mapM]. rewrite (H x) by apply list_elem_of_here.
  rewrite IH; [reflexivity |].
  intros y Hy. apply H, list_elem_of_further, Hy.
Qed.

(** A line can be printed exactly when its row exists and has two columns
    at least, and its label exists. *)
Lemma print_row_is_Some (x_predict : list (list Q)) (y_test : list nat)
      (i : nat) :
  is_Some (print_row x_predict y_test i)
  <-> (exists row, x_predict !! i = Some row /\ (2 <= length row)%nat)
      /\ (i < length y_test)%nat.
Proof.
  unfold print_row. split.
  - intros [ln H].
    destruct (x_predict !! i) as [row |] eqn:Hrow; [| discriminate].
    cbn [mbind option_bind] in H.
    destruct row as [|p0 [|p1 rest]]; try discriminate.
    cbn [lookup list_lookup mbind option_bind argmax] in H.
    destruct (y_test !! i) as [y |] eqn:Hy; [| discriminate].
    split.
    + eexists. split; [reflexivity |]. cbn [length]. lia.
    + apply lookup_lt_is_Some. eexists. exact Hy.
  - intros [(row & Hrow & Hlen) Hy].
    rewrite Hrow. cbn [mbind option_bind].
    destruct row as [|p0 [|p1 rest]]; cbn [length] in Hlen; try lia.
    cbn [lookup list_lookup mbind option_bind argmax].
    destruct (lookup_lt_is_Some_2 y_test i Hy) as [y Hyi].
    rewrite Hyi. eexists. reflexivity.
Qed.

(** X13. The table of predictions can be printed exactly when there are at
    least ten test samples (rows of [x_predict] and labels in [y_test]) and
    the first ten rows have two columns at least; otherwise an index is out
    of range.  It always has ten lines, and only the first ten rows and
    labels are read. *)
Theorem print_loop_reads_first_ten (x_predict : list (list Q))
        (y_test : list nat) :
  (is_Some (print_loop x_predict y_test)
   <-> (10 <= length x_predict)%nat
       /\ (10 <= length y_test)%nat
       /\ Forall (fun row => (2 <= length row)%nat) (take 10 x_predict))
  /\ print_loop (take 10 x_predict) (take 10 y_test)
     = print_loop x_predict y_test
  /\ (forall lines,
         print_loop x_predict y_test = Some lines -> length lines = 10%nat).
Proof.
  split; [| split].
  - unfold print_loop. rewrite mapM_is_Some, Forall_forall. split.
    + intros H.
      assert (H9 : 9%nat ∈ seq 0 10) by (apply elem_of_seq; lia).
      apply H in H9. cbn [compose] in H9. apply print_row_is_Some in H9.
      destruct H9 as [(row & Hrow & _) Hy].
      apply lookup_lt_Some in Hrow.
      split; [lia |]. split; [lia |].
      apply Forall_lookup. intros i row' Hi.
      pose proof (lookup_lt_Some _ _ _ Hi) as Hlt.
      rewrite length_take in Hlt.
      rewrite lookup_take_lt in Hi by lia.
      assert (Hin : i ∈ seq 0 10) by (apply elem_of_seq; lia).
      apply H in Hin. cbn [compose] in Hin. apply print_row_is_Some in Hin.
      destruct Hin as [(row2 & Hrow2 & Hlen) _].
      congruence.
    + intros (Hx & Hy & Hrows) i Hi. apply elem_of_seq in Hi.
      cbn [compose]. apply print_row_is_Some. split; [| lia].
      destruct (lookup_lt_is_Some_2 x_predict i) as [row Hrow]; [lia |].
      exists row. split; [exact Hrow |].
      apply (proj1 (Forall_lookup _ _) Hrows i).
      rewrite lookup_take_lt by lia. exact Hrow.
  - unfold print_loop. apply mapM_ext_in. intros i Hi.
    apply elem_of_seq in Hi. unfold print_row.
    rewrite !lookup_take_lt by lia. reflexivity.
  - unfold print_loop. intros lines H.
    apply length_mapM in H. rewrite length_seq in H. lia.
Qed.

(** The theorem applies to the sample table. *)
Lemma print_loop_reads_first_ten_witness :
  length sample_probabilities = 10%nat
  /\ exists lines,
      print_loop sample_probabilities sample_labels = Some lines
      /\ length lines = 10%nat.
Proof.
  split; [reflexivity |].
  assert (H : is_Some (print_loop sample_probabilities sample_labels)).
  { apply (proj1 (print_loop_reads_first_ten sample_probabilities
                                            sample_labels)).
    split; [vm_compute; lia |]. split; [vm_compute; lia |].
    vm_compute. repeat constructor. }
  destruct H as [lines Hl]. exists lines. split; [exact Hl |].
  exact (proj2 (proj2 (print_loop_reads_first_ten sample_probabilities
                                                  sample_labels)) lines Hl).
Defined.

End PrintLoopFacts.

Section DisplayFacts.
Import Float32 Vision Display.
Local Open Scope Q_scope.

Lemma grid_input_item (img : tensor3) (h w c : nat) :
  item (grid_input img) h w c = item img c h w.
Proof.
  unfold grid_input, moveaxis_0_last.
  destruct (dims img) as [[c0 h0] w0]. reflexivity.
Qed.

Lemma grid_input_dims (img : tensor3) :
  dims (grid_input img) = dims (imshow img).
Proof.
  unfold grid_input, moveaxis_0_last, imshow, transpose_120. cbn [dims].
  destruct (dims img) as [[c0 h0] w0]. reflexivity.
Qed.

(** The 256 levels, one by one: the normalised value of a level. *)
Lemma level_normalized (b : byte) :
  exists x y,
    to_tensor_pixel b = Some x
    /\ normalize_pixel (Some (1 # 2)) (Some (1 # 2)) (to_tensor_pixel b)
       = Some y
    /\ -1 <= y <= 1
    /\ (y < 0 <-> (Byte.to_N b < 128)%N)
    /\ Qabs (y - (2 * x - 1)) <= 1 # 33554432
    /\ (y == 2 * x - 1 <-> (Byte.to_N b = 0 \/ 64 <= Byte.to_N b)%N).
Proof.
  destruct b;
    (eexists _, _;
     split; [vm_compute; reflexivity |];
     split; [vm_compute; reflexivity |];
     split; [split; apply Qle_bool_iff; vm_compute; reflexivity |];
     split;
     [ split;
       [ intros H;
         first [ vm_compute; reflexivity
               | vm_compute in H; discriminate H ]
       | intros H;
         first [ vm_compute; reflexivity
               | vm_compute in H; discriminate H ] ]
     |];
     split; [apply Qle_bool_iff; vm_compute; reflexivity |];
     split;
     [ intros H;
       first [ left; reflexivity
             | right; vm_compute; discriminate
             | vm_compute in H; discriminate H ]
     | intros [H | H];
       first [ vm_compute; reflexivity
             | vm_compute in H; discriminate H
             | vm_compute in H; exfalso; apply H; reflexivity ] ]).
Qed.

(** X14. [imshow] hands the plotting library values in [[0, 1]], but the
    filter-visualisation cell shows the normalised tensor without
    un-normalising it: for an 8-bit image of three channels the value it
    passes for a pixel [x] lies in [[-1, 1]], is negative exactly for the
    levels below 128, and is [2 x - 1] up to [float32] rounding (within
    [2 ^ -25], exactly for the levels 0 and 64 to 255).  Both arrays have
    the same channel-last shape. *)
Theorem grid_input_not_unnormalized (img : image8) (h w : nat) :
  size8 img = (h, w, 3%nat) ->
  exists t,
    transform img = Some t
    /\ dims (grid_input t) = dims (imshow t)
    /\ forall i j c,
        (c < 3)%nat ->
        exists x y v,
          item (ToTensor img) c i j = Some x
          /\ item (grid_input t) i j c = Some y
          /\ item (imshow t) i j c = Some v
          /\ 0 <= v <= 1
          /\ -1 <= y <= 1
          /\ (y < 0 <-> (Byte.to_N (pixel img i j c) < 128)%N)
          /\ Qabs (y - (2 * x - 1)) <= 1 # 33554432
          /\ (y == 2 * x - 1
              <-> (Byte.to_N (pixel img i j c) = 0
                   \/ 64 <= Byte.to_N (pixel img i j c))%N).
Proof.
  intros Hs. rewrite (transform_spec img h w 3 Hs). cbn [Nat.eqb].
  eexists. split; [reflexivity |].
  split; [apply grid_input_dims |].
  intros i j c Hc.
  destruct (level_normalized (pixel img i j c))
    as (x & y & Hx & Hy & Hy1 & Hneg & Herr & Hiff).
  destruct (level_round_trip (pixel img i j c))
    as (x' & v & Hx' & Hv & _ & Hv01 & _ & _).
  exists x, y, v.
  split.
  { unfold ToTensor. rewrite Hs. cbn [item]. exact Hx. }
  split.
  { rewrite grid_input_item. cbn [item].
    rewrite channel_constant_half by exact Hc. exact Hy. }
  split.
  { rewrite imshow_item. cbn [item].
    rewrite channel_constant_half by exact Hc. exact Hv. }
  split; [exact Hv01 |].
  split; [exact Hy1 |].
  split; [exact Hneg |].
  split; [exact Herr | exact Hiff].
Qed.

(** The theorem applies to an image of one dark pixel. *)
Lemma grid_input_not_unnormalized_witness :
  size8 (one_pixel "001") = (1, 1, 3)%nat
  /\ exists t, transform (one_pixel "001") = Some t
               /\ dims (grid_input t) = dims (imshow t).
Proof.
  assert (Hs : size8 (one_pixel "001") = (1, 1, 3)%nat) by reflexivity.
  split; [exact Hs |].
  destruct (grid_input_not_unnormalized (one_pixel "001") 1%nat 1%nat Hs)
    as (t & Ht & Hd & _).
  exists t. split; [exact Ht | exact Hd].
Defined.

End DisplayFacts.

Section TabularFacts.
Import Sklearn Tabular.
Local Open Scope R_scope.

Lemma transpose_pair {T} (f g : T -> R) (l : list T) :
  transpose [map f l; map g l] = map (fun s => [f s; g s]) l.
Proof.
  unfold transpose. cbn [n_features map]. rewrite length_map.
  apply list_eq. intros i.
  change (map ?h ?k !! i) with ((h <$> k) !! i).
  rewrite !list_lookup_fmap.
  destruct (Nat.lt_ge_cases i (length l)) as [Hlt | Hge].
  - rewrite lookup_seq_lt by exact Hlt.
    destruct (lookup_lt_is_Some_2 l i Hlt) as [s Hs].
    rewrite Hs. cbn [fmap option_fmap option_map Nat.add].
    rewrite !nth_lookup.
    change (map f l) with (f <$> l). change (map g l) with (g <$> l).
    rewrite !list_lookup_fmap, Hs. reflexivity.
  - rewrite lookup_seq_ge by exact Hge.
    rewrite lookup_ge_None_2 by exact Hge. reflexivity.
Qed.

Lemma labels_cons (s : sample) (df : dataframe) :
  labels (s :: df)
  = k ← index_of (diagnosis s) ["B"; "M"]%string;
    y ← labels df;
    Some (k :: y).
Proof.
  unfold labels, LabelEncoder_transform. cbn [map mapM].
  change (LabelEncoder_fit ["B"; "M"]%string) with ["B"; "M"]%string.
  destruct (index_of (diagnosis s) ["B"; "M"]%string); [| reflexivity].
  cbn [mbind option_bind].
  destruct (mapM _ _); reflexivity.
Qed.

Lemma index_of_B_M (s : string) :
  index_of s ["B"; "M"]%string
  = if String.eqb s "B" then Some 0%nat
    else if String.eqb s "M" then Some 1%nat else None.
Proof.
  cbn [index_of].
  destruct (String.eqb s "B"); [reflexivity |].
  destruct (String.eqb s "M"); reflexivity.
Qed.

(** X15. The feature matrix has one row per row of the data frame, holding
    its texture mean in column 0 and its radius mean in column 1 (so the
    stacking never fails, and the matrix is a valid input of the scaler as
    soon as the data frame is not empty).  The label vector exists exactly
    when every diagnosis is ['B'] or ['M']; it encodes ['B'] as 0 and ['M']
    as 1, whatever the order in which [fit] was given the two labels. *)
Theorem features_and_labels (df : dataframe) :
  features df = Some (map (fun s => [texture_mean s; radius_mean s]) df)
  /\ (forall X, features df = Some X ->
                column 0 X = map texture_mean df
                /\ column 1 X = map radius_mean df
                /\ (check_array 2 X = true <-> df <> []))
  /\ (is_Some (labels df)
      <-> Forall (fun s => diagnosis s = "B"%string
                           \/ diagnosis s = "M"%string) df)
  /\ (forall y, labels df = Some y ->
                y = map (fun s => if String.eqb (diagnosis s) "M"
                                  then 1%nat else 0%nat) df)
  /\ LabelEncoder_fit ["M"; "B"]%string = LabelEncoder_fit ["B"; "M"]%string.
Proof.
  assert (HX : features df
               = Some (map (fun s => [texture_mean s; radius_mean s]) df)).
  { unfold features, vstack. rewrite !length_map, Nat.eqb_refl.
    cbn [fmap option_fmap option_map]. rewrite transpose_pair. reflexivity. }
  split; [exact HX |]. split; [| clear HX; split; [| split]].
  - intros X H. rewrite HX in H. injection H as <-.
    unfold column. rewrite !map_map. cbn [nth].
    split; [reflexivity |]. split; [reflexivity |].
    rewrite check_array_spec. split.
    + intros (Hne & _ & _) ->. apply Hne. reflexivity.
    + intros Hne. split; [| split].
      * destruct df; [congruence | discriminate].
      * discriminate.
      * apply Forall_forall. intros row Hrow.
        apply list_elem_of_fmap in Hrow. destruct Hrow as (s & -> & _).
        reflexivity.
  - induction df as [|s df IH].
    + split; [constructor | intros _; eexists; reflexivity].
    + rewrite labels_cons, index_of_B_M, Forall_cons, <- IH.
      destruct (String.eqb_spec (diagnosis s) "B") as [HB | HB].
      * cbn [mbind option_bind].
        split.
        -- intros [y Hy]. split; [left; exact HB |].
           destruct (labels df); [eexists; reflexivity | discriminate].
        -- intros [_ [y Hy]]. rewrite Hy. eexists. reflexivity.
      * destruct (String.eqb_spec (diagnosis s) "M") as [HM | HM].
        -- cbn [mbind option_bind]. split.
           ++ intros [y Hy]. split; [right; exact HM |].
              destruct (labels df); [eexists; reflexivity | discriminate].
           ++ intros [_ [y Hy]]. rewrite Hy. eexists. reflexivity.
        -- cbn [mbind option_bind]. split.
           ++ intros [y Hy]. discriminate.
           ++ intros [[H | H] _]; contradiction.
  - induction df as [|s df IH]; intros y Hy.
    + injection Hy as <-. reflexivity.
    + rewrite labels_cons, index_of_B_M in Hy.
      destruct (labels df) as [y' |] eqn:Hy'.
      * specialize (IH y' eq_refl). cbn [map].
        destruct (String.eqb_spec (diagnosis s) "B") as [HB | HB].
        -- cbn [mbind option_bind] in Hy. injection Hy as <-.
           rewrite HB. cbn. rewrite IH. reflexivity.
        -- destruct (String.eqb (diagnosis s) "M");
             cbn [mbind option_bind] in Hy; [| discriminate].
           injection Hy as <-. rewrite IH. reflexivity.
      * destruct (String.eqb (diagnosis s) "B");
          [cbn [mbind option_bind] in Hy; discriminate |].
        destruct (String.eqb (diagnosis s) "M");
          cbn [mbind option_bind] in Hy; discriminate.
  - reflexivity.
Qed.

(** The theorem applies to a data frame of two rows. *)
Lemma features_and_labels_witness :
  labels [mkSample "M" 2 3; mkSample "B" 5 7] = Some [1; 0]%nat
  /\ [1; 0]%nat
     = map (fun s => if String.eqb (diagnosis s) "M" then 1%nat else 0%nat)
           [mkSample "M" 2 3; mkSample "B" 5 7].
Proof.
  assert (H : labels [mkSample "M" 2 3; mkSample "B" 5 7] = Some [1; 0]%nat)
    by reflexivity.
  split; [exact H |].
  exact (proj1 (proj2 (proj2 (proj2 (features_and_labels
           [mkSample "M" 2 3; mkSample "B" 5 7])))) [1; 0]%nat H).
Defined.

End TabularFacts.

Section CrossValidationFacts.
Import Sklearn Tabular.
Local Open Scope R_scope.

Lemma Rsum_unit_interval (l : list R) :
  Forall (fun x => 0 <= x <= 1) l ->
  0 <= Rsum l <= INR (length l).
Proof.
  induction 1 as [|x l Hx _ IH].
  - simpl. lra.
  - change (length (x :: l)) with (S (length l)). rewrite S_INR.
    simpl. lra.
Qed.

(** For values in [[0, 1]] the squared deviations from any centre [c] sum
    to at most [sum x - 2 c sum x + n c^2]. *)
Lemma Rsum_sq_dev (c : R) (l : list R) :
  Forall (fun x => 0 <= x <= 1) l ->
  Rsum (map (fun x => (x - c) ^ 2) l)
  <= Rsum l - 2 * c * Rsum l + INR (length l) * c ^ 2.
Proof.
  induction 1 as [|x l Hx _ IH].
  - simpl. lra.
  - change (length (x :: l)) with (S (length l)). rewrite S_INR.
    simpl in *. nra.
Qed.

Lemma mean_unit_interval (l : list R) :
  l <> [] ->
  Forall (fun x => 0 <= x <= 1) l ->
  0 <= mean l <= 1.
Proof.
  intros Hne Hall.
  pose proof (INR_length_pos l Hne) as Hn.
  pose proof (Rsum_unit_interval l Hall) as [H0 H1].
  unfold mean. split.
  - apply Rmult_le_pos; [exact H0 |].
    left. apply Rinv_0_lt_compat. exact Hn.
  - apply (Rmult_le_reg_r (INR (length l))); [exact Hn |].
    unfold Rdiv. rewrite Rmult_assoc, Rinv_l by lra. lra.
Qed.

Lemma var_unit_interval (l : list R) :
  l <> [] ->
  Forall (fun x => 0 <= x <= 1) l ->
  var l <= 1 / 4.
Proof.
  intros Hne Hall.
  pose proof (INR_length_pos l Hne) as Hn.
  pose proof (Rsum_sq_dev (mean l) l Hall) as Hdev.
  assert (HS : Rsum l = INR (length l) * mean l).
  { unfold mean. field. lra. }
  rewrite HS in Hdev.
  unfold var. unfold mean at 1. rewrite length_map.
  set (m := mean l) in *. set (n := INR (length l)) in *.
  set (D := Rsum (map (fun x => (x - m) ^ 2) l)) in *.
  apply (Rmult_le_reg_r n); [exact Hn |].
  unfold Rdiv. rewrite Rmult_assoc, Rinv_l by lra.
  assert (Hq : n * m - 2 * m * (n * m) + n * m ^ 2 <= n * (1 / 4)).
  { assert (Hsq : 0 <= (m - 1 / 2) ^ 2) by apply pow2_ge_0.
    nra. }
  lra.
Qed.

(** X16. The cross-validation line prints its two figures as they are,
    without multiplying by 100: when the scores are accuracies (fractions
    in [[0, 1]]), the figure printed before the percent sign lies between
    0 and 1, and the figure after [+/-] too. *)
Theorem accuracy_figures_are_fractions (scores : list R) :
  scores <> [] ->
  Forall (fun x => 0 <= x <= 1) scores ->
  0 <= fst (accuracy_figures scores) <= 1
  /\ 0 <= snd (accuracy_figures scores) <= 1.
Proof.
  intros Hne Hall. unfold accuracy_figures. cbn [fst snd].
  split; [apply mean_unit_interval; assumption |].
  unfold std.
  pose proof (var_nonneg scores) as H0.
  pose proof (var_unit_interval scores Hne Hall) as H1.
  pose proof (sqrt_pos (var scores)) as Hs0.
  assert (Hs1 : sqrt (var scores) <= 1 / 2).
  { replace (1 / 2) with (sqrt ((1 / 2) * (1 / 2)))
      by (apply sqrt_square; lra).
    apply sqrt_le_1; lra. }
  lra.
Qed.

(** The theorem applies to three folds. *)
Lemma accuracy_figures_are_fractions_witness :
  [1; 0; 1] <> []
  /\ 0 <= fst (accuracy_figures [1; 0; 1]) <= 1.
Proof.
  assert (Hne : [1; 0; 1] <> []) by discriminate.
  split; [exact Hne |].
  assert (Hall : Forall (fun x => 0 <= x <= 1) [1; 0; 1])
    by (repeat constructor; lra).
  exact (proj1 (accuracy_figures_are_fractions [1; 0; 1] Hne Hall)).
Defined.

End CrossValidationFacts.

Section TraceFacts.
Import Notebook Source Trace.

Lemma in_step_order_nil : in_step_order [].
Proof. intros i ev a Hi. rewrite lookup_nil in Hi. discriminate. Qed.

Lemma in_step_order_app (l1 l2 : list event) :
  in_step_order l1 -> in_step_order l2 -> in_step_order (l1 ++ l2).
Proof.
  intros H1 H2 i ev a Hi Ha.
  destruct (Nat.lt_ge_cases i (length l1)) as [Hlt | Hge].
  - rewrite lookup_app_l in Hi by exact Hlt.
    destruct (H1 i ev a Hi Ha) as (j & p & -> & Hj & Hp).
    exists j, p. split; [reflexivity |]. split; [| exact Hp].
    rewrite lookup_app_l by lia. exact Hj.
  - rewrite lookup_app_r in Hi by exact Hge.
    destruct (H2 _ ev a Hi Ha) as (j & p & Hij & Hj & Hp).
    exists (length l1 + j)%nat, p. split; [lia |]. split; [| exact Hp].
    rewrite lookup_app_r by lia.
    replace (length l1 + j - length l1)%nat with j by lia. exact Hj.
Qed.

Lemma step_ordered_refl (w : world) : step_ordered w w.
Proof.
  exists []. split; [symmetry; apply app_nil_r | apply in_step_order_nil].
Qed.

Lemma step_ordered_trans (w1 w2 w3 : world) :
  step_ordered w1 w2 -> step_ordered w2 w3 -> step_ordered w1 w3.
Proof.
  intros (n1 & H1 & O1) (n2 & H2 & O2). exists (n1 ++ n2)%list. split.
  - rewrite H2, H1, app_assoc. reflexivity.
  - apply in_step_order_app; assumption.
Qed.

Lemma perform_events (L : library) (c : call) (w : world) :
  events (world_of (perform L c w))
  = (events w ++ [Called c (respond L c (events w))])%list.
Proof. unfold perform. destruct (respond L c (events w)); reflexivity. Qed.

Lemma step_ordered_perform (L : library) (c : call) (w : world) :
  comes_after (callee c) = None ->
  step_ordered w (world_of (perform L c w)).
Proof.
  intros Hc. eexists. split; [apply perform_events |].
  intros [|i] ev a Hi Ha; [| cbn in Hi; discriminate].
  injection Hi as <-. unfold called in Ha. cbn [who] in Ha. congruence.
Qed.


Lemma check_events (L : library) (w : world) :
  (check L w = Normal w)
  \/ (exists e w',
         check L w = Raised e w'
         /\ events w' = (events w ++ [Called own_operation (Raises e)])%list).
Proof.
  unfold check. destruct (fault L (events w)) as [e |].
  - right. eexists _, _. split; reflexivity.
  - left. reflexivity.
Qed.

Lemma step_ordered_check (L : library) (w : world) :
  step_ordered w (world_of (check L w)).
Proof.
  destruct (check_events L w) as [-> | (e & w' & -> & Hev)].
  - apply step_ordered_refl.
  - eexists. split; [exact Hev |].
    intros [|i] ev a Hi Ha; [| cbn in Hi; discriminate].
    injection Hi as <-. discriminate Ha.
Qed.

Lemma perform_cases (L : library) (c : call) (w : world) :
  (exists o w',
      perform L c w = Normal w'
      /\ events w' = (events w ++ [Called c o])%list
      /\ is_raise (Called c o) = false)
  \/ (exists e w',
         perform L c w = Raised e w'
         /\ events w' = (events w ++ [Called c (Raises e)])%list).
Proof.
  unfold perform. destruct (respond L c (events w)) as [| cat | e].
  - left. eexists _, _. repeat split.
  - left. eexists _, _. repeat split.
  - right. eexists _, _. repeat split.
Qed.

(** A statement that makes one call: it goes through, leaving the call in
    the history, or it stops before the call, at the call, or after it. *)
Lemma single_call_cases (L : library) (s : stmt) (c : call) (w : world) :
  (forall w0, exec L s w0 = eval L [Invoke c] w0) ->
  (exists o w',
      exec L s w = Normal w'
      /\ events w' = (events w ++ [Called c o])%list
      /\ is_raise (Called c o) = false)
  \/ (exists e w',
         exec L s w = Raised e w'
         /\ events w' = (events w ++ [Called own_operation (Raises e)])%list)
  \/ (exists e w',
         exec L s w = Raised e w'
         /\ events w' = (events w ++ [Called c (Raises e)])%list)
  \/ (exists o e w',
         exec L s w = Raised e w'
         /\ events w'
            = (events w ++ [Called c o; Called own_operation (Raises e)])%list
         /\ is_raise (Called c o) = false).
Proof.
  intros Hs. rewrite Hs. unfold eval. cbn [seq_all eval_op].
  destruct (check_events L w) as [-> | (e & w' & -> & Hev)];
    cbn [and_then].
  2: { right. left. exists e, w'. split; [reflexivity | exact Hev]. }
  destruct (perform_cases L c w)
    as [(o & w1 & -> & Hev1 & Hok) | (e & w1 & -> & Hev1)]; cbn [and_then].
  2: { right. right. left. exists e, w1. split; [reflexivity | exact Hev1]. }
  destruct (check_events L w1) as [-> | (e & w2 & -> & Hev2)].
  - left. exists o, w1. split; [reflexivity | split; assumption].
  - right. right. right. exists o, e, w2.
    split; [reflexivity |]. split; [| exact Hok].
    rewrite Hev2, Hev1, <- app_assoc. reflexivity.
Qed.

Ltac next_call o w' E N :=
  let Hp := fresh "Hp" in
  let e := fresh "e" in
  cbn [seq_all];
  match goal with
  | |- context [exec ?L (Expr [Invoke ?c]) ?w] =>
      destruct (single_call_cases L (Expr [Invoke c]) c w
                                  (fun _ => eq_refl))
        as [(o & w' & Hp & E & N)
           | [(e & w' & Hp & E)
             | [(e & w' & Hp & E) | (o & e & w' & Hp & E & N)]]]
  | |- context [exec ?L (Assign ?t [Invoke ?c]) ?w] =>
      destruct (single_call_cases L (Assign t [Invoke c]) c w
                                  (fun _ => eq_refl))
        as [(o & w' & Hp & E & N)
           | [(e & w' & Hp & E)
             | [(e & w' & Hp & E) | (o & e & w' & Hp & E & N)]]]
  end;
  rewrite Hp; clear Hp; cbn [world_of].

(** The history of the world a run stopped in, written from the world it
    started in. *)
Ltac unfold_history :=
  repeat match goal with
         | H : events ?x = _ |- context [events ?x] => rewrite H; clear H
         end;
  rewrite <- ?app_assoc; cbn [app].

Ltac check_step_order :=
  let i := fresh "i" in
  let ev := fresh "ev" in
  let a := fresh "a" in
  let Hi := fresh "Hi" in
  let Ha := fresh "Ha" in
  intros i ev a Hi Ha;
  repeat (destruct i as [|i];
          [ cbn in Hi; injection Hi as <-; vm_compute in Ha;
            first [ discriminate Ha
                  | injection Ha as <-; eexists _, _;
                    split; [reflexivity |];
                    split; [reflexivity |];
                    split; [reflexivity | assumption] ]
          | ]);
  cbn in Hi; discriminate Hi.

(** The five calls of a training step, from [optimizer.zero_grad()] to
    [optimizer.step()]: each one is made only when the one before it has
    returned. *)
Lemma training_step_ordered (L : library) (w : world) :
  step_ordered w
    (world_of
       (seq_all (exec L)
          [ Expr [fn "optimizer.zero_grad" []];
            Assign "outputs" [fn "net" ["inputs"]];
            Assign "loss" [fn "criterion" ["outputs"; "labels"]];
            Expr [fn "loss.backward" []];
            Expr [fn "optimizer.step" []] ]%string w)).
Proof.
  unfold fn.
  next_call out1 wd1 Hev1 Hok1;
    [| eexists; split; [unfold_history; reflexivity | check_step_order] ..].
  next_call out2 wd2 Hev2 Hok2;
    [| eexists; split; [unfold_history; reflexivity | check_step_order] ..].
  next_call out3 wd3 Hev3 Hok3;
    [| eexists; split; [unfold_history; reflexivity | check_step_order] ..].
  next_call out4 wd4 Hev4 Hok4;
    [| eexists; split; [unfold_history; reflexivity | check_step_order] ..].
  next_call out5 wd5 Hev5 Hok5;
    (eexists; split; [unfold_history; reflexivity | check_step_order]).
Qed.

End TraceFacts.

Section TraceTheorems.
Import Notebook Source Trace.

Lemma step_ordered_exec (L : library) (s : stmt) :
  Forall (fun c => comes_after (callee c) = None) (stmt_calls s) ->
  forall w, step_ordered w (world_of (exec L s w)).
Proof.
  apply (exec_frame L step_ordered (fun c => comes_after (callee c) = None)
                    step_ordered_refl step_ordered_trans).
  - intros c w Hc. apply step_ordered_perform. exact Hc.
  - apply step_ordered_check.
Qed.

Lemma step_ordered_eval (L : library) (os : list op) :
  Forall (fun c => comes_after (callee c) = None) (ops_calls os) ->
  forall w, step_ordered w (world_of (eval L os w)).
Proof.
  apply (eval_frame L step_ordered (fun c => comes_after (callee c) = None)
                    step_ordered_refl step_ordered_trans).
  - intros c w Hc. apply step_ordered_perform. exact Hc.
  - apply step_ordered_check.
Qed.

Lemma step_ordered_loop (L : library) (iter : list op) (body : list stmt)
      (t : string) :
  Forall (fun c => comes_after (callee c) = None) (ops_calls iter) ->
  (forall w, step_ordered w (world_of (seq_all (exec L) body w))) ->
  forall w, step_ordered w (world_of (exec L (For t iter body) w)).
Proof.
  intros Hiter Hbody w.
  change (exec L (For t iter body) w)
    with (and_then (eval L iter w)
            (fun w' => repeat_body (trips L (events w'))
                                   (seq_all (exec L) body) w')).
  apply (and_then_frame step_ordered step_ordered_trans).
  - apply step_ordered_eval. exact Hiter.
  - intros w'.
    apply (repeat_body_frame step_ordered step_ordered_refl
                             step_ordered_trans).
    exact Hbody.
Qed.

Lemma step_ordered_app (L : library) (l1 l2 : list stmt) :
  (forall w, step_ordered w (world_of (seq_all (exec L) l1 w))) ->
  (forall w, step_ordered w (world_of (seq_all (exec L) l2 w))) ->
  forall w, step_ordered w (world_of (seq_all (exec L) (l1 ++ l2) w)).
Proof.
  intros H1 H2 w. rewrite seq_all_app.
  apply (and_then_frame step_ordered step_ordered_trans); [apply H1 | exact H2].
Qed.

Lemma step_ordered_block (L : library) (l : list stmt) :
  Forall (fun c => comes_after (callee c) = None) (flat_map stmt_calls l) ->
  forall w, step_ordered w (world_of (seq_all (exec L) l w)).
Proof.
  intros H.
  apply (run_cell_frame L step_ordered
           (fun c => comes_after (callee c) = None)
           step_ordered_refl step_ordered_trans); [| | exact H].
  - intros c w Hc. apply step_ordered_perform. exact Hc.
  - apply step_ordered_check.
Qed.

Lemma step_ordered_one (L : library) (s : stmt) :
  (forall w, step_ordered w (world_of (exec L s w))) ->
  forall w, step_ordered w (world_of (seq_all (exec L) [s] w)).
Proof.
  intros H w. cbn [seq_all]. specialize (H w).
  destruct (exec L s w); exact H.
Qed.

Lemma training_cell_ordered (L : library) (w : world) :
  step_ordered w (world_of (run_cell L cnn_training w)).
Proof.
  revert w. unfold run_cell, cnn_training.
  apply (step_ordered_app L [_] [_]).
  - apply step_ordered_one.
    apply step_ordered_loop; [repeat constructor |].
    apply (step_ordered_app L [_] [_]);
      [apply step_ordered_block; repeat constructor |].
    apply step_ordered_one.
    apply step_ordered_loop; [repeat constructor |].
    apply (step_ordered_app L [_] (_ :: _ :: _ :: _ :: _ :: [_; _]));
      [apply step_ordered_block; repeat constructor |].
    apply (step_ordered_app L [_; _; _; _; _] [_; _]).
    + apply training_step_ordered.
    + apply step_ordered_block. repeat constructor.
  - apply step_ordered_block. repeat constructor.
Qed.

Lemma in_step_order_follows (a b : string) (evs : list event) :
  comes_after b = Some a -> in_step_order evs -> follows a b evs.
Proof.
  intros Hb H i ev Hi Hev. apply (H i ev a Hi). rewrite Hev. exact Hb.
Qed.

(** X17. In every run of the training cell, whatever the libraries do and
    however many batches the loader yields, the calls of a training step
    keep their order: the forward pass [net(inputs)] comes directly after
    an [optimizer.zero_grad()] that returned, the loss directly after the
    forward pass, [loss.backward()] directly after the loss, and
    [optimizer.step()] directly after a [loss.backward()] that returned.
    The optimizer never steps on gradients left from an earlier batch. *)
Theorem training_step_order (L : library) (w : world) :
  exists new,
    events (world_of (run_cell L cnn_training w)) = (events w ++ new)%list
    /\ follows "optimizer.zero_grad" "net" new
    /\ follows "net" "criterion" new
    /\ follows "criterion" "loss.backward" new
    /\ follows "loss.backward" "optimizer.step" new.
Proof.
  destruct (training_cell_ordered L w) as (new & Hev & Hord).
  exists new. split; [exact Hev |].
  repeat split; apply in_step_order_follows; (reflexivity || exact Hord).
Qed.

(** X18. The calls of a gradient step, [optimizer.zero_grad],
    [loss.backward] and [optimizer.step], are made by the training cell
    only: whatever the libraries do, no run of any other cell of either
    notebook makes one of them.  In particular the evaluation and
    visualisation cells never take an optimizer step. *)
Theorem gradient_calls_only_in_training (L : library) (c : cell)
        (w : world) :
  c ∈ (tabular ++ cnn)%list ->
  c <> cnn_training ->
  exists new,
    events (world_of (run_cell L c w)) = (events w ++ new)%list
    /\ Forall (fun ev => gradient_call (who ev) = false) new.
Proof.
  intros Hin Hne.
  assert (Hcalls : Forall (fun k => gradient_call k = false) (cell_calls c)).
  { assert (Hb : forallb (fun k => negb (gradient_call k)) (cell_calls c)
                 = true).
    { unfold tabular, cnn in Hin. cbn [app] in Hin.
      repeat (apply elem_of_cons in Hin as [-> | Hin];
              [first [congruence | vm_compute; reflexivity] |]).
      apply elem_of_nil in Hin. contradiction. }
    apply Forall_forall. intros k Hk. apply list_elem_of_In in Hk.
    apply negb_true_iff. exact (proj1 (forallb_forall _ _) Hb k Hk). }
  apply (run_cell_frame L
           (fun w w' =>
              exists new,
                events w' = (events w ++ new)%list
                /\ Forall (fun ev => gradient_call (who ev) = false) new)
           (fun k => gradient_call k = false)); [| | | | exact Hcalls].
  - intros w0. exists []. split; [symmetry; apply app_nil_r | constructor].
  - intros w1 w2 w3 (n1 & H1 & F1) (n2 & H2 & F2).
    exists (n1 ++ n2)%list. split.
    + rewrite H2, H1, app_assoc. reflexivity.
    + apply Forall_app. split; assumption.
  - intros k w0 Hk. eexists. split; [apply perform_events |].
    constructor; [exact Hk | constructor].
  - intros w0. destruct (check_events L w0) as [-> | (e & w' & -> & Hev)].
    + exists []. split; [symmetry; apply app_nil_r | constructor].
    + eexists. split; [exact Hev |]. repeat constructor.
Qed.

(** The theorem applies to the cell that measures the accuracy. *)
Lemma gradient_calls_only_in_training_witness :
  cnn_accuracy ∈ (tabular ++ cnn)%list
  /\ cnn_accuracy <> cnn_training
  /\ exists new,
      events (world_of (run_cell returning cnn_accuracy empty_world))
      = (events empty_world ++ new)%list
      /\ Forall (fun ev => gradient_call (who ev) = false) new.
Proof.
  assert (Hin : cnn_accuracy ∈ (tabular ++ cnn)%list).
  { apply elem_of_app. right. apply list_elem_of_lookup.
    exists 17%nat. reflexivity. }
  assert (Hne : cnn_accuracy <> cnn_training) by discriminate.
  split; [exact Hin | split; [exact Hne |]].
  exact (gradient_calls_only_in_training returning cnn_accuracy empty_world
                                         Hin Hne).
Defined.

End TraceTheorems.

